(** * CC2022 Control Panel: XBee command framing, telemetry reassembly,
      frame routing and the simulation feeder

    A shallow embedding of [src/CanSat/ControlPanel.cpp],
    [src/SerialStudio/Plugin.cpp], the older
    [src/SerialStudio/Communicator.cpp] and the button handlers of the QML
    page, followed by the properties of the radio framing and
    telemetry-ingestion layer.

    Conventions.
    - A [QByteArray] is a list of bytes.  A [QString] is the Rocq string of
      its UTF-8 encoding, so [toUtf8] is the conversion to bytes and
      [QString::isEmpty] is emptiness of either.
    - C++ [int] and [qsizetype] values (indices, sizes, [m_row], [bytes]) are
      integers in [Z]; they stay far below the width of the type for arrays
      that fit in memory.  The fixed-width arithmetic of the encoders
      ([quint8], [quint16], and the [int] accumulator of the older encoder)
      is written out with its wrap-around.
    - The object state, the transport and the event loop are threaded through
      a small state monad; signals, console lines, message boxes and socket
      writes are appended to a trace in emission order. *)

From Stdlib Require Import ZArith List Bool String Ascii Lia.
From Stdlib Require Import Strings.Byte.
Import ListNotations.
Local Open Scope string_scope.
Local Open Scope list_scope.
Local Open Scope Z_scope.

(** [QString] concatenation, the [+] of the C++ source. *)
Infix "+s" := String.append (at level 50, left associativity).

(* ===================================================================== *)
(** * Qt value types *)
(* ===================================================================== *)

(** Fixed-width integer conversions. *)
Module Int.

Definition quint8 (z : Z) : Z := z mod 256.
Definition quint16 (z : Z) : Z := z mod 65536.

(** Two's complement 32-bit [int]. *)
Definition int (z : Z) : Z := (z + 2147483648) mod 4294967296 - 2147483648.

(** [(quint8) c] for a [char] of a byte array. *)
Definition of_char (b : byte) : Z := Z.of_N (Byte.to_N b).

(** The [char] appended to a byte array for an integer value. *)
Definition to_char (z : Z) : byte :=
  match Byte.of_N (Z.to_N (z mod 256)) with
  | Some b => b
  | None => x00
  end.

End Int.

Module QString.

Definition t := string.

Definition isEmpty (s : t) : bool :=
  match s with EmptyString => true | String _ _ => false end.

Definition tab : t := String (ascii_of_nat 9) EmptyString.
Definition newline : t := String (ascii_of_nat 10) EmptyString.

(** [QString::startsWith]. *)
Definition startsWith (s pat : t) : bool := String.prefix pat s.

(** [s.replace(c, after)] for a one-character pattern. *)
Fixpoint replace (s : t) (c : ascii) (after : t) : t :=
  match s with
  | EmptyString => EmptyString
  | String x s' =>
      if Ascii.eqb x c then after +s replace s' c after
      else String x (replace s' c after)
  end.

(** The text after the last slash: [QFileInfo(path).fileName()]. *)
Fixpoint fileName_from (path acc : t) : t :=
  match path with
  | EmptyString => acc
  | String x path' =>
      if Ascii.eqb x "/"%char then fileName_from path' EmptyString
      else fileName_from path' (acc +s String x EmptyString)
  end.

Definition fileName (path : t) : t := fileName_from path EmptyString.

End QString.

Module QByteArray.

Definition t := list byte.

Definition size (a : t) : Z := Z.of_nat (List.length a).

Definition isEmpty (a : t) : bool :=
  match a with [] => true | _ :: _ => false end.

Definition append (a b : t) : t := a ++ b.

Definition toUtf8 (s : QString.t) : t := list_byte_of_string s.
Definition fromUtf8 (a : t) : QString.t := string_of_list_byte a.

(** [a.startsWith(pat)]. *)
Fixpoint startsWith (a pat : t) {struct pat} : bool :=
  match pat, a with
  | [], _ => true
  | _ :: _, [] => false
  | p :: pat', x :: a' => Byte.eqb x p && startsWith a' pat'
  end.

(** [a.indexOf(pat)]: position of the first occurrence, -1 when there is
    none. *)
Fixpoint indexOf_from (a pat : t) (from : Z) : Z :=
  if startsWith a pat then from
  else match a with
       | [] => -1
       | _ :: a' => indexOf_from a' pat (from + 1)
       end.

Definition indexOf (a pat : t) : Z := indexOf_from a pat 0.

(** [a.contains(pat)] is [indexOf(pat) != -1]. *)
Definition contains (a pat : t) : bool := negb (indexOf a pat =? -1).

(** [a.mid(pos, len)], with Qt's treatment of a negative position or
    length: [len = -1] means up to the end, and a negative position with a
    negative length gives the whole array. *)
Definition mid (a : t) (pos len : Z) : t :=
  let n := size a in
  if n <? pos then []
  else if pos <? 0 then
    if (len <? 0) || (n <=? len + pos) then a
    else if len + pos <=? 0 then []
    else firstn (Z.to_nat (len + pos)) a
  else
    let len := if (len <? 0) || (n - pos <? len) then n - pos else len in
    firstn (Z.to_nat len) (skipn (Z.to_nat pos) a).

(** [a.left(len)]: the whole array when [len >= size()], empty when
    [len < 0]. *)
Definition left (a : t) (len : Z) : t :=
  if size a <=? len then a
  else if len <? 0 then []
  else firstn (Z.to_nat len) a.

(** [a.remove(pos, len)]: nothing happens when [pos] is out of range or
    [len <= 0]; the array is truncated at [pos] when [pos + len] passes the
    end. *)
Definition remove (a : t) (pos len : Z) : t :=
  if (len <=? 0) || (pos <? 0) || (size a <=? pos) then a
  else firstn (Z.to_nat pos) a ++ skipn (Z.to_nat (pos + len)) a.

(** [a.replace(pos, len, after)]. *)
Definition replace (a : t) (pos len : Z) (after : t) : t :=
  firstn (Z.to_nat pos) a ++ after ++ skipn (Z.to_nat (pos + len)) a.

(** [a.chop(n)]. *)
Definition chop (a : t) (n : Z) : t :=
  if n <=? 0 then a
  else if size a <=? n then []
  else firstn (Z.to_nat (size a - n)) a.

End QByteArray.

(** Reading an API frame back: start delimiter, big-endian length field,
    payload, checksum byte. *)
Module XBee.

Definition sum_bytes (a : QByteArray.t) : Z :=
  fold_right (fun c acc => Int.of_char c + acc) 0 a.

Definition delimiter (apiFrame : QByteArray.t) : byte := nth 0 apiFrame x00.

Definition length_field (apiFrame : QByteArray.t) : Z :=
  256 * Int.of_char (nth 1 apiFrame x00) + Int.of_char (nth 2 apiFrame x00).

(** The bytes between the length field and the checksum byte. *)
Definition payload (apiFrame : QByteArray.t) : QByteArray.t :=
  removelast (skipn 3 apiFrame).

Definition checksum (apiFrame : QByteArray.t) : Z :=
  Int.of_char (last apiFrame x00).

(** The fixed bytes in front of the command: frame type, two zero bytes,
    64-bit address, 16-bit address, broadcast radius, options.  The radio
    address is 00 13 A2 00 41 B1 8C 8D; on the wire its first two bytes are
    7D 33. *)
Definition plainHeader : QByteArray.t :=
  [x10; x00; x00; x00; x13; xa2; x00; x41; xb1; x8c; x8d; xff; xfe; x00; x00].

Definition sentHeader : QByteArray.t :=
  [x10; x00; x00; x7d; x33; xa2; x00; x41; xb1; x8c; x8d; xff; xfe; x00; x00].

End XBee.

(* ===================================================================== *)
(** * CanSat::ControlPanel with the SerialStudio::Plugin transport *)
(* ===================================================================== *)

Module ControlPanel.

(** ** State *)

(** A [QFile] handle: the bytes seen through the handle are [device]. *)
Record QFile := mkQFile {
  isOpen : bool;
  fileName : QString.t;
  errorString : QString.t;
  device : QByteArray.t
}.

(** [QDateTime::currentDateTime()], by the fields the format strings of the
    source use. *)
Record QDateTime := mkQDateTime {
  yyyy : QString.t; MMM : QString.t; dd : QString.t;
  HH : QString.t; mm : QString.t; ss : QString.t; zzz : QString.t
}.

Record Os := mkOs {
  homePath : QString.t;
  tempPath : QString.t;
  applicationName : QString.t
}.

Inductive Signal :=
| currentTimeChanged
| csvFileNameChanged
| simulationEnabledChanged
| simulationActivatedChanged
| containerTelemetryEnabledChanged.

(** Slots that the source hands to [QTimer::singleShot]. *)
Inductive Slot := SLOT_sendSimulatedData.

(** What the object does to the outside, in emission order. *)
Inductive Effect :=
| Emit (signal : Signal)
| PrintLn (data : QString.t)
| ShowMessageBox (title text : QString.t)
| SocketWrite (data : QByteArray.t).

Record State := mkState {
  (* members of CanSat::ControlPanel *)
  m_row : Z;
  m_file : QFile;
  m_tempFile : QFile;
  m_currentTime : QString.t;
  m_dataBuffer : QByteArray.t;
  m_csvData : list (list QString.t);
  m_payloadCsv : QFile;
  m_containerCsv : QFile;
  m_simulationEnabled : bool;
  m_simulationActivated : bool;
  m_containerTelemetryEnabled : bool;
  (* SerialStudio::Plugin: m_socket.state() == ConnectedState *)
  socketConnected : bool;
  (* pending single-shot timers: delay in ms and slot *)
  timers : list (Z * Slot);
  (* signals, console lines, message boxes, socket writes *)
  trace : list Effect;
  (* outcomes of the coming fallible system calls (file open, file write,
     socket write), in call order: [None] is success, [Some e] a failure
     with error string [e]; success once the list is used up *)
  io : list (option QString.t);
  currentDateTime : QDateTime;
  os : Os
}.

Definition set_m_row (v : Z) (s : State) : State :=
  mkState v (m_file s) (m_tempFile s) (m_currentTime s) (m_dataBuffer s)
    (m_csvData s) (m_payloadCsv s) (m_containerCsv s) (m_simulationEnabled s)
    (m_simulationActivated s) (m_containerTelemetryEnabled s)
    (socketConnected s) (timers s) (trace s) (io s) (currentDateTime s) (os s).

Definition set_m_file (v : QFile) (s : State) : State :=
  mkState (m_row s) v (m_tempFile s) (m_currentTime s) (m_dataBuffer s)
    (m_csvData s) (m_payloadCsv s) (m_containerCsv s) (m_simulationEnabled s)
    (m_simulationActivated s) (m_containerTelemetryEnabled s)
    (socketConnected s) (timers s) (trace s) (io s) (currentDateTime s) (os s).

Definition set_m_tempFile (v : QFile) (s : State) : State :=
  mkState (m_row s) (m_file s) v (m_currentTime s) (m_dataBuffer s)
    (m_csvData s) (m_payloadCsv s) (m_containerCsv s) (m_simulationEnabled s)
    (m_simulationActivated s) (m_containerTelemetryEnabled s)
    (socketConnected s) (timers s) (trace s) (io s) (currentDateTime s) (os s).

Definition set_m_currentTime (v : QString.t) (s : State) : State :=
  mkState (m_row s) (m_file s) (m_tempFile s) v (m_dataBuffer s)
    (m_csvData s) (m_payloadCsv s) (m_containerCsv s) (m_simulationEnabled s)
    (m_simulationActivated s) (m_containerTelemetryEnabled s)
    (socketConnected s) (timers s) (trace s) (io s) (currentDateTime s) (os s).

Definition set_m_dataBuffer (v : QByteArray.t) (s : State) : State :=
  mkState (m_row s) (m_file s) (m_tempFile s) (m_currentTime s) v
    (m_csvData s) (m_payloadCsv s) (m_containerCsv s) (m_simulationEnabled s)
    (m_simulationActivated s) (m_containerTelemetryEnabled s)
    (socketConnected s) (timers s) (trace s) (io s) (currentDateTime s) (os s).

Definition set_m_csvData (v : list (list QString.t)) (s : State) : State :=
  mkState (m_row s) (m_file s) (m_tempFile s) (m_currentTime s)
    (m_dataBuffer s) v (m_payloadCsv s) (m_containerCsv s)
    (m_simulationEnabled s) (m_simulationActivated s)
    (m_containerTelemetryEnabled s)
    (socketConnected s) (timers s) (trace s) (io s) (currentDateTime s) (os s).

Definition set_m_payloadCsv (v : QFile) (s : State) : State :=
  mkState (m_row s) (m_file s) (m_tempFile s) (m_currentTime s)
    (m_dataBuffer s) (m_csvData s) v (m_containerCsv s)
    (m_simulationEnabled s) (m_simulationActivated s)
    (m_containerTelemetryEnabled s)
    (socketConnected s) (timers s) (trace s) (io s) (currentDateTime s) (os s).

Definition set_m_containerCsv (v : QFile) (s : State) : State :=
  mkState (m_row s) (m_file s) (m_tempFile s) (m_currentTime s)
    (m_dataBuffer s) (m_csvData s) (m_payloadCsv s) v
    (m_simulationEnabled s) (m_simulationActivated s)
    (m_containerTelemetryEnabled s)
    (socketConnected s) (timers s) (trace s) (io s) (currentDateTime s) (os s).

Definition set_m_simulationEnabled (v : bool) (s : State) : State :=
  mkState (m_row s) (m_file s) (m_tempFile s) (m_currentTime s)
    (m_dataBuffer s) (m_csvData s) (m_payloadCsv s) (m_containerCsv s)
    v (m_simulationActivated s) (m_containerTelemetryEnabled s)
    (socketConnected s) (timers s) (trace s) (io s) (currentDateTime s) (os s).

Definition set_m_simulationActivated (v : bool) (s : State) : State :=
  mkState (m_row s) (m_file s) (m_tempFile s) (m_currentTime s)
    (m_dataBuffer s) (m_csvData s) (m_payloadCsv s) (m_containerCsv s)
    (m_simulationEnabled s) v (m_containerTelemetryEnabled s)
    (socketConnected s) (timers s) (trace s) (io s) (currentDateTime s) (os s).

Definition set_m_containerTelemetryEnabled (v : bool) (s : State) : State :=
  mkState (m_row s) (m_file s) (m_tempFile s) (m_currentTime s)
    (m_dataBuffer s) (m_csvData s) (m_payloadCsv s) (m_containerCsv s)
    (m_simulationEnabled s) (m_simulationActivated s) v
    (socketConnected s) (timers s) (trace s) (io s) (currentDateTime s) (os s).

Definition set_socketConnected (v : bool) (s : State) : State :=
  mkState (m_row s) (m_file s) (m_tempFile s) (m_currentTime s)
    (m_dataBuffer s) (m_csvData s) (m_payloadCsv s) (m_containerCsv s)
    (m_simulationEnabled s) (m_simulationActivated s)
    (m_containerTelemetryEnabled s)
    v (timers s) (trace s) (io s) (currentDateTime s) (os s).

Definition set_timers (v : list (Z * Slot)) (s : State) : State :=
  mkState (m_row s) (m_file s) (m_tempFile s) (m_currentTime s)
    (m_dataBuffer s) (m_csvData s) (m_payloadCsv s) (m_containerCsv s)
    (m_simulationEnabled s) (m_simulationActivated s)
    (m_containerTelemetryEnabled s)
    (socketConnected s) v (trace s) (io s) (currentDateTime s) (os s).

Definition set_trace (v : list Effect) (s : State) : State :=
  mkState (m_row s) (m_file s) (m_tempFile s) (m_currentTime s)
    (m_dataBuffer s) (m_csvData s) (m_payloadCsv s) (m_containerCsv s)
    (m_simulationEnabled s) (m_simulationActivated s)
    (m_containerTelemetryEnabled s)
    (socketConnected s) (timers s) v (io s) (currentDateTime s) (os s).

Definition set_io (v : list (option QString.t)) (s : State) : State :=
  mkState (m_row s) (m_file s) (m_tempFile s) (m_currentTime s)
    (m_dataBuffer s) (m_csvData s) (m_payloadCsv s) (m_containerCsv s)
    (m_simulationEnabled s) (m_simulationActivated s)
    (m_containerTelemetryEnabled s)
    (socketConnected s) (timers s) (trace s) v (currentDateTime s) (os s).

Definition set_currentDateTime (v : QDateTime) (s : State) : State :=
  mkState (m_row s) (m_file s) (m_tempFile s) (m_currentTime s)
    (m_dataBuffer s) (m_csvData s) (m_payloadCsv s) (m_containerCsv s)
    (m_simulationEnabled s) (m_simulationActivated s)
    (m_containerTelemetryEnabled s)
    (socketConnected s) (timers s) (trace s) (io s) v (os s).

(** ** The state monad of the handlers *)

Definition M (A : Type) : Type := State -> A * State.

Definition ret {A : Type} (a : A) : M A := fun s => (a, s).

Definition bind {A B : Type} (m : M A) (k : A -> M B) : M B :=
  fun s => let (a, s') := m s in k a s'.

Definition gets {A : Type} (f : State -> A) : M A := fun s => (f s, s).

Definition modify (f : State -> State) : M unit := fun s => (tt, f s).

(** The state a handler leaves behind. *)
Definition exec {A : Type} (m : M A) (s : State) : State := snd (m s).

Declare Scope monad_scope.
Delimit Scope monad_scope with monad.
Notation "x <- m ;; k" := (bind m (fun x => k))
  (at level 61, m at next level, right associativity) : monad_scope.
Notation "m ;; k" := (bind m (fun _ => k))
  (at level 61, right associativity) : monad_scope.
Local Open Scope monad_scope.

Definition emit (signal : Signal) : M unit :=
  modify (fun s => set_trace (trace s ++ [Emit signal]) s).

Definition printLn (data : QString.t) : M unit :=
  modify (fun s => set_trace (trace s ++ [PrintLn data]) s).

(** [Misc::Utilities::showMessageBox]. *)
Definition showMessageBox (title text : QString.t) : M unit :=
  modify (fun s => set_trace (trace s ++ [ShowMessageBox title text]) s).

(** [QTimer::singleShot(msec, this, slot)]. *)
Definition singleShot (msec : Z) (slot : Slot) : M unit :=
  modify (fun s => set_timers (timers s ++ [(msec, slot)]) s).

(** The outcome of the next fallible system call. *)
Definition syscall : M (option QString.t) :=
  fun s => (hd None (io s), set_io (tl (io s)) s).

(** ** QFile members of the object *)

Record FileRef := mkFileRef {
  get : State -> QFile;
  set : QFile -> State -> State
}.

Definition file_m_file := mkFileRef m_file set_m_file.
Definition file_m_tempFile := mkFileRef m_tempFile set_m_tempFile.
Definition file_m_payloadCsv := mkFileRef m_payloadCsv set_m_payloadCsv.
Definition file_m_containerCsv := mkFileRef m_containerCsv set_m_containerCsv.

Inductive OpenMode := ReadOnly | WriteOnly.

Definition QFile_close (f : FileRef) : M unit :=
  modify (fun s =>
    let h := get f s in
    set f (mkQFile false (fileName h) (errorString h) (device h)) s).

Definition QFile_setFileName (f : FileRef) (name : QString.t) : M unit :=
  modify (fun s =>
    let h := get f s in
    set f (mkQFile (isOpen h) name (errorString h) (device h)) s).

(** [f.open(mode)]: fails on a handle that is already open; otherwise the
    system decides.  Opening for writing truncates. *)
Definition QFile_open (f : FileRef) (mode : OpenMode) : M bool :=
  h <- gets (get f) ;;
  if isOpen h then ret false
  else
    r <- syscall ;;
    match r with
    | None =>
        let content := match mode with ReadOnly => device h | WriteOnly => [] end in
        modify (set f (mkQFile true (fileName h) (errorString h) content)) ;;
        ret true
    | Some e =>
        modify (set f (mkQFile false (fileName h) e (device h))) ;;
        ret false
    end.

(** [f.write(data)]; the source never looks at the result. *)
Definition QFile_write (f : FileRef) (data : QByteArray.t) : M unit :=
  h <- gets (get f) ;;
  if isOpen h then
    r <- syscall ;;
    match r with
    | None =>
        modify (set f (mkQFile true (fileName h) (errorString h)
                         (device h ++ data)))
    | Some e =>
        modify (set f (mkQFile true (fileName h) e (device h)))
    end
  else ret tt.

(** ** SerialStudio::Plugin *)

Definition Plugin_isConnected : M bool := gets socketConnected.

(** [Plugin::write]: [m_socket.write(data) == data.length()]. *)
Definition Plugin_write (data : QByteArray.t) : M bool :=
  modify (fun s => set_trace (trace s ++ [SocketWrite data]) s) ;;
  r <- syscall ;;
  ret (match r with None => true | Some _ => false end).

(** ** Accessors *)

Definition simulationEnabled : M bool := gets m_simulationEnabled.

Definition simulationActivated : M bool :=
  enabled <- simulationEnabled ;;
  activated <- gets m_simulationActivated ;;
  ret (enabled && activated).

Definition containerTelemetryEnabled : M bool :=
  gets m_containerTelemetryEnabled.

Definition simulationCsvLoaded : M bool := gets (fun s => isOpen (m_file s)).

Definition currentTime : M QString.t := gets m_currentTime.

Definition csvFileName : M QString.t :=
  loaded <- simulationCsvLoaded ;;
  if loaded then
    name <- gets (fun s => fileName (m_file s)) ;;
    ret (QString.fileName name)
  else ret "No CSV file selected".

(** ** Frame encoder *)

(** The XBee API frame that [sendData] builds for [data]. *)
Definition sendData_apiFrame (data : QString.t) : QByteArray.t :=
  (* Define Xbee 64-bit address *)
  let address64bit := [x00; x13; xa2; x00; x41; xb1; x8c; x8d] in
  (* Define Xbee 16-bit address *)
  let address16bit := [xff; xfe] in
  (* Begin constructing Xbee API frame *)
  let frame := [x10] ++ [x00] ++ [x00] ++ address64bit ++ address16bit
               ++ [x00] ++ [x00] in
  (* Add data to frame *)
  let frame := frame ++ QByteArray.toUtf8 data in
  (* Calculate sum *)
  let sum := fold_left (fun sum c => Int.quint16 (sum + Int.of_char c)) frame 0 in
  (* Calculate checksum *)
  let crc := Int.quint8 (0xff - Z.land sum 0xFF) in
  (* Calculate frame length *)
  let length := Int.quint16 (QByteArray.size frame - 1) in
  (* Replace first two bytes of 64-bit address after the CRC is calculated *)
  let msbAddress := [x7d; x33] in
  let frame := QByteArray.replace frame 3 2 msbAddress in
  (* Generate full frame *)
  [x7e]
  ++ [Int.to_char (Z.land (Int.quint8 (Z.shiftr length 8)) 0xff)]
  ++ [Int.to_char (Z.land (Int.quint8 (Z.shiftr length 0)) 0xff)]
  ++ frame
  ++ [Int.to_char crc].

Definition sendData (data : QString.t) : M bool :=
  (* Data is empty, abort *)
  if QString.isEmpty data then ret false
  else
    (* We are not connected to Serial Studio, abort transmission *)
    connected <- Plugin_isConnected ;;
    if negb connected then ret false
    else
      let apiFrame := sendData_apiFrame data in
      (* Send data to Serial Studio *)
      printLn ("  [TX]" +s QString.tab +s data) ;;
      Plugin_write apiFrame.

(** ** Frame router *)

Definition toString_HH_mm_ss (t : QDateTime) : QString.t :=
  HH t +s "-" +s mm t +s "-" +s ss t.

Definition toString_hh_mm_ss (t : QDateTime) : QString.t :=
  HH t +s ":" +s mm t +s ":" +s ss t.

Definition toString_hh_mm_ss_zzz (t : QDateTime) : QString.t :=
  HH t +s ":" +s mm t +s ":" +s ss t +s ":" +s zzz t.

Definition toString_yyyy_MMM_dd (t : QDateTime) : QString.t :=
  yyyy t +s "/" +s MMM t +s "/" +s dd t +s "/".

(** [createCsv].  The directory is made when it is missing; directories are
    not part of the state. *)
Definition createCsv (createContainerCsv : bool) : M bool :=
  (* Get current date time *)
  dateTime <- gets currentDateTime ;;
  (* Get file name *)
  let title := if createContainerCsv then "Container" else "Payload" in
  let name := title +s "_" +s toString_HH_mm_ss dateTime +s ".csv" in
  (* Get path *)
  let format := toString_yyyy_MMM_dd dateTime in
  o <- gets os ;;
  let path := homePath o +s "/Documents/" +s applicationName o +s "/" +s format in
  let filePath := path +s name in
  (* Update UI *)
  printLn ("[INFO]" +s QString.tab +s "Creating new CSV file at " +s filePath) ;;
  if createContainerCsv then
    (* Create container CSV file *)
    QFile_close file_m_containerCsv ;;
    QFile_setFileName file_m_containerCsv filePath ;;
    QFile_open file_m_containerCsv WriteOnly
  else
    (* Create payload CSV file *)
    QFile_close file_m_payloadCsv ;;
    QFile_setFileName file_m_payloadCsv filePath ;;
    QFile_open file_m_payloadCsv WriteOnly.

(** One tagged branch of [processFrame]: the result tells whether the
    function goes on to its last statement ([false] is the early
    [return]). *)
Definition processFrame_log (csv : FileRef) (isContainer : bool)
    (title : QString.t) (frame : QByteArray.t) : M bool :=
  open <- gets (fun s => isOpen (get csv s)) ;;
  created <- (if negb open then createCsv isContainer else ret true) ;;
  if negb created then
    err <- gets (fun s => errorString (get csv s)) ;;
    showMessageBox title err ;;
    ret false
  else
    (* Escribir datos al CSV *)
    QFile_write csv frame ;;
    QFile_write csv (QByteArray.toUtf8 QString.newline) ;;
    ret true.

Definition processFrame (frame : QByteArray.t) : M unit :=
  (* Validate frame *)
  if QByteArray.isEmpty frame then ret tt
  else
    goes_on <-
      (if QByteArray.startsWith frame (QByteArray.toUtf8 "6026") then
         (* Frame begins with 6026 *)
         processFrame_log file_m_payloadCsv false
           "Error while creating payload CSV" frame
       else if QByteArray.startsWith frame (QByteArray.toUtf8 "1026") then
         (* Frame begins with 1026 *)
         processFrame_log file_m_containerCsv true
           "Error while creating container CSV" frame
       else ret true) ;;
    if goes_on then
      (* Update user interface *)
      printLn ("  [RX]" +s QString.tab +s QByteArray.fromUtf8 frame)
    else ret tt.

(** ** Stream reassembler *)

Definition start : QByteArray.t := QByteArray.toUtf8 "/*".
Definition finish : QByteArray.t := QByteArray.toUtf8 "*/".

(** The [while] loop of [onDataReceived] on the local variables [cursor]
    and [bytes]; it returns the final [bytes].  Every pass drops at least
    the start sequence from [cursor], so [fuel] above the size of [cursor]
    is never used up (see [readFrames_fuel]). *)
Fixpoint readFrames (fuel : nat) (cursor : QByteArray.t) (bytes : Z) : M Z :=
  match fuel with
  | O => ret bytes
  | S fuel' =>
      if QByteArray.contains cursor start && QByteArray.contains cursor finish
      then
        (* Remove the part of the buffer prior to, and including, the start
           sequence. *)
        let sIndex := QByteArray.indexOf cursor start in
        let cursor := QByteArray.mid cursor (sIndex + QByteArray.size start) (-1) in
        let bytes := bytes + (sIndex + QByteArray.size start) in
        (* Copy a sub-buffer that goes until the finish sequence *)
        let fIndex := QByteArray.indexOf cursor finish in
        let frame := QByteArray.left cursor fIndex in
        (* Process frame data *)
        processFrame frame ;;
        (* Remove the data including the finish sequence from the master
           buffer *)
        let cursor := QByteArray.mid cursor fIndex (-1) in
        let bytes := bytes + (fIndex + QByteArray.size finish) in
        readFrames fuel' cursor bytes
      else ret bytes
  end.

Definition onDataReceived (data : QByteArray.t) : M unit :=
  (* Append data to buffer *)
  modify (fun s => set_m_dataBuffer (QByteArray.append (m_dataBuffer s) data) s) ;;
  (* Read until start/finish combinations are not found *)
  cursor <- gets m_dataBuffer ;;
  bytes <- readFrames (S (List.length cursor)) cursor 0 ;;
  (* Remove parsed data from master buffer *)
  modify (fun s => set_m_dataBuffer (QByteArray.remove (m_dataBuffer s) 0 bytes) s) ;;
  (* Clear temp. buffer (e.g. device sends a lot of invalid data) *)
  size <- gets (fun s => QByteArray.size (m_dataBuffer s)) ;;
  if 1024 * 10 * 10 <? size then modify (set_m_dataBuffer [])
  else ret tt.

(** ** Simulation feeder and the other slots *)

Definition updateContainerTime : M unit :=
  connected <- Plugin_isConnected ;;
  if connected then
    time <- gets (fun s => toString_hh_mm_ss (currentDateTime s)) ;;
    _ <- sendData ("CMD,1026,ST," +s time +s ";") ;;
    ret tt
  else ret tt.

Definition setSimulationMode (enabled : bool) : M unit :=
  connected <- Plugin_isConnected ;;
  if connected then
    modify (set_m_simulationActivated false) ;;
    modify (set_m_simulationEnabled enabled) ;;
    emit simulationEnabledChanged ;;
    emit simulationActivatedChanged ;;
    let cmd := "DISABLE" in
    on <- simulationEnabled ;;
    let cmd := if on then "ENABLE" else cmd in
    _ <- sendData ("CMD,1026,SIM," +s cmd +s ";") ;;
    ret tt
  else ret tt.

Definition setSimulationActivated (activated : bool) : M unit :=
  connected <- Plugin_isConnected ;;
  enabled <- simulationEnabled ;;
  if connected && enabled then
    name <- csvFileName ;;
    if activated && negb (QString.isEmpty name) then
      modify (set_m_simulationActivated true) ;;
      emit simulationActivatedChanged ;;
      _ <- sendData "CMD,1026,SIM,ACTIVATE;" ;;
      printLn ("[INFO]" +s QString.tab +s "Wating 5 seconds before sending data...") ;;
      singleShot 5000 SLOT_sendSimulatedData
    else setSimulationMode false
  else ret tt.

Definition setContainerTelemetryEnabled (enabled : bool) : M unit :=
  connected <- Plugin_isConnected ;;
  if connected then
    modify (set_m_containerTelemetryEnabled enabled) ;;
    emit containerTelemetryEnabledChanged ;;
    let cmd := "OFF" in
    let cmd := if enabled then "ON" else cmd in
    _ <- sendData ("CMD,1026,CX," +s cmd +s ";") ;;
    ret tt
  else ret tt.

Definition updateCurrentTime : M unit :=
  now <- gets (fun s => toString_hh_mm_ss_zzz (currentDateTime s)) ;;
  modify (set_m_currentTime now) ;;
  emit currentTimeChanged.

(** [row.first()]; rows of the CSV reader hold at least one field. *)
Definition first (row : list QString.t) : QString.t := hd EmptyString row.

Definition sendSimulatedData : M unit :=
  (* Stop if simulation mode is not active *)
  active <- simulationActivated ;;
  connected <- Plugin_isConnected ;;
  if negb active || negb connected then ret tt
  else
    row_ <- gets m_row ;;
    data <- gets m_csvData ;;
    (* Read, validate & send current row data *)
    if (row_ <? Z.of_nat (List.length data)) && (0 <=? row_) then
      (* Get CSV row data *)
      let row := nth (Z.to_nat row_) data [] in
      (* Generate row string *)
      let cmd := "CMD,1026,SIMP," +s first row +s ";" in
      (* Send command *)
      (if negb (QString.isEmpty cmd) then
         _ <- sendData cmd ;; ret tt
       else
         showMessageBox "Simulation CSV error" "Invalid column count at row %1") ;;
      (* Increment row *)
      modify (fun s => set_m_row (m_row s + 1) s) ;;
      (* Llamar esta funcion en un segundo *)
      singleShot 1000 SLOT_sendSimulatedData
    else
      (* Show CSV finished box & disable simulation mode *)
      setSimulationActivated false ;;
      showMessageBox "Pressure simulation finished" "Reached end of CSV file".

(** What the file dialog and the file system hand to [openCsv]: the chosen
    name, the lines of the chosen file and the rows that
    [QtCSV::Reader::readToList] parses out of the filtered text. *)
Record CsvDialog := mkCsvDialog {
  selected : QString.t;
  lines : list QString.t;
  readToList : QByteArray.t -> list (list QString.t)
}.

(** The loop over the lines of the selected file in [openCsv]. *)
Fixpoint openCsv_filter (src : list QString.t) (csv : QString.t) : QString.t :=
  match src with
  | [] => csv
  | line :: src' =>
      let line := QString.replace line " "%char "" in
      if QString.startsWith line "#" || QString.isEmpty line then
        openCsv_filter src' csv
      else
        let line := QString.replace line "$"%char "1026" in
        openCsv_filter src' (csv +s line +s QString.newline)
  end.

Definition openCsv (dialog : CsvDialog) : M unit :=
  let name := selected dialog in
  (* User did not select a file, abort *)
  if QString.isEmpty name then ret tt
  else
    (* Close current file *)
    open <- gets (fun s => isOpen (m_file s)) ;;
    (if open then QFile_close file_m_file else ret tt) ;;
    (* Open the selected file *)
    QFile_setFileName file_m_file name ;;
    opened <- QFile_open file_m_file ReadOnly ;;
    (if opened then
       (* Close temp. file *)
       topen <- gets (fun s => isOpen (m_tempFile s)) ;;
       (if topen then QFile_close file_m_tempFile else ret tt) ;;
       (* Disable simulation mode *)
       active <- simulationActivated ;;
       (if active then setSimulationActivated false else ret tt) ;;
       (* Generate CSV data *)
       let csv := openCsv_filter (lines dialog) "" in
       (* Save CSV file to temp path *)
       tmp <- gets (fun s => tempPath (os s)) ;;
       QFile_setFileName file_m_tempFile (tmp +s "/CC2022_temp.csv") ;;
       wr <- QFile_open file_m_tempFile WriteOnly ;;
       (if wr then
          QFile_write file_m_tempFile (QByteArray.toUtf8 csv) ;;
          QFile_close file_m_tempFile
        else ret tt) ;;
       (* Read CSV data *)
       rd <- QFile_open file_m_tempFile ReadOnly ;;
       (if rd then
          modify (set_m_row 1) ;;
          modify (fun s => set_m_csvData (readToList dialog (device (m_tempFile s))) s)
        else ret tt) ;;
       (* Update UI *)
       fname <- gets (fun s => fileName (m_file s)) ;;
       tname <- gets (fun s => fileName (m_tempFile s)) ;;
       printLn ("[INFO]" +s QString.tab +s "Loaded simulation CSV file from " +s fname) ;;
       printLn ("[INFO]" +s QString.tab +s "Processed simulation CSV saved at " +s tname)
     else
       (* Open failure, alert user through a messagebox *)
       err <- gets (fun s => errorString (m_file s)) ;;
       showMessageBox "File open error" err) ;;
    (* Update UI *)
    emit csvFileNameChanged.

(** ** Constructor *)

Definition closedFile : QFile := mkQFile false "" "" [].

Definition ControlPanel (now : QDateTime) (o : Os) : State :=
  {| m_row := 0;
     m_file := closedFile;
     m_tempFile := closedFile;
     m_currentTime := "";
     m_dataBuffer := [];
     m_csvData := [];
     m_payloadCsv := closedFile;
     m_containerCsv := closedFile;
     m_simulationEnabled := false;
     m_simulationActivated := false;
     m_containerTelemetryEnabled := false;
     socketConnected := false;
     timers := [];
     trace := [];
     io := [];
     currentDateTime := now;
     os := o |}.

(** ** The event loop *)

(** Calls of the public slots. *)
Inductive Call :=
| Call_openCsv (dialog : CsvDialog)
| Call_updateContainerTime
| Call_setSimulationMode (enabled : bool)
| Call_setSimulationActivated (activated : bool)
| Call_setContainerTelemetryEnabled (enabled : bool).

(** What the environment does: signals of the plugin and of the timer
    module, expiry of the [n]-th pending single-shot timer, socket state
    changes, the clock, and the outcomes the system holds for the coming
    system calls. *)
Inductive Event :=
| Plugin_dataReceived (data : QByteArray.t)
| TimerEvents_timeout20Hz
| SingleShot_timeout (n : nat)
| Socket_connected
| Socket_disconnected
| Clock (now : QDateTime)
| FileSystem (outcomes : list (option QString.t)).

Inductive Action :=
| Invoke (c : Call)
| Occur (e : Event).

Definition runSlot (slot : Slot) : M unit :=
  match slot with
  | SLOT_sendSimulatedData => sendSimulatedData
  end.

(** Removes the [n]-th element. *)
Fixpoint drop_nth {A : Type} (n : nat) (l : list A) : list A :=
  match n, l with
  | _, [] => []
  | O, _ :: l' => l'
  | S n', x :: l' => x :: drop_nth n' l'
  end.

Definition invoke (c : Call) : M unit :=
  match c with
  | Call_openCsv dialog => openCsv dialog
  | Call_updateContainerTime => updateContainerTime
  | Call_setSimulationMode enabled => setSimulationMode enabled
  | Call_setSimulationActivated activated => setSimulationActivated activated
  | Call_setContainerTelemetryEnabled enabled => setContainerTelemetryEnabled enabled
  end.

Definition handle (e : Event) : M unit :=
  match e with
  | Plugin_dataReceived data => onDataReceived data
  | TimerEvents_timeout20Hz => updateCurrentTime
  | SingleShot_timeout n =>
      pending <- gets timers ;;
      match nth_error pending n with
      | Some (_, slot) =>
          modify (set_timers (drop_nth n pending)) ;;
          runSlot slot
      | None => ret tt
      end
  | Socket_connected => modify (set_socketConnected true)
  | Socket_disconnected => modify (set_socketConnected false)
  | Clock now => modify (set_currentDateTime now)
  | FileSystem outcomes => modify (set_io outcomes)
  end.

Definition step (a : Action) (s : State) : State :=
  match a with
  | Invoke c => exec (invoke c) s
  | Occur e => exec (handle e) s
  end.

Definition run (acts : list Action) (s : State) : State :=
  fold_left (fun s a => step a s) acts s.

(** States the object can be in. *)
Inductive reachable : State -> Prop :=
| reachable_init now o : reachable (ControlPanel now o)
| reachable_step a s : reachable s -> reachable (step a s).

(** ** The buttons of the QML page *)

Inductive Button :=
| openSimulationCsv (dialog : CsvDialog)
| simModeEnabled
| activateSimMode
| telemetryEnabled
| updateTime.

(** The [enabled:] binding of a button. *)
Definition Button_enabled (b : Button) (s : State) : bool :=
  match b with
  | openSimulationCsv _ => true
  | simModeEnabled => socketConnected s
  | activateSimMode =>
      m_simulationEnabled s && socketConnected s && isOpen (m_file s)
  | telemetryEnabled => socketConnected s
  | updateTime => socketConnected s
  end.

(** The call that the [onClicked:] handler of a button makes. *)
Definition Button_onClicked (b : Button) (s : State) : Call :=
  match b with
  | openSimulationCsv dialog => Call_openCsv dialog
  | simModeEnabled =>
      Call_setSimulationMode (negb (fst (simulationEnabled s)))
  | activateSimMode =>
      Call_setSimulationActivated (negb (fst (simulationActivated s)))
  | telemetryEnabled =>
      Call_setContainerTelemetryEnabled (negb (fst (containerTelemetryEnabled s)))
  | updateTime => Call_updateContainerTime
  end.

(** What the operator and the environment do to the running application.
    A click runs the handler whatever the [enabled:] binding shows: the
    binding follows [connectedChanged], which the plugin emits 500 ms after
    the socket changed state. *)
Inductive UiEvent :=
| Click (b : Button)
| Env (e : Event).

Definition ui_action (u : UiEvent) (s : State) : Action :=
  match u with
  | Click b => Invoke (Button_onClicked b s)
  | Env e => Occur e
  end.

Definition ui_step (u : UiEvent) (s : State) : State := step (ui_action u s) s.

Definition ui_run (us : list UiEvent) (s : State) : State :=
  fold_left (fun s u => ui_step u s) us s.

(** ** Observations that the statements use *)

(** The frames that the loop of [onDataReceived] hands to [processFrame],
    in order, and the final [bytes]: the loop without its effects. *)
Fixpoint scanFrames (fuel : nat) (cursor : QByteArray.t) (bytes : Z)
    : list QByteArray.t * Z :=
  match fuel with
  | O => ([], bytes)
  | S fuel' =>
      if QByteArray.contains cursor start && QByteArray.contains cursor finish
      then
        let sIndex := QByteArray.indexOf cursor start in
        let cursor := QByteArray.mid cursor (sIndex + QByteArray.size start) (-1) in
        let bytes := bytes + (sIndex + QByteArray.size start) in
        let fIndex := QByteArray.indexOf cursor finish in
        let frame := QByteArray.left cursor fIndex in
        let cursor := QByteArray.mid cursor fIndex (-1) in
        let bytes := bytes + (fIndex + QByteArray.size finish) in
        let (frames, bytes) := scanFrames fuel' cursor bytes in
        (frame :: frames, bytes)
      else ([], bytes)
  end.

(** What is left of the accumulated buffer once the parsed bytes are
    removed, before the size check. *)
Definition unconsumed (buffer data : QByteArray.t) : QByteArray.t :=
  let all := QByteArray.append buffer data in
  QByteArray.remove all 0 (snd (scanFrames (S (List.length all)) all 0)).

(** One receive event on the buffer alone: the frames handed to
    [processFrame] and the buffer that is kept. *)
Definition reassemble (buffer data : QByteArray.t)
    : list QByteArray.t * QByteArray.t :=
  let all := QByteArray.append buffer data in
  let rest := unconsumed buffer data in
  (fst (scanFrames (S (List.length all)) all 0),
   if 1024 * 10 * 10 <? QByteArray.size rest then [] else rest).

(** Successive receive events, one per chunk. *)
Fixpoint deliver (chunks : list QByteArray.t) (buffer : QByteArray.t)
    : list QByteArray.t * QByteArray.t :=
  match chunks with
  | [] => ([], buffer)
  | data :: chunks' =>
      let (frames, buffer) := reassemble buffer data in
      let (frames', buffer) := deliver chunks' buffer in
      (frames ++ frames', buffer)
  end.

Definition processFrames (frames : list QByteArray.t) (s : State) : State :=
  fold_left (fun s frame => exec (processFrame frame) s) frames s.

Definition receive (chunks : list QByteArray.t) : list Action :=
  map (fun data => Occur (Plugin_dataReceived data)) chunks.

(** The log that [processFrame] picks for a frame, by its tag. *)
Definition logOf (frame : QByteArray.t) : option FileRef :=
  if QByteArray.startsWith frame (QByteArray.toUtf8 "6026") then
    Some file_m_payloadCsv
  else if QByteArray.startsWith frame (QByteArray.toUtf8 "1026") then
    Some file_m_containerCsv
  else None.

(** The frame has a known tag, its log is closed and the system refuses to
    open it. *)
Definition openFails (frame : QByteArray.t) (s : State) : bool :=
  match logOf frame with
  | Some csv =>
      negb (isOpen (get csv s))
      && match hd None (io s) with Some _ => true | None => false end
  | None => false
  end.

(** The console line of a received frame. *)
Definition rxLine (frame : QByteArray.t) : Effect :=
  PrintLn ("  [RX]" +s QString.tab +s QByteArray.fromUtf8 frame).

(** The console line of a sent command. *)
Definition txLine (data : QString.t) : Effect :=
  PrintLn ("  [TX]" +s QString.tab +s data).

(** The console lines of simulated rows sent so far. *)
Definition isRowLine (e : Effect) : bool :=
  match e with
  | PrintLn line =>
      QString.startsWith line ("  [TX]" +s QString.tab +s "CMD,1026,SIMP,")
  | _ => false
  end.

Definition rowsSent (s : State) : list Effect := filter isRowLine (trace s).

(** The operator activates the feeder from the deactivated state somewhere
    in the run: a click on the activation button while
    [simulationActivated()] is false. *)
Fixpoint reactivated (us : list UiEvent) (s : State) : bool :=
  match us with
  | [] => false
  | u :: us' =>
      match u with
      | Click activateSimMode => negb (fst (simulationActivated s))
      | _ => false
      end
      || reactivated us' (ui_step u s)
  end.

(** No system call of the state fails. *)
Definition noFailure (s : State) : Prop := Forall (fun r => r = None) (io s).

(** ** States and inputs of the examples *)

Definition bytes (s : QString.t) : QByteArray.t := QByteArray.toUtf8 s.

Definition now0 : QDateTime := mkQDateTime "2022" "Jun" "11" "10" "20" "30" "000".
Definition os0 : Os := mkOs "/home/operator" "/tmp" "CC2022".
Definition init : State := ControlPanel now0 os0.

(** A pressure file of two rows, as the dialog and the reader give it. *)
Definition pressureCsv : CsvDialog :=
  mkCsvDialog "/home/operator/flight.csv" ["#pressure"; "101325"; "101300"]
    (fun _ => [["101325"]; ["101300"]]).

(** A file of comments only: the reader finds no row. *)
Definition emptyCsv : CsvDialog :=
  mkCsvDialog "/home/operator/empty.csv" ["#pressure"] (fun _ => []).

(** ** Reasoning about handlers *)

(** [m] keeps [P]. *)
Definition preserves {A : Type} (P : State -> Prop) (m : M A) : Prop :=
  forall s, P s -> P (snd (m s)).

(** [m] acts alike on [R]-related states. *)
Definition respects {A : Type} (R : State -> State -> Prop) (m : M A) : Prop :=
  forall s t, R s t -> fst (m s) = fst (m t) /\ R (snd (m s)) (snd (m t)).

(** The state with another receive buffer. *)
Definition rebuffered (b : QByteArray.t) (s t : State) : Prop :=
  t = set_m_dataBuffer b s.

(** The activated flag is set only with the enabled flag. *)
Definition activeOnlyEnabled (s : State) : Prop :=
  m_simulationActivated s = true -> m_simulationEnabled s = true.

(** No single-shot timer is pending and the rows sent so far are [rows]. *)
Definition idle (rows : list Effect) (s : State) : Prop :=
  timers s = [] /\ rowsSent s = rows.

(** The path that [createCsv] gives the new file. *)
Definition csvPath (createContainerCsv : bool) (s : State) : QString.t :=
  homePath (os s) +s "/Documents/" +s applicationName (os s) +s "/"
  +s toString_yyyy_MMM_dd (currentDateTime s)
  +s ((if createContainerCsv then "Container" else "Payload")
      +s "_" +s toString_HH_mm_ss (currentDateTime s) +s ".csv").

(** The console line of [createCsv]. *)
Definition creatingLine (createContainerCsv : bool) (s : State) : Effect :=
  PrintLn ("[INFO]" +s QString.tab +s "Creating new CSV file at "
           +s csvPath createContainerCsv s).

(** What [processFrame] adds to the trace for a frame that is not empty. *)
Definition processFrame_effects (frame : QByteArray.t) (s : State) : list Effect :=
  if QByteArray.startsWith frame (QByteArray.toUtf8 "6026") then
    if isOpen (m_payloadCsv s) then [rxLine frame]
    else match hd None (io s) with
         | None => [creatingLine false s; rxLine frame]
         | Some e =>
             [creatingLine false s;
              ShowMessageBox "Error while creating payload CSV" e]
         end
  else if QByteArray.startsWith frame (QByteArray.toUtf8 "1026") then
    if isOpen (m_containerCsv s) then [rxLine frame]
    else match hd None (io s) with
         | None => [creatingLine true s; rxLine frame]
         | Some e =>
             [creatingLine true s;
              ShowMessageBox "Error while creating container CSV" e]
         end
  else [rxLine frame].

(** The state after a command went out: the console line, the frame on the
    socket, and one system call used up. *)
Definition sent (data : QString.t) (s : State) : State :=
  set_io (tl (io s))
    (set_trace
       ((trace s ++ [txLine data]) ++ [SocketWrite (sendData_apiFrame data)]) s).

(** The two flags of the feeder. *)
Definition flags (s : State) : bool * bool :=
  (m_simulationEnabled s, m_simulationActivated s).

(** The row under the cursor is a row of the dataset. *)
Definition rowInRange (s : State) : bool :=
  (m_row s <? Z.of_nat (List.length (m_csvData s))) && (0 <=? m_row s).

(** The frames handed to the socket so far. *)
Definition isSocketWrite (e : Effect) : bool :=
  match e with SocketWrite _ => true | _ => false end.

Definition socketWrites (s : State) : list Effect := filter isSocketWrite (trace s).

(** The transport is down and the frames handed to the socket so far are
    [writes]. *)
Definition offline (writes : list Effect) (s : State) : Prop :=
  socketConnected s = false /\ socketWrites s = writes.

(** What the session wrote to a log so far: [createCsv] opens the file of
    a log anew, and a log that was not opened holds nothing of the
    session. *)
Definition logged (f : QFile) : QByteArray.t :=
  if isOpen f then device f else [].

(** The lines that the frames with the given tag make in a log. *)
Definition logLines (tag : QString.t) (frames : list QByteArray.t) : QByteArray.t :=
  List.concat
    (map (fun frame => frame ++ QByteArray.toUtf8 QString.newline)
       (filter (fun frame => QByteArray.startsWith frame (QByteArray.toUtf8 tag))
          frames)).

(** The command that [sendSimulatedData] makes of a row. *)
Definition rowCommand (row : list QString.t) : QString.t :=
  "CMD,1026,SIMP," +s first row +s ";".

(** What the console and the socket get of a row. *)
Definition rowEffects (row : list QString.t) : list Effect :=
  [txLine (rowCommand row); SocketWrite (sendData_apiFrame (rowCommand row))].

(** The expiry of the oldest pending timer, [n] times over. *)
Definition ticks (n : nat) : list Action := repeat (Occur (SingleShot_timeout 0)) n.

(** The frame on the socket is that of a command of the ground station,
    [CMD,1026,<body>;]. *)
Definition commandFrame (e : Effect) : Prop :=
  match e with
  | SocketWrite apiFrame =>
      exists body, apiFrame = sendData_apiFrame ("CMD,1026," +s body +s ";")
  | _ => True
  end.

Definition commandsOnly (s : State) : Prop := Forall commandFrame (trace s).

End ControlPanel.

(* ===================================================================== *)
(** * SerialStudio::Communicator, the older encoder *)
(* ===================================================================== *)

Module Communicator.

Inductive Effect :=
| SocketWrite (data : QByteArray.t)
| Rx (sentData : QByteArray.t).

(** The socket of the communicator: its state, what its coming [write]
    calls return (the byte count, everything once the list is used up), and
    what the object did. *)
Record State := mkState {
  socketConnected : bool;
  accepts : list Z;
  trace : list Effect
}.

Definition connectedToSerialStudio (s : State) : bool := socketConnected s.

(** The XBee API frame that [sendData] builds for [data]. *)
Definition sendData_apiFrame (data : QString.t) : QByteArray.t :=
  (* Define Xbee 64-bit address *)
  let address64bit := [x7d; x33; xa2; x00; x41; xb1; x8c; x8d] in
  (* Define Xbee 16-bit address *)
  let address16bit := [xff; xfe] in
  (* Begin constructing Xbee API frame *)
  let frame := [x10] ++ [x00] ++ [x00] ++ address64bit ++ address16bit
               ++ [x00] ++ [x00] in
  (* Add data to frame *)
  let frame := frame ++ QByteArray.toUtf8 data in
  (* Calculate sum *)
  let sum := fold_left (fun sum c => Int.int (sum + Int.of_char c)) frame 0 in
  (* Calculate checksum *)
  let crc := Int.quint8 (0xFF - Z.land sum 0xFF) in
  (* Calculate frame length *)
  let length := Int.quint16 (QByteArray.size frame) in
  (* Generate full frame *)
  [x7e]
  ++ [Int.to_char (Z.land (Int.quint8 (Z.shiftr (length - 6) 8)) 0xff)]
  ++ [Int.to_char (Z.land (Int.quint8 (Z.shiftr (length - 6) 0)) 0xff)]
  ++ frame
  ++ [Int.to_char crc].

Definition sendData (data : QString.t) (s : State) : bool * State :=
  (* Data is empty, abort *)
  if QString.isEmpty data then (false, s)
  (* We are not connected to Serial Studio, abort transmission *)
  else if negb (connectedToSerialStudio s) then (false, s)
  else
    let apiFrame := sendData_apiFrame data in
    (* Send data to Serial Studio *)
    let bytes := match accepts s with
                 | [] => QByteArray.size apiFrame
                 | n :: _ => n
                 end in
    (* Update UI *)
    let sentData := QByteArray.chop apiFrame (QByteArray.size apiFrame - bytes) in
    (* Return operation status *)
    (bytes =? QByteArray.size apiFrame,
     mkState (socketConnected s) (tl (accepts s))
       (trace s ++ [SocketWrite apiFrame; Rx sentData])).

End Communicator.

(* ===================================================================== *)
(** * Properties *)
(* ===================================================================== *)

(** ** Bytes and fixed-width arithmetic *)

Lemma of_char_range (b : byte) : 0 <= Int.of_char b < 256.
Proof.
  unfold Int.of_char. pose proof (Byte.to_N_bounded b). lia.
Qed.

Lemma of_to_char (z : Z) : Int.of_char (Int.to_char z) = z mod 256.
Proof.
  unfold Int.of_char, Int.to_char.
  assert (Hr : 0 <= z mod 256 < 256) by (apply Z.mod_pos_bound; lia).
  destruct (Byte.of_N (Z.to_N (z mod 256))) as [b|] eqn:E.
  - apply Byte.to_of_N in E. rewrite E. apply Z2N.id. lia.
  - apply Byte.of_N_None_iff in E. lia.
Qed.

Lemma land_0xFF (z : Z) : Z.land z 0xFF = z mod 256.
Proof. exact (Z.land_ones z 8 ltac:(lia)). Qed.

Lemma mod_65536_256 (z : Z) : (z mod 65536) mod 256 = z mod 256.
Proof. apply Z.mod_mod_divide. exists 256. reflexivity. Qed.

Lemma int_mod_256 (z : Z) : Int.int z mod 256 = z mod 256.
Proof.
  unfold Int.int.
  pose proof (Z.div_mod (z + 2147483648) 4294967296 ltac:(lia)) as E.
  set (q := (z + 2147483648) / 4294967296) in *.
  replace ((z + 2147483648) mod 4294967296 - 2147483648)
    with (z + (- (16777216 * q)) * 256) by lia.
  apply Z_mod_plus_full.
Qed.

(** A byte read big-endian after its high byte: the two bytes that the
    encoders derive from a length give the length modulo 65536. *)
Lemma big_endian_16 (n : Z) :
  256 * (Z.land (Int.quint8 (Z.shiftr n 8)) 0xff mod 256)
  + Z.land (Int.quint8 (Z.shiftr n 0)) 0xff mod 256
  = n mod 65536.
Proof.
  unfold Int.quint8. change 0xff with 0xFF. rewrite !land_0xFF.
  rewrite Z.shiftr_0_r, Z.shiftr_div_pow2 by lia.
  change (2 ^ 8) with 256. rewrite !Z.mod_mod by lia.
  change 65536 with (256 * 256). rewrite Z.rem_mul_r by lia. lia.
Qed.

Lemma sum_bytes_app (a b : QByteArray.t) :
  XBee.sum_bytes (a ++ b) = XBee.sum_bytes a + XBee.sum_bytes b.
Proof.
  induction a as [|c a IH]; simpl; [reflexivity|].
  unfold XBee.sum_bytes in *. simpl. rewrite IH. lia.
Qed.

(** The [quint16] accumulator of [ControlPanel::sendData]. *)
Lemma sum_quint16 (a : QByteArray.t) (acc : Z) :
  fold_left (fun sum c => Int.quint16 (sum + Int.of_char c)) a (acc mod 65536)
  = (acc + XBee.sum_bytes a) mod 65536.
Proof.
  revert acc. induction a as [|c a IH]; intros acc; simpl.
  - f_equal. lia.
  - unfold Int.quint16 at 2. rewrite Zplus_mod_idemp_l, IH.
    f_equal. unfold XBee.sum_bytes. simpl. lia.
Qed.

(** The [int] accumulator of [Communicator::sendData], up to its low
    byte. *)
Lemma sum_int (a : QByteArray.t) (acc : Z) :
  fold_left (fun sum c => Int.int (sum + Int.of_char c)) a acc mod 256
  = (acc + XBee.sum_bytes a) mod 256.
Proof.
  revert acc. induction a as [|c a IH]; intros acc; simpl.
  - f_equal. lia.
  - rewrite IH. rewrite Zplus_mod, int_mod_256, <- Zplus_mod.
    f_equal. unfold XBee.sum_bytes. simpl. lia.
Qed.

Lemma removelast_snoc (a : QByteArray.t) (c : byte) : removelast (a ++ [c]) = a.
Proof. apply removelast_last. Qed.

Lemma last_snoc (a : QByteArray.t) (c d : byte) : last (a ++ [c]) d = c.
Proof. apply last_last. Qed.

(** ** Frame encoder *)

Arguments ControlPanel.sendData_apiFrame : simpl never.
Arguments Communicator.sendData_apiFrame : simpl never.

(** A non-empty command on a connected transport: the console line, then
    the frame handed to the socket. *)
Lemma sendData_connected (data : QString.t) (s : ControlPanel.State) :
  QString.isEmpty data = false ->
  ControlPanel.socketConnected s = true ->
  ControlPanel.sendData data s
  = (match hd None (ControlPanel.io s) with None => true | Some _ => false end,
     ControlPanel.set_io (tl (ControlPanel.io s))
       (ControlPanel.set_trace
          ((ControlPanel.trace s ++ [ControlPanel.txLine data])
           ++ [ControlPanel.SocketWrite (ControlPanel.sendData_apiFrame data)])
          s)).
Proof.
  intros Hdata Hconn. unfold ControlPanel.sendData. rewrite Hdata.
  unfold ControlPanel.bind, ControlPanel.Plugin_isConnected, ControlPanel.gets.
  rewrite Hconn. reflexivity.
Qed.

Lemma sendData_not_connected (data : QString.t) (s : ControlPanel.State) :
  ControlPanel.socketConnected s = false ->
  ControlPanel.sendData data s = (false, s).
Proof.
  intros Hconn. unfold ControlPanel.sendData.
  destruct (QString.isEmpty data); [reflexivity|].
  unfold ControlPanel.bind, ControlPanel.Plugin_isConnected, ControlPanel.gets.
  rewrite Hconn. reflexivity.
Qed.

Lemma ControlPanel_apiFrame_eq (data : QString.t) :
  ControlPanel.sendData_apiFrame data
  = [x7e]
    ++ [Int.to_char (Z.land (Int.quint8 (Z.shiftr
          (Int.quint16 (QByteArray.size (XBee.plainHeader ++ QByteArray.toUtf8 data) - 1)) 8)) 0xff)]
    ++ [Int.to_char (Z.land (Int.quint8 (Z.shiftr
          (Int.quint16 (QByteArray.size (XBee.plainHeader ++ QByteArray.toUtf8 data) - 1)) 0)) 0xff)]
    ++ (XBee.sentHeader ++ QByteArray.toUtf8 data)
    ++ [Int.to_char
          (0xFF - XBee.sum_bytes (XBee.plainHeader ++ QByteArray.toUtf8 data) mod 256)].
Proof.
  unfold ControlPanel.sendData_apiFrame. cbv zeta.
  change ([x10] ++ [x00] ++ [x00] ++ [x00; x13; xa2; x00; x41; xb1; x8c; x8d]
          ++ [xff; xfe] ++ [x00] ++ [x00]) with XBee.plainHeader.
  change (fold_left _ (XBee.plainHeader ++ QByteArray.toUtf8 data) 0)
    with (fold_left (fun sum c => Int.quint16 (sum + Int.of_char c))
            (XBee.plainHeader ++ QByteArray.toUtf8 data) (0 mod 65536)).
  rewrite sum_quint16.
  rewrite (land_0xFF ((0 + XBee.sum_bytes (XBee.plainHeader ++ QByteArray.toUtf8 data))
                      mod 65536)), mod_65536_256.
  cbn [Z.add].
  change (QByteArray.replace (XBee.plainHeader ++ QByteArray.toUtf8 data) 3 2 [x7d; x33])
    with (XBee.sentHeader ++ QByteArray.toUtf8 data).
  replace (Int.quint8 (255 - XBee.sum_bytes (XBee.plainHeader ++ QByteArray.toUtf8 data) mod 256))
    with (255 - XBee.sum_bytes (XBee.plainHeader ++ QByteArray.toUtf8 data) mod 256).
  - reflexivity.
  - unfold Int.quint8. symmetry. apply Z.mod_small.
    pose proof (Z.mod_pos_bound
      (XBee.sum_bytes (XBee.plainHeader ++ QByteArray.toUtf8 data)) 256 ltac:(lia)).
    lia.
Qed.

Lemma Communicator_apiFrame_eq (data : QString.t) :
  Communicator.sendData_apiFrame data
  = [x7e]
    ++ [Int.to_char (Z.land (Int.quint8 (Z.shiftr
          (Int.quint16 (QByteArray.size (XBee.sentHeader ++ QByteArray.toUtf8 data)) - 6) 8)) 0xff)]
    ++ [Int.to_char (Z.land (Int.quint8 (Z.shiftr
          (Int.quint16 (QByteArray.size (XBee.sentHeader ++ QByteArray.toUtf8 data)) - 6) 0)) 0xff)]
    ++ (XBee.sentHeader ++ QByteArray.toUtf8 data)
    ++ [Int.to_char
          (0xFF - XBee.sum_bytes (XBee.sentHeader ++ QByteArray.toUtf8 data) mod 256)].
Proof.
  unfold Communicator.sendData_apiFrame. cbv zeta.
  change ([x10] ++ [x00] ++ [x00] ++ [x7d; x33; xa2; x00; x41; xb1; x8c; x8d]
          ++ [xff; xfe] ++ [x00] ++ [x00]) with XBee.sentHeader.
  rewrite (land_0xFF (fold_left _ _ _)), sum_int. cbn [Z.add].
  replace (Int.quint8 (255 - XBee.sum_bytes (XBee.sentHeader ++ QByteArray.toUtf8 data) mod 256))
    with (255 - XBee.sum_bytes (XBee.sentHeader ++ QByteArray.toUtf8 data) mod 256).
  - reflexivity.
  - unfold Int.quint8. symmetry. apply Z.mod_small.
    pose proof (Z.mod_pos_bound
      (XBee.sum_bytes (XBee.sentHeader ++ QByteArray.toUtf8 data)) 256 ltac:(lia)).
    lia.
Qed.

Lemma ControlPanel_payload (data : QString.t) :
  XBee.payload (ControlPanel.sendData_apiFrame data)
  = XBee.sentHeader ++ QByteArray.toUtf8 data.
Proof.
  rewrite ControlPanel_apiFrame_eq. unfold XBee.payload.
  cbn [app skipn]. apply removelast_snoc.
Qed.

Lemma Communicator_payload (data : QString.t) :
  XBee.payload (Communicator.sendData_apiFrame data)
  = XBee.sentHeader ++ QByteArray.toUtf8 data.
Proof.
  rewrite Communicator_apiFrame_eq. unfold XBee.payload.
  cbn [app skipn]. apply removelast_snoc.
Qed.

Lemma checksum_snoc (a : QByteArray.t) (total : Z) :
  XBee.checksum (a ++ [Int.to_char (0xFF - total mod 256)])
  = 0xFF - total mod 256.
Proof.
  unfold XBee.checksum. rewrite last_snoc, of_to_char.
  apply Z.mod_small.
  pose proof (Z.mod_pos_bound total 256 ltac:(lia)). lia.
Qed.

Lemma ControlPanel_checksum (data : QString.t) :
  XBee.checksum (ControlPanel.sendData_apiFrame data)
  = 0xFF - XBee.sum_bytes (XBee.plainHeader ++ QByteArray.toUtf8 data) mod 256.
Proof.
  rewrite ControlPanel_apiFrame_eq.
  rewrite !app_assoc. apply checksum_snoc.
Qed.

Lemma Communicator_checksum (data : QString.t) :
  XBee.checksum (Communicator.sendData_apiFrame data)
  = 0xFF - XBee.sum_bytes (XBee.sentHeader ++ QByteArray.toUtf8 data) mod 256.
Proof.
  rewrite Communicator_apiFrame_eq.
  rewrite !app_assoc. apply checksum_snoc.
Qed.

Lemma ControlPanel_length_field (data : QString.t) :
  XBee.length_field (ControlPanel.sendData_apiFrame data)
  = (QByteArray.size (XBee.plainHeader ++ QByteArray.toUtf8 data) - 1) mod 65536.
Proof.
  rewrite ControlPanel_apiFrame_eq. unfold XBee.length_field.
  cbn [app nth]. rewrite !of_to_char, big_endian_16.
  unfold Int.quint16. apply Z.mod_mod. lia.
Qed.

Lemma Communicator_length_field (data : QString.t) :
  XBee.length_field (Communicator.sendData_apiFrame data)
  = (QByteArray.size (XBee.sentHeader ++ QByteArray.toUtf8 data) - 6) mod 65536.
Proof.
  rewrite Communicator_apiFrame_eq. unfold XBee.length_field.
  cbn [app nth]. rewrite !of_to_char, big_endian_16.
  unfold Int.quint16. apply Zminus_mod_idemp_l.
Qed.

Lemma size_header_app (header data : QByteArray.t) :
  QByteArray.size (header ++ data)
  = QByteArray.size header + QByteArray.size data.
Proof. unfold QByteArray.size. rewrite length_app. lia. Qed.

Lemma Communicator_sendData_connected (data : QString.t) (c : Communicator.State) :
  QString.isEmpty data = false ->
  Communicator.socketConnected c = true ->
  exists sentData,
    Communicator.trace (snd (Communicator.sendData data c))
    = Communicator.trace c
      ++ [Communicator.SocketWrite (Communicator.sendData_apiFrame data);
          Communicator.Rx sentData].
Proof.
  intros Hdata Hconn. unfold Communicator.sendData.
  unfold Communicator.connectedToSerialStudio. rewrite Hdata, Hconn.
  cbn [negb snd Communicator.trace]. eexists. reflexivity.
Qed.

(** C1 fails as stated: for the command [A] the checksum byte of the frame
    that [ControlPanel::sendData] hands to the socket is not [0xFF] minus
    the sum modulo 256 of the payload bytes placed in that frame. *)
Lemma sendData_checksum_counterexample :
  let s := ControlPanel.set_socketConnected true ControlPanel.init in
  let f := ControlPanel.sendData_apiFrame "A" in
  QString.isEmpty "A" = false
  /\ ControlPanel.trace (ControlPanel.exec (ControlPanel.sendData "A") s)
     = [ControlPanel.txLine "A"; ControlPanel.SocketWrite f]
  /\ XBee.checksum f = 241
  /\ 0xFF - XBee.sum_bytes (XBee.payload f) mod 256 = 84.
Proof. vm_compute. repeat split. Qed.

(** C1, as amended: for every non-empty command on a connected transport,
    [ControlPanel::sendData] hands the socket a frame whose checksum byte is
    [0xFF] minus the sum modulo 256 of the payload as it was before the
    first two address bytes were replaced (address bytes 00 13, where the
    frame carries 7D 33); the frame of the older [Communicator::sendData]
    has the checksum of the payload bytes it carries. *)
Theorem sendData_checksum (data : QString.t)
    (s : ControlPanel.State) (c : Communicator.State) :
  QString.isEmpty data = false ->
  ControlPanel.socketConnected s = true ->
  Communicator.socketConnected c = true ->
  let f := ControlPanel.sendData_apiFrame data in
  let g := Communicator.sendData_apiFrame data in
  (ControlPanel.trace (ControlPanel.exec (ControlPanel.sendData data) s)
   = ControlPanel.trace s
     ++ [ControlPanel.txLine data; ControlPanel.SocketWrite f]
   /\ XBee.payload f = XBee.sentHeader ++ QByteArray.toUtf8 data
   /\ XBee.checksum f
      = 0xFF - XBee.sum_bytes (XBee.plainHeader ++ QByteArray.toUtf8 data) mod 256)
  /\
  ((exists sentData,
      Communicator.trace (snd (Communicator.sendData data c))
      = Communicator.trace c
        ++ [Communicator.SocketWrite g; Communicator.Rx sentData])
   /\ XBee.payload g = XBee.sentHeader ++ QByteArray.toUtf8 data
   /\ XBee.checksum g = 0xFF - XBee.sum_bytes (XBee.payload g) mod 256).
Proof.
  intros Hdata Hs Hc f g. split; [split; [|split]|split; [|split]].
  - unfold ControlPanel.exec. rewrite sendData_connected by assumption.
    cbn [snd ControlPanel.trace ControlPanel.set_io ControlPanel.set_trace].
    rewrite <- app_assoc. reflexivity.
  - apply ControlPanel_payload.
  - apply ControlPanel_checksum.
  - apply Communicator_sendData_connected; assumption.
  - apply Communicator_payload.
  - subst g. rewrite Communicator_payload. apply Communicator_checksum.
Qed.

Lemma sendData_checksum_witness :
  QString.isEmpty "CMD,1026,CX,ON;" = false
  /\ XBee.checksum (ControlPanel.sendData_apiFrame "CMD,1026,CX,ON;")
     = 0xFF - XBee.sum_bytes
                (XBee.plainHeader ++ QByteArray.toUtf8 "CMD,1026,CX,ON;") mod 256.
Proof.
  split; [reflexivity|].
  apply (sendData_checksum "CMD,1026,CX,ON;"
           (ControlPanel.set_socketConnected true ControlPanel.init)
           (Communicator.mkState true [] []));
    reflexivity.
Defined.

(** C3 fails as stated: for the command [A] the length field of the frame
    of [ControlPanel::sendData] reads 15 while the payload between the
    length field and the checksum byte has 16 bytes; the older encoder
    writes 10 in front of the same 16 bytes. *)
Lemma sendData_length_counterexample :
  let f := ControlPanel.sendData_apiFrame "A" in
  let g := Communicator.sendData_apiFrame "A" in
  QString.isEmpty "A" = false
  /\ XBee.delimiter f = x7e
  /\ XBee.length_field f = 15 /\ QByteArray.size (XBee.payload f) = 16
  /\ XBee.length_field g = 10 /\ QByteArray.size (XBee.payload g) = 16.
Proof. vm_compute. repeat split. Qed.

(** C3, as amended: for every non-empty command on a connected transport
    the frame handed to the socket starts with 0x7E, and the two bytes after
    it, read big-endian, are the byte length of the payload minus one,
    modulo 65536; in the frame of the older [Communicator::sendData] they
    are the byte length of the payload minus six, modulo 65536.  The
    payload has 15 bytes more than the command. *)
Theorem sendData_length_field (data : QString.t) (s : ControlPanel.State) :
  QString.isEmpty data = false ->
  ControlPanel.socketConnected s = true ->
  let f := ControlPanel.sendData_apiFrame data in
  let g := Communicator.sendData_apiFrame data in
  ControlPanel.trace (ControlPanel.exec (ControlPanel.sendData data) s)
  = ControlPanel.trace s
    ++ [ControlPanel.txLine data; ControlPanel.SocketWrite f]
  /\ XBee.delimiter f = x7e
  /\ XBee.length_field f = (QByteArray.size (XBee.payload f) - 1) mod 65536
  /\ QByteArray.size (XBee.payload f) = 15 + QByteArray.size (QByteArray.toUtf8 data)
  /\ XBee.delimiter g = x7e
  /\ XBee.length_field g = (QByteArray.size (XBee.payload g) - 6) mod 65536
  /\ QByteArray.size (XBee.payload g) = 15 + QByteArray.size (QByteArray.toUtf8 data).
Proof.
  intros Hdata Hs f g. subst f g.
  rewrite ControlPanel_payload, Communicator_payload.
  split; [|split; [|split; [|split; [|split; [|split]]]]].
  - unfold ControlPanel.exec. rewrite sendData_connected by assumption.
    cbn [snd ControlPanel.trace ControlPanel.set_io ControlPanel.set_trace].
    rewrite <- app_assoc. reflexivity.
  - rewrite ControlPanel_apiFrame_eq. reflexivity.
  - rewrite ControlPanel_length_field, !size_header_app. reflexivity.
  - apply size_header_app.
  - rewrite Communicator_apiFrame_eq. reflexivity.
  - rewrite Communicator_length_field, !size_header_app. reflexivity.
  - apply size_header_app.
Qed.

Lemma sendData_length_field_witness :
  QString.isEmpty "CMD,1026,CX,ON;" = false
  /\ XBee.length_field (ControlPanel.sendData_apiFrame "CMD,1026,CX,ON;")
     = (QByteArray.size
          (XBee.payload (ControlPanel.sendData_apiFrame "CMD,1026,CX,ON;")) - 1)
       mod 65536.
Proof.
  split; [reflexivity|].
  apply (sendData_length_field "CMD,1026,CX,ON;"
           (ControlPanel.set_socketConnected true ControlPanel.init));
    reflexivity.
Defined.

(** ** Reasoning about handlers *)

Import ControlPanel.
Local Open Scope monad_scope.

Section Handlers.

Context {A B : Type} (P : State -> Prop) (R : State -> State -> Prop).

Lemma preserves_ret (a : A) : preserves P (ret a).
Proof. intros s H. exact H. Qed.

Lemma preserves_bind (m : M A) (k : A -> M B) :
  preserves P m -> (forall a, preserves P (k a)) -> preserves P (bind m k).
Proof.
  intros Hm Hk s H. unfold bind. specialize (Hm s H).
  destruct (m s) as [a s']. apply Hk, Hm.
Qed.

Lemma preserves_gets (f : State -> A) : preserves P (gets f).
Proof. intros s H. exact H. Qed.

Lemma preserves_modify (f : State -> State) :
  (forall s, P s -> P (f s)) -> preserves P (modify f).
Proof. intros Hf s H. apply Hf, H. Qed.

Lemma respects_ret (a : A) : respects R (ret a).
Proof. intros s t H. split; [reflexivity|exact H]. Qed.

Lemma respects_bind (m : M A) (k : A -> M B) :
  respects R m -> (forall a, respects R (k a)) -> respects R (bind m k).
Proof.
  intros Hm Hk s t H. unfold bind. destruct (Hm s t H) as [E H'].
  destruct (m s) as [a s'], (m t) as [a' t']. cbn in E, H'. subst a'.
  apply Hk, H'.
Qed.

Lemma respects_gets (f : State -> A) :
  (forall s t, R s t -> f s = f t) -> respects R (gets f).
Proof. intros Hf s t H. split; [apply Hf, H|exact H]. Qed.

Lemma respects_modify (f : State -> State) :
  (forall s t, R s t -> R (f s) (f t)) -> respects R (modify f).
Proof. intros Hf s t H. split; [reflexivity|apply Hf, H]. Qed.

End Handlers.

Lemma preserves_syscall (P : State -> Prop) :
  (forall s, P s -> P (set_io (tl (io s)) s)) -> preserves P syscall.
Proof. intros Hf s H. apply Hf, H. Qed.

Lemma respects_syscall (R : State -> State -> Prop) :
  (forall s t, R s t -> io s = io t /\ R (set_io (tl (io s)) s) (set_io (tl (io t)) t)) ->
  respects R syscall.
Proof.
  intros Hf s t H. destruct (Hf s t H) as [E H']. unfold syscall. cbn.
  split; [rewrite E; reflexivity|exact H'].
Qed.

(** The handlers, opened up to the primitives of the monad. *)
Ltac open_handlers :=
  unfold sendData, processFrame, processFrame_log, createCsv,
    QFile_open, QFile_write, QFile_close, QFile_setFileName,
    Plugin_write, Plugin_isConnected, csvFileName, simulationCsvLoaded,
    simulationActivated, simulationEnabled, containerTelemetryEnabled,
    printLn, showMessageBox, emit, singleShot.

Ltac step_preserves tac :=
  lazymatch goal with
  | |- preserves _ (bind _ _) => apply preserves_bind; [|intros ?]
  | |- preserves _ (ret _) => apply preserves_ret
  | |- preserves _ (gets _) => apply preserves_gets
  | |- preserves _ (modify _) => apply preserves_modify; tac
  | |- preserves _ syscall => apply preserves_syscall; tac
  | |- preserves _ (if ?b then _ else _) => destruct b
  | |- preserves _ (match ?x with _ => _ end) => destruct x
  end.

Ltac step_respects tac :=
  lazymatch goal with
  | |- respects _ (bind _ _) => apply respects_bind; [|intros ?]
  | |- respects _ (ret _) => apply respects_ret
  | |- respects _ (gets _) => apply respects_gets; tac
  | |- respects _ (modify _) => apply respects_modify; tac
  | |- respects _ syscall => apply respects_syscall; tac
  | |- respects _ (if ?b then _ else _) => destruct b
  | |- respects _ (match ?x with _ => _ end) => destruct x
  end.

Ltac rebuffered_tac :=
  unfold rebuffered; intros; subst; try split; reflexivity.

Lemma processFrame_rebuffered (b frame : QByteArray.t) :
  respects (rebuffered b) (processFrame frame).
Proof.
  open_handlers. repeat step_respects rebuffered_tac.
Qed.

(** ** Stream reassembler: the loop and its effects *)

Lemma exec_unit (m : M unit) (s : State) : m s = (tt, exec m s).
Proof. unfold exec. destruct (m s) as [[] s']. reflexivity. Qed.

Lemma set_m_dataBuffer_same (s : State) : set_m_dataBuffer (m_dataBuffer s) s = s.
Proof. destruct s. reflexivity. Qed.

Lemma processFrames_rebuffered (b : QByteArray.t) (frames : list QByteArray.t) (s : State) :
  processFrames frames (set_m_dataBuffer b s)
  = set_m_dataBuffer b (processFrames frames s).
Proof.
  revert s. induction frames as [|frame frames IH]; intros s; [reflexivity|].
  cbn [processFrames fold_left]. fold (processFrames frames).
  destruct (processFrame_rebuffered b frame s (set_m_dataBuffer b s) eq_refl) as [_ E].
  unfold rebuffered in E. unfold exec. rewrite E. apply IH.
Qed.

Lemma processFrames_m_dataBuffer (frames : list QByteArray.t) (s : State) :
  m_dataBuffer (processFrames frames s) = m_dataBuffer s.
Proof.
  rewrite <- (set_m_dataBuffer_same s) at 1.
  rewrite processFrames_rebuffered. reflexivity.
Qed.

Lemma processFrames_app (f1 f2 : list QByteArray.t) (s : State) :
  processFrames (f1 ++ f2) s = processFrames f2 (processFrames f1 s).
Proof. apply fold_left_app. Qed.

(** The loop hands the scanned frames to [processFrame], one after the
    other, whatever becomes of each. *)
Lemma readFrames_scan (fuel : nat) (cursor : QByteArray.t) (bytes : Z) (s : State) :
  readFrames fuel cursor bytes s
  = (snd (scanFrames fuel cursor bytes),
     processFrames (fst (scanFrames fuel cursor bytes)) s).
Proof.
  revert cursor bytes s. induction fuel as [|fuel IH]; intros cursor bytes s.
  - reflexivity.
  - cbn [readFrames scanFrames].
    destruct (QByteArray.contains cursor start && QByteArray.contains cursor finish);
      [|reflexivity].
    cbv zeta. unfold bind at 1. rewrite exec_unit, IH.
    destruct (scanFrames fuel _ _) as [frames bytes']. reflexivity.
Qed.

(** A receive event, in terms of the buffer alone and of the frames it
    routes. *)
Lemma onDataReceived_reassemble (data : QByteArray.t) (s : State) :
  exec (onDataReceived data) s
  = set_m_dataBuffer (snd (reassemble (m_dataBuffer s) data))
      (processFrames (fst (reassemble (m_dataBuffer s) data)) s).
Proof.
  unfold exec, onDataReceived, bind, modify, gets.
  cbn [m_dataBuffer set_m_dataBuffer].
  rewrite readFrames_scan. rewrite processFrames_rebuffered.
  cbn [m_dataBuffer set_m_dataBuffer].
  unfold reassemble, unconsumed. cbn [fst snd].
  set (all := QByteArray.append (m_dataBuffer s) data).
  destruct (1024 * 10 * 10 <? _); reflexivity.
Qed.

(** ** Byte arrays *)

Lemma size_nonneg (a : QByteArray.t) : 0 <= QByteArray.size a.
Proof. unfold QByteArray.size. lia. Qed.

Lemma size_app (a b : QByteArray.t) :
  QByteArray.size (a ++ b) = QByteArray.size a + QByteArray.size b.
Proof. apply size_header_app. Qed.

Lemma mid_from (a : QByteArray.t) (pos : Z) :
  0 <= pos <= QByteArray.size a ->
  QByteArray.mid a pos (-1) = skipn (Z.to_nat pos) a.
Proof.
  intros H. unfold QByteArray.mid. cbv zeta.
  destruct (QByteArray.size a <? pos) eqn:E1; [lia|].
  destruct (pos <? 0) eqn:E2; [lia|].
  cbn [Z.ltb Z.compare orb].
  apply firstn_all2. rewrite length_skipn. unfold QByteArray.size in *. lia.
Qed.

Lemma mid_whole (a : QByteArray.t) : QByteArray.mid a (-1) (-1) = a.
Proof.
  unfold QByteArray.mid. cbv zeta.
  pose proof (size_nonneg a).
  destruct (QByteArray.size a <? -1) eqn:E1; [lia|]. reflexivity.
Qed.

Lemma left_before (a : QByteArray.t) (len : Z) :
  0 <= len <= QByteArray.size a ->
  QByteArray.left a len = firstn (Z.to_nat len) a.
Proof.
  intros H. unfold QByteArray.left.
  destruct (QByteArray.size a <=? len) eqn:E1.
  - symmetry. apply firstn_all2. unfold QByteArray.size in *. lia.
  - destruct (len <? 0) eqn:E2; [lia|reflexivity].
Qed.

Lemma left_none (a : QByteArray.t) : QByteArray.left a (-1) = [].
Proof.
  unfold QByteArray.left. pose proof (size_nonneg a).
  destruct (QByteArray.size a <=? -1) eqn:E1; [lia|]. reflexivity.
Qed.

Lemma remove_front (a : QByteArray.t) (len : Z) :
  0 <= len -> QByteArray.remove a 0 len = skipn (Z.to_nat len) a.
Proof.
  intros H. unfold QByteArray.remove.
  destruct (len <=? 0) eqn:E1.
  - replace len with 0 by lia. reflexivity.
  - cbn [Z.ltb Z.compare orb].
    destruct (QByteArray.size a <=? 0) eqn:E2.
    + destruct a; [destruct (Z.to_nat len); reflexivity|].
      apply Z.leb_le in E2. unfold QByteArray.size in E2.
      rewrite length_cons, Nat2Z.inj_succ in E2. lia.
    + reflexivity.
Qed.

Lemma remove_size (a : QByteArray.t) (pos len : Z) :
  QByteArray.size (QByteArray.remove a pos len) <= QByteArray.size a.
Proof.
  unfold QByteArray.remove.
  destruct ((len <=? 0) || (pos <? 0) || (QByteArray.size a <=? pos)) eqn:E; [lia|].
  apply orb_false_iff in E. destruct E as [E E3].
  apply orb_false_iff in E. destruct E as [E1 E2].
  unfold QByteArray.size in *.
  rewrite length_app, length_firstn, length_skipn. lia.
Qed.

(** [startsWith] is a prefix test. *)
Lemma startsWith_iff (a pat : QByteArray.t) :
  QByteArray.startsWith a pat = true <-> exists r, a = pat ++ r.
Proof.
  revert a. induction pat as [|p pat IH]; intros a; cbn [QByteArray.startsWith].
  - split; [intros _; exists a; reflexivity|reflexivity].
  - destruct a as [|x a].
    + split; [discriminate|intros [r E]; discriminate].
    + rewrite andb_true_iff, IH. split.
      * intros [E [r ->]]. apply Byte.byte_dec_bl in E. subst x.
        exists r. reflexivity.
      * intros [r E]. injection E as -> ->. split.
        -- apply Byte.byte_dec_lb. reflexivity.
        -- exists r. reflexivity.
Qed.

(** [indexOf_from] finds the first occurrence. *)
Lemma indexOf_from_spec (a pat : QByteArray.t) (from : Z) :
  (QByteArray.indexOf_from a pat from = -1
   /\ forall g r, a <> g ++ pat ++ r)
  \/ (exists g r, a = g ++ pat ++ r
       /\ QByteArray.indexOf_from a pat from = from + QByteArray.size g
       /\ forall g' r', a = g' ++ pat ++ r' -> (List.length g <= List.length g')%nat).
Proof.
  revert from. induction a as [|x a IH]; intros from.
  - cbn [QByteArray.indexOf_from].
    destruct (QByteArray.startsWith [] pat) eqn:E.
    + right. apply startsWith_iff in E. destruct E as [r E].
      exists [], r. split; [exact E|]. split; [cbn; lia|]. intros; cbn; lia.
    + left. split; [reflexivity|]. intros g r H.
      destruct g; [|discriminate]. cbn [app] in H.
      assert (QByteArray.startsWith [] pat = true)
        by (apply startsWith_iff; exists r; exact H).
      congruence.
  - cbn [QByteArray.indexOf_from].
    destruct (QByteArray.startsWith (x :: a) pat) eqn:E.
    + right. apply startsWith_iff in E. destruct E as [r E].
      exists [], r. split; [exact E|]. split; [cbn; lia|]. intros; cbn; lia.
    + assert (Hnil : forall r, x :: a <> pat ++ r).
      { intros r H.
        assert (QByteArray.startsWith (x :: a) pat = true)
          by (apply startsWith_iff; exists r; exact H).
        congruence. }
      destruct (IH (from + 1)) as [[E1 Hno]|[g [r [Ha [Ei Hmin]]]]].
      * left. split; [exact E1|]. intros g r H. destruct g as [|y g].
        -- exact (Hnil r H).
        -- injection H as _ H. exact (Hno g r H).
      * right. exists (x :: g), r. split; [rewrite Ha; reflexivity|]. split.
        -- rewrite Ei. unfold QByteArray.size. cbn [List.length]. lia.
        -- intros g' r' H. destruct g' as [|y g'].
           ++ exfalso. exact (Hnil r' H).
           ++ injection H as _ H. cbn [List.length]. apply le_n_S, (Hmin g' r' H).
Qed.

Lemma contains_true_iff (a pat : QByteArray.t) :
  QByteArray.contains a pat = true <-> exists g r, a = g ++ pat ++ r.
Proof.
  unfold QByteArray.contains, QByteArray.indexOf.
  destruct (indexOf_from_spec a pat 0) as [[E Hno]|[g [r [Ha [Ei _]]]]].
  - rewrite E. split; [discriminate|]. intros [g [r H]]. destruct (Hno g r H).
  - rewrite Ei. pose proof (size_nonneg g).
    destruct (0 + QByteArray.size g =? -1) eqn:E; [lia|].
    split; [intros _; exists g, r; exact Ha|reflexivity].
Qed.

Lemma contains_false_iff (a pat : QByteArray.t) :
  QByteArray.contains a pat = false <-> forall g r, a <> g ++ pat ++ r.
Proof.
  rewrite <- not_true_iff_false, contains_true_iff. split.
  - intros H g r E. apply H. exists g, r. exact E.
  - intros H [g [r E]]. exact (H g r E).
Qed.

Lemma contains_false_app_l (a b pat : QByteArray.t) :
  QByteArray.contains (a ++ b) pat = false -> QByteArray.contains a pat = false.
Proof.
  rewrite !contains_false_iff. intros H g r E. apply (H g (r ++ b)).
  rewrite E, <- !app_assoc. reflexivity.
Qed.

Lemma contains_false_app_r (a b pat : QByteArray.t) :
  QByteArray.contains (a ++ b) pat = false -> QByteArray.contains b pat = false.
Proof.
  rewrite !contains_false_iff. intros H g r E. apply (H (a ++ g) r).
  rewrite E, <- !app_assoc. reflexivity.
Qed.

(** Where a pattern that occurs is found. *)
Lemma indexOf_found (a pat : QByteArray.t) :
  QByteArray.contains a pat = true ->
  exists g r, a = g ++ pat ++ r
    /\ QByteArray.indexOf a pat = QByteArray.size g
    /\ forall g' r', a = g' ++ pat ++ r' -> (List.length g <= List.length g')%nat.
Proof.
  intros H. unfold QByteArray.indexOf.
  destruct (indexOf_from_spec a pat 0) as [[E Hno]|[g [r [Ha [Ei Hmin]]]]].
  - apply contains_true_iff in H. destruct H as [g [r H]]. destruct (Hno g r H).
  - exists g, r. split; [exact Ha|]. split; [rewrite Ei; lia|exact Hmin].
Qed.

Lemma indexOf_missing (a pat : QByteArray.t) :
  QByteArray.contains a pat = false -> QByteArray.indexOf a pat = -1.
Proof.
  unfold QByteArray.contains. intros H. apply negb_false_iff in H. lia.
Qed.

Lemma skipn_size (g r : QByteArray.t) :
  skipn (Z.to_nat (QByteArray.size g)) (g ++ r) = r.
Proof.
  unfold QByteArray.size. rewrite Nat2Z.id.
  induction g as [|x g IH]; [reflexivity|exact IH].
Qed.

Lemma firstn_size (g r : QByteArray.t) :
  firstn (Z.to_nat (QByteArray.size g)) (g ++ r) = g.
Proof.
  unfold QByteArray.size. rewrite Nat2Z.id.
  induction g as [|x g IH]; [reflexivity|cbn; rewrite IH; reflexivity].
Qed.

(** The array after an occurrence of a pattern. *)
Lemma mid_after (g pat r : QByteArray.t) :
  QByteArray.mid (g ++ pat ++ r) (QByteArray.size g + QByteArray.size pat) (-1) = r.
Proof.
  pose proof (size_nonneg g). pose proof (size_nonneg pat).
  pose proof (size_nonneg r).
  rewrite mid_from by (rewrite !size_app; lia).
  rewrite <- size_app, app_assoc. apply skipn_size.
Qed.

(** ** Stream reassembler: the loop ends *)

Lemma size_start : QByteArray.size start = 2.
Proof. reflexivity. Qed.

Lemma size_finish : QByteArray.size finish = 2.
Proof. reflexivity. Qed.

(** What one pass leaves of [cursor]: at least the start sequence is
    gone. *)
Lemma pass_shrinks (cursor : QByteArray.t) :
  QByteArray.contains cursor start = true ->
  let sIndex := QByteArray.indexOf cursor start in
  let cursor1 := QByteArray.mid cursor (sIndex + QByteArray.size start) (-1) in
  let fIndex := QByteArray.indexOf cursor1 finish in
  (List.length (QByteArray.mid cursor1 fIndex (-1)) + 2 <= List.length cursor)%nat.
Proof.
  intros H. cbv zeta.
  destruct (indexOf_found cursor start H) as [g [r [Ha [Ei _]]]].
  rewrite Ei.
  assert (Em : QByteArray.mid cursor (QByteArray.size g + QByteArray.size start) (-1) = r)
    by (rewrite Ha; apply mid_after).
  rewrite !Em.
  assert (Hlen : (List.length cursor = List.length g + 2 + List.length r)%nat).
  { rewrite Ha, !length_app. cbn. lia. }
  assert (Hle : (List.length (QByteArray.mid r (QByteArray.indexOf r finish) (-1))
                 <= List.length r)%nat).
  { destruct (QByteArray.contains r finish) eqn:Hf.
    - destruct (indexOf_found r finish Hf) as [g' [r' [Hr [Ei' _]]]].
      rewrite Ei'. pose proof (size_nonneg g').
      rewrite mid_from.
      + rewrite length_skipn. lia.
      + rewrite Hr, size_app. pose proof (size_nonneg (finish ++ r')). lia.
    - rewrite (indexOf_missing _ _ Hf), mid_whole. lia. }
  lia.
Qed.

(** Fuel above the size of [cursor] is never used up: the result is that of
    any larger fuel. *)
Lemma scanFrames_fuel (fuel fuel' : nat) (cursor : QByteArray.t) (bytes : Z) :
  (List.length cursor < fuel)%nat -> (List.length cursor < fuel')%nat ->
  scanFrames fuel cursor bytes = scanFrames fuel' cursor bytes.
Proof.
  revert fuel' cursor bytes.
  induction fuel as [|fuel IH]; intros fuel' cursor bytes H H'; [lia|].
  destruct fuel' as [|fuel']; [lia|].
  cbn [scanFrames].
  destruct (QByteArray.contains cursor start) eqn:Hs; [|reflexivity].
  destruct (QByteArray.contains cursor finish) eqn:Hf; [|reflexivity].
  cbn [andb]. cbv zeta. pose proof (pass_shrinks cursor Hs) as Hlt. cbv zeta in Hlt.
  rewrite (IH fuel') by lia. reflexivity.
Qed.

(** The loop as the source writes it: one pass, then the loop again. *)
Lemma scanFrames_while (cursor : QByteArray.t) (bytes : Z) :
  scanFrames (S (List.length cursor)) cursor bytes
  = if QByteArray.contains cursor start && QByteArray.contains cursor finish
    then
      let sIndex := QByteArray.indexOf cursor start in
      let cursor1 := QByteArray.mid cursor (sIndex + QByteArray.size start) (-1) in
      let bytes1 := bytes + (sIndex + QByteArray.size start) in
      let fIndex := QByteArray.indexOf cursor1 finish in
      let frame := QByteArray.left cursor1 fIndex in
      let cursor2 := QByteArray.mid cursor1 fIndex (-1) in
      let bytes2 := bytes1 + (fIndex + QByteArray.size finish) in
      let (frames, bytes') := scanFrames (S (List.length cursor2)) cursor2 bytes2 in
      (frame :: frames, bytes')
    else ([], bytes).
Proof.
  cbn [scanFrames].
  destruct (QByteArray.contains cursor start) eqn:Hs; [|reflexivity].
  destruct (QByteArray.contains cursor finish) eqn:Hf; [|reflexivity].
  cbn [andb]. cbv zeta. pose proof (pass_shrinks cursor Hs) as Hlt. cbv zeta in Hlt.
  rewrite (scanFrames_fuel (List.length cursor) (S (List.length
    (QByteArray.mid (QByteArray.mid cursor
       (QByteArray.indexOf cursor start + QByteArray.size start) (-1))
       (QByteArray.indexOf (QByteArray.mid cursor
          (QByteArray.indexOf cursor start + QByteArray.size start) (-1)) finish)
       (-1))))) by lia.
  reflexivity.
Qed.

(** The running [bytes] never goes down. *)
Lemma scanFrames_bytes (fuel : nat) (cursor : QByteArray.t) (bytes : Z) :
  bytes <= snd (scanFrames fuel cursor bytes).
Proof.
  revert cursor bytes. induction fuel as [|fuel IH]; intros cursor bytes; [cbn; lia|].
  cbn [scanFrames].
  destruct (QByteArray.contains cursor start) eqn:Hs; [|cbn; lia].
  destruct (QByteArray.contains cursor finish) eqn:Hf; [|cbn; lia].
  cbn [andb]. cbv zeta.
  match goal with |- context [scanFrames fuel ?c ?b] =>
    pose proof (IH c b) as Hb; destruct (scanFrames fuel c b) as [frames bytes'] end.
  cbn [snd] in *.
  destruct (indexOf_found cursor start Hs) as [g [r [Ha [Ei _]]]].
  rewrite Ei, size_start, size_finish in Hb. pose proof (size_nonneg g).
  match type of Hb with context [QByteArray.indexOf ?c finish] =>
    assert (-1 <= QByteArray.indexOf c finish) as Hi end.
  { match goal with |- context [QByteArray.indexOf ?c finish] =>
      destruct (QByteArray.contains c finish) eqn:Hc;
      [destruct (indexOf_found c finish Hc) as [g' [r' [_ [Ei' _]]]];
       rewrite Ei'; pose proof (size_nonneg g'); lia
      |rewrite (indexOf_missing _ _ Hc); lia] end. }
  lia.
Qed.

(** ** Frame router *)

Ltac open_processFrame :=
  unfold exec, processFrame, processFrame_log, createCsv,
    QFile_open, QFile_write, QFile_close, QFile_setFileName,
    printLn, showMessageBox, syscall, bind, ret, gets, modify.

(** Runs a handler on a state of which the equations [E1] and [E2] tell
    what the branches test. *)
Ltac run_with E1 E2 := repeat (progress (cbn; rewrite ?E1, ?E2)).

Lemma processFrame_trace (frame : QByteArray.t) (s : State) :
  QByteArray.isEmpty frame = false ->
  trace (exec (processFrame frame) s) = trace s ++ processFrame_effects frame s.
Proof.
  intros Hne. unfold processFrame_effects, creatingLine, csvPath, rxLine.
  open_processFrame. rewrite Hne.
  destruct (QByteArray.startsWith frame (QByteArray.toUtf8 "6026")).
  - destruct (isOpen (m_payloadCsv s)) eqn:E.
    + destruct (hd None (io s)) eqn:E1; destruct (hd None (tl (io s))) eqn:E2;
        run_with E E1; rewrite ?E2; reflexivity.
    + destruct (hd None (io s)) eqn:E1; run_with E E1; [rewrite <- app_assoc; reflexivity|].
      destruct (hd None (tl (io s))) eqn:E2; destruct (hd None (tl (tl (io s)))) eqn:E3;
        run_with E2 E3; rewrite <- app_assoc; reflexivity.
  - destruct (QByteArray.startsWith frame (QByteArray.toUtf8 "1026")); [|reflexivity].
    destruct (isOpen (m_containerCsv s)) eqn:E.
    + destruct (hd None (io s)) eqn:E1; destruct (hd None (tl (io s))) eqn:E2;
        run_with E E1; rewrite ?E2; reflexivity.
    + destruct (hd None (io s)) eqn:E1; run_with E E1; [rewrite <- app_assoc; reflexivity|].
      destruct (hd None (tl (io s))) eqn:E2; destruct (hd None (tl (tl (io s)))) eqn:E3;
        run_with E2 E3; rewrite <- app_assoc; reflexivity.
Qed.

Lemma noFailure_hd (l : list (option QString.t)) :
  Forall (fun r => r = None) l -> hd None l = None.
Proof. intros H. destruct H; [reflexivity|assumption]. Qed.

Lemma noFailure_tl (l : list (option QString.t)) :
  Forall (fun r => r = None) l -> Forall (fun r => r = None) (tl l).
Proof. intros H. destruct H; [constructor|assumption]. Qed.

(** A frame tagged 6026 while no system call fails: the payload log is
    open afterwards and holds the frame and a newline at its end; the
    container log is not touched. *)
Lemma processFrame_payload (frame : QByteArray.t) (s : State) :
  QByteArray.isEmpty frame = false ->
  QByteArray.startsWith frame (QByteArray.toUtf8 "6026") = true ->
  noFailure s ->
  let s' := exec (processFrame frame) s in
  isOpen (m_payloadCsv s') = true
  /\ device (m_payloadCsv s')
     = (if isOpen (m_payloadCsv s) then device (m_payloadCsv s) else [])
       ++ frame ++ QByteArray.toUtf8 QString.newline
  /\ m_containerCsv s' = m_containerCsv s.
Proof.
  intros Hne Htag Hio. unfold noFailure in Hio.
  pose proof (noFailure_hd _ Hio) as E1.
  pose proof (noFailure_hd _ (noFailure_tl _ Hio)) as E2.
  pose proof (noFailure_hd _ (noFailure_tl _ (noFailure_tl _ Hio))) as E3.
  open_processFrame. rewrite Hne, Htag.
  destruct (isOpen (m_payloadCsv s)) eqn:E.
  - run_with E E1. rewrite E2. cbn. rewrite <- app_assoc. repeat split.
  - run_with E E1. run_with E2 E3. repeat split.
Qed.

(** A frame whose log cannot be opened leaves both logs as they were. *)
Lemma processFrame_openFails (frame : QByteArray.t) (s : State) :
  QByteArray.isEmpty frame = false ->
  openFails frame s = true ->
  let s' := exec (processFrame frame) s in
  device (m_payloadCsv s') = device (m_payloadCsv s)
  /\ device (m_containerCsv s') = device (m_containerCsv s)
  /\ isOpen (m_payloadCsv s') = isOpen (m_payloadCsv s)
  /\ isOpen (m_containerCsv s') = isOpen (m_containerCsv s).
Proof.
  intros Hne. unfold openFails, logOf. open_processFrame. rewrite Hne.
  destruct (QByteArray.startsWith frame (QByteArray.toUtf8 "6026")).
  - cbn [get file_m_payloadCsv].
    destruct (isOpen (m_payloadCsv s)) eqn:E; [discriminate|].
    destruct (hd None (io s)) eqn:E1; [|discriminate]. intros _.
    run_with E E1. repeat split.
  - destruct (QByteArray.startsWith frame (QByteArray.toUtf8 "1026")); [|discriminate].
    cbn [get file_m_containerCsv].
    destruct (isOpen (m_containerCsv s)) eqn:E; [discriminate|].
    destruct (hd None (io s)) eqn:E1; [|discriminate]. intros _.
    run_with E E1. repeat split.
Qed.

(** C6 fails as stated: a frame tagged 6026 whose log cannot be opened gets
    a message box and no display event. *)
Lemma processFrame_display_counterexample :
  let s := set_io [Some "Permission denied"] init in
  let frame := bytes "6026,A,B" in
  QByteArray.isEmpty frame = false
  /\ trace (exec (processFrame frame) s)
     = [creatingLine false s;
        ShowMessageBox "Error while creating payload CSV" "Permission denied"]
  /\ ~ In (rxLine frame) (trace (exec (processFrame frame) s)).
Proof.
  vm_compute. split; [reflexivity|]. split; [reflexivity|].
  intros [H|[H|[]]]; discriminate H.
Qed.

(** C6, as amended: a frame that is not empty is shown to the observers as
    the last thing [processFrame] does, whether or not its tag is known and
    whatever becomes of the writes to the log, unless the log of its tag is
    closed and cannot be opened; then a message box reports the error, the
    frame is neither written nor shown, both logs stay as they were, and the
    loop of the reassembler goes on handing the frames that follow to
    [processFrame]. *)
Theorem processFrame_display (frame : QByteArray.t) (s : State) :
  QByteArray.isEmpty frame = false ->
  let s' := exec (processFrame frame) s in
  (openFails frame s = false ->
   exists pre, trace s' = trace s ++ pre ++ [rxLine frame])
  /\ (openFails frame s = true ->
      (exists isContainer title e,
         trace s' = trace s ++ [creatingLine isContainer s; ShowMessageBox title e])
      /\ ~ In (rxLine frame) (processFrame_effects frame s)
      /\ device (m_payloadCsv s') = device (m_payloadCsv s)
      /\ device (m_containerCsv s') = device (m_containerCsv s))
  /\ (forall fuel cursor n t,
        readFrames fuel cursor n t
        = (snd (scanFrames fuel cursor n),
           processFrames (fst (scanFrames fuel cursor n)) t)).
Proof.
  intros Hne s'. subst s'. rewrite processFrame_trace by assumption.
  split; [|split].
  - unfold openFails, logOf, processFrame_effects.
    destruct (QByteArray.startsWith frame (QByteArray.toUtf8 "6026")).
    + cbn [get file_m_payloadCsv]. destruct (isOpen (m_payloadCsv s)).
      * intros _. exists []. reflexivity.
      * destruct (hd None (io s)); [discriminate|]. intros _.
        exists [creatingLine false s]. reflexivity.
    + destruct (QByteArray.startsWith frame (QByteArray.toUtf8 "1026")).
      * cbn [get file_m_containerCsv]. destruct (isOpen (m_containerCsv s)).
        -- intros _. exists []. reflexivity.
        -- destruct (hd None (io s)); [discriminate|]. intros _.
           exists [creatingLine true s]. reflexivity.
      * intros _. exists []. reflexivity.
  - intros Hfail.
    destruct (processFrame_openFails frame s Hne Hfail) as [Hp [Hc _]].
    split; [|split; [|split; assumption]].
    + revert Hfail. unfold openFails, logOf, processFrame_effects.
      destruct (QByteArray.startsWith frame (QByteArray.toUtf8 "6026")).
      * cbn [get file_m_payloadCsv]. destruct (isOpen (m_payloadCsv s)); [discriminate|].
        destruct (hd None (io s)) as [e|]; [|discriminate]. intros _.
        exists false, "Error while creating payload CSV", e. reflexivity.
      * destruct (QByteArray.startsWith frame (QByteArray.toUtf8 "1026")); [|discriminate].
        cbn [get file_m_containerCsv]. destruct (isOpen (m_containerCsv s)); [discriminate|].
        destruct (hd None (io s)) as [e|]; [|discriminate]. intros _.
        exists true, "Error while creating container CSV", e. reflexivity.
    + revert Hfail. unfold openFails, logOf, processFrame_effects.
      destruct (QByteArray.startsWith frame (QByteArray.toUtf8 "6026")).
      * cbn [get file_m_payloadCsv]. destruct (isOpen (m_payloadCsv s)); [discriminate|].
        destruct (hd None (io s)) as [e|]; [|discriminate]. intros _.
        intros [H|[H|[]]]; discriminate H.
      * destruct (QByteArray.startsWith frame (QByteArray.toUtf8 "1026")); [|discriminate].
        cbn [get file_m_containerCsv]. destruct (isOpen (m_containerCsv s)); [discriminate|].
        destruct (hd None (io s)) as [e|]; [|discriminate]. intros _.
        intros [H|[H|[]]]; discriminate H.
  - intros fuel cursor n t. apply readFrames_scan.
Qed.

Lemma processFrame_display_witness :
  QByteArray.isEmpty (bytes "6026,A,B") = false
  /\ exists pre,
       trace (exec (processFrame (bytes "6026,A,B")) init)
       = trace init ++ pre ++ [rxLine (bytes "6026,A,B")].
Proof.
  split; [reflexivity|].
  apply (processFrame_display (bytes "6026,A,B") init); reflexivity.
Defined.

(** ** Stream reassembler: one event *)

(** C4: from an empty receive buffer, the bytes
    [noise/*6026,A,B*/moretrailing] in one receive event give exactly one
    frame, [6026,A,B]; it is handed to [processFrame], which picks the
    payload log for it and shows it, and [moretrailing] is what the buffer
    keeps.  While no system call fails the payload log is open afterwards
    and ends with the frame and a newline. *)
Theorem onDataReceived_one_frame (s : State) :
  m_dataBuffer s = [] ->
  noFailure s ->
  let data := bytes "noise/*6026,A,B*/moretrailing" in
  let frame := bytes "6026,A,B" in
  let s' := exec (onDataReceived data) s in
  reassemble [] data = ([frame], bytes "moretrailing")
  /\ s' = set_m_dataBuffer (bytes "moretrailing") (exec (processFrame frame) s)
  /\ m_dataBuffer s' = bytes "moretrailing"
  /\ logOf frame = Some file_m_payloadCsv
  /\ isOpen (m_payloadCsv s') = true
  /\ device (m_payloadCsv s')
     = (if isOpen (m_payloadCsv s) then device (m_payloadCsv s) else [])
       ++ frame ++ QByteArray.toUtf8 QString.newline
  /\ m_containerCsv s' = m_containerCsv s
  /\ trace s'
     = trace s
       ++ (if isOpen (m_payloadCsv s) then [] else [creatingLine false s])
       ++ [rxLine frame].
Proof.
  intros Hbuf Hio data frame s'.
  assert (Hr : reassemble [] data = ([frame], bytes "moretrailing"))
    by (vm_compute; reflexivity).
  assert (Hs : s' = set_m_dataBuffer (bytes "moretrailing") (exec (processFrame frame) s)).
  { subst s'. rewrite onDataReceived_reassemble, Hbuf, Hr. reflexivity. }
  destruct (processFrame_payload frame s eq_refl eq_refl Hio) as [Ho [Hd Hc]].
  split; [exact Hr|]. split; [exact Hs|]. rewrite Hs.
  split; [reflexivity|]. split; [reflexivity|].
  split; [exact Ho|]. split; [exact Hd|]. split; [exact Hc|].
  cbn [trace set_m_dataBuffer]. rewrite processFrame_trace by reflexivity.
  f_equal. unfold processFrame_effects.
  change (QByteArray.startsWith frame (QByteArray.toUtf8 "6026")) with true.
  cbn match. destruct (isOpen (m_payloadCsv s)); [reflexivity|].
  rewrite (noFailure_hd _ Hio). reflexivity.
Qed.

Lemma onDataReceived_one_frame_witness :
  m_dataBuffer init = [] /\ noFailure init
  /\ trace (exec (onDataReceived (bytes "noise/*6026,A,B*/moretrailing")) init)
     = [creatingLine false init; rxLine (bytes "6026,A,B")]
  /\ m_dataBuffer (exec (onDataReceived (bytes "noise/*6026,A,B*/moretrailing")) init)
     = bytes "moretrailing".
Proof.
  split; [reflexivity|]. split; [constructor|].
  pose proof (onDataReceived_one_frame init eq_refl (Forall_nil _)) as H.
  cbv zeta in H. split; [apply H|apply H].
Defined.

(** ** Stream reassembler: the ceiling of the buffer *)

(** C5 fails as stated: 10,241 bytes without any marker stay in the receive
    buffer; nothing is cleared. *)
Lemma buffer_ceiling_counterexample :
  let data := repeat "x"%byte (Z.to_nat 10241) in
  QByteArray.size (unconsumed [] data) = 10241
  /\ QByteArray.size (m_dataBuffer (exec (onDataReceived data) init)) = 10241.
Proof. vm_compute. split; reflexivity. Qed.

(** C5, as amended: after any receive event, if the bytes left unconsumed
    exceed 102,400 the whole buffer is cleared, and otherwise they are what
    the buffer keeps; so the buffer never holds more than 102,400 bytes
    between receive events, and after a clearing the frames of the receive
    events that follow are those of the bytes that follow alone. *)
Theorem buffer_ceiling (data : QByteArray.t) (s : State) :
  let s' := exec (onDataReceived data) s in
  let rest := unconsumed (m_dataBuffer s) data in
  QByteArray.size (m_dataBuffer s') <= 102400
  /\ (102400 < QByteArray.size rest ->
      m_dataBuffer s' = []
      /\ forall later, reassemble (m_dataBuffer s') later = reassemble [] later)
  /\ (QByteArray.size rest <= 102400 -> m_dataBuffer s' = rest).
Proof.
  cbv zeta. rewrite onDataReceived_reassemble. cbn [m_dataBuffer set_m_dataBuffer].
  unfold reassemble. cbn [snd]. change (1024 * 10 * 10) with 102400.
  destruct (102400 <? QByteArray.size (unconsumed (m_dataBuffer s) data)) eqn:E.
  - apply Z.ltb_lt in E. split; [cbn; lia|]. split; [|lia].
    intros _. split; reflexivity.
  - apply Z.ltb_ge in E. split; [exact E|]. split; [lia|reflexivity].
Qed.

Lemma buffer_ceiling_witness :
  102400 < QByteArray.size (unconsumed (m_dataBuffer init) (repeat "x"%byte (Z.to_nat 102401)))
  /\ m_dataBuffer (exec (onDataReceived (repeat "x"%byte (Z.to_nat 102401))) init) = [].
Proof.
  assert (H : 102400
              < QByteArray.size (unconsumed (m_dataBuffer init) (repeat "x"%byte (Z.to_nat 102401))))
    by (vm_compute; reflexivity).
  split; [exact H|].
  apply (buffer_ceiling (repeat "x"%byte (Z.to_nat 102401)) init). exact H.
Defined.

(** ** Simulation feeder *)

Arguments sendData : simpl never.

Lemma exec_sendData_connected (data : QString.t) (s : State) :
  QString.isEmpty data = false -> socketConnected s = true ->
  sendData data s
  = (match hd None (io s) with None => true | Some _ => false end, sent data s).
Proof. apply sendData_connected. Qed.

Ltac open_feeder :=
  unfold exec, setSimulationMode, setSimulationActivated, sendSimulatedData,
    updateContainerTime, setContainerTelemetryEnabled, updateCurrentTime,
    csvFileName, simulationCsvLoaded, simulationActivated, simulationEnabled,
    Plugin_isConnected, emit, printLn, showMessageBox, singleShot,
    bind, ret, gets, modify.

Lemma setSimulationMode_connected (enabled : bool) (s : State) :
  socketConnected s = true ->
  exec (setSimulationMode enabled) s
  = sent ("CMD,1026,SIM," +s (if enabled then "ENABLE" else "DISABLE") +s ";")
      (set_trace
         ((trace s ++ [Emit simulationEnabledChanged])
          ++ [Emit simulationActivatedChanged])
         (set_m_simulationEnabled enabled (set_m_simulationActivated false s))).
Proof.
  intros Hc. open_feeder. rewrite Hc. cbn.
  rewrite exec_sendData_connected by (try exact Hc; destruct enabled; reflexivity).
  destruct enabled; reflexivity.
Qed.

Lemma setSimulationMode_not_connected (enabled : bool) (s : State) :
  socketConnected s = false -> exec (setSimulationMode enabled) s = s.
Proof. intros Hc. open_feeder. rewrite Hc. reflexivity. Qed.

Arguments setSimulationMode : simpl never.

Lemma csvFileName_value (s : State) :
  csvFileName s
  = (if isOpen (m_file s) then QString.fileName (fileName (m_file s))
     else "No CSV file selected", s).
Proof. open_feeder. destruct (isOpen (m_file s)); reflexivity. Qed.

Lemma setSimulationActivated_idle (activated : bool) (s : State) :
  socketConnected s && m_simulationEnabled s = false ->
  exec (setSimulationActivated activated) s = s.
Proof.
  intros H. unfold exec, setSimulationActivated, bind, Plugin_isConnected,
    simulationEnabled, gets. rewrite H. reflexivity.
Qed.

Lemma setSimulationActivated_false (s : State) :
  socketConnected s = true -> m_simulationEnabled s = true ->
  exec (setSimulationActivated false) s = exec (setSimulationMode false) s.
Proof.
  intros Hc He. unfold exec, setSimulationActivated, bind, Plugin_isConnected,
    simulationEnabled, gets. rewrite Hc, He. cbn [andb].
  rewrite csvFileName_value. reflexivity.
Qed.

Lemma setSimulationActivated_true (s : State) :
  socketConnected s = true -> m_simulationEnabled s = true ->
  QString.isEmpty (fst (csvFileName s)) = false ->
  exec (setSimulationActivated true) s
  = set_timers (timers s ++ [(5000, SLOT_sendSimulatedData)])
      (set_trace
         ((((trace s ++ [Emit simulationActivatedChanged])
            ++ [txLine "CMD,1026,SIM,ACTIVATE;"])
           ++ [SocketWrite (sendData_apiFrame "CMD,1026,SIM,ACTIVATE;")])
          ++ [PrintLn ("[INFO]" +s QString.tab
                       +s "Wating 5 seconds before sending data...")])
         (set_io (tl (io s)) (set_m_simulationActivated true s))).
Proof.
  intros Hc He Hn. rewrite csvFileName_value in Hn. cbn [fst] in Hn.
  unfold exec, setSimulationActivated, bind, Plugin_isConnected,
    simulationEnabled, gets. rewrite Hc, He. cbn [andb].
  rewrite csvFileName_value, Hn.
  cbn [andb negb]. open_feeder. cbn.
  rewrite exec_sendData_connected by (try exact Hc; reflexivity).
  reflexivity.
Qed.


(** With a CSV file loaded that holds no row, the activation is not
    rejected. *)
Lemma setSimulationActivated_counterexample :
  let s := run [Occur Socket_connected; Invoke (Call_openCsv emptyCsv);
                Invoke (Call_setSimulationMode true)] init in
  let s' := exec (setSimulationActivated true) s in
  socketConnected s = true /\ flags s = (true, false) /\ m_csvData s = []
  /\ fst (simulationActivated s') = true
  /\ skipn (List.length (trace s)) (trace s')
     = [Emit simulationActivatedChanged;
        txLine "CMD,1026,SIM,ACTIVATE;";
        SocketWrite (sendData_apiFrame "CMD,1026,SIM,ACTIVATE;");
        PrintLn ("[INFO]" +s QString.tab +s "Wating 5 seconds before sending data...")].
Proof. vm_compute. repeat split. Qed.

(** X2: called with [true] while the transport is connected,
    simulation mode is enabled and a simulation CSV file is loaded, whatever
    rows it holds, [setSimulationActivated] makes the feeder ACTIVE, sends
    the activation command and nothing else, leaves the cursor where it is,
    and schedules the first [sendSimulatedData] 5000 ms later. *)
Theorem setSimulationActivated_loaded (s : State) :
  socketConnected s = true ->
  m_simulationEnabled s = true ->
  isOpen (m_file s) = true ->
  QString.isEmpty (QString.fileName (fileName (m_file s))) = false ->
  let s' := exec (setSimulationActivated true) s in
  fst (simulationActivated s') = true
  /\ trace s'
     = trace s
       ++ [Emit simulationActivatedChanged;
           txLine "CMD,1026,SIM,ACTIVATE;";
           SocketWrite (sendData_apiFrame "CMD,1026,SIM,ACTIVATE;");
           PrintLn ("[INFO]" +s QString.tab
                    +s "Wating 5 seconds before sending data...")]
  /\ timers s' = timers s ++ [(5000, SLOT_sendSimulatedData)]
  /\ m_row s' = m_row s
  /\ m_csvData s' = m_csvData s.
Proof.
  intros Hc He Hf Hn. cbv zeta. rewrite setSimulationActivated_true; try assumption.
  - unfold simulationActivated, simulationEnabled, bind, gets, ret.
    cbn. rewrite He. split; [reflexivity|]. split; [|repeat split].
    rewrite <- !app_assoc. reflexivity.
  - rewrite csvFileName_value, Hf. exact Hn.
Qed.

Lemma setSimulationActivated_loaded_witness :
  let s := run [Occur Socket_connected; Invoke (Call_openCsv pressureCsv);
                Invoke (Call_setSimulationMode true)] init in
  socketConnected s = true /\ m_simulationEnabled s = true
  /\ isOpen (m_file s) = true
  /\ fst (simulationActivated (exec (setSimulationActivated true) s)) = true
  /\ timers (exec (setSimulationActivated true) s) = [(5000, SLOT_sendSimulatedData)].
Proof.
  cbv zeta.
  split; [reflexivity|]. split; [reflexivity|]. split; [reflexivity|].
  pose proof (setSimulationActivated_loaded
    (run [Occur Socket_connected; Invoke (Call_openCsv pressureCsv);
          Invoke (Call_setSimulationMode true)] init)
    eq_refl eq_refl eq_refl eq_refl) as H.
  cbv zeta in H. destruct H as [H1 [_ [H2 _]]]. split; [exact H1|exact H2].
Defined.

Arguments setSimulationActivated : simpl never.

Lemma simulationActivated_value (s : State) :
  simulationActivated s = (m_simulationEnabled s && m_simulationActivated s, s).
Proof. reflexivity. Qed.

(** A tick that finds the feeder not active or the transport not
    connected does nothing. *)
Lemma sendSimulatedData_stopped (s : State) :
  negb (fst (simulationActivated s)) || negb (socketConnected s) = true ->
  exec sendSimulatedData s = s.
Proof.
  intros H. rewrite simulationActivated_value in H. cbn [fst] in H.
  unfold exec, sendSimulatedData, bind, Plugin_isConnected, gets.
  rewrite simulationActivated_value, H. reflexivity.
Qed.

(** A tick past the last row. *)
Lemma sendSimulatedData_finished (s : State) :
  fst (simulationActivated s) = true -> socketConnected s = true ->
  rowInRange s = false ->
  exec sendSimulatedData s
  = set_trace
      (trace (exec (setSimulationMode false) s)
       ++ [ShowMessageBox "Pressure simulation finished" "Reached end of CSV file"])
      (exec (setSimulationMode false) s).
Proof.
  intros Ha Hc Hr. rewrite simulationActivated_value in Ha. cbn [fst] in Ha.
  assert (He : m_simulationEnabled s = true)
    by (destruct (m_simulationEnabled s); [reflexivity|discriminate]).
  unfold rowInRange in Hr.
  unfold exec at 1, sendSimulatedData, bind, Plugin_isConnected, gets.
  rewrite simulationActivated_value, Ha, Hc. cbn [negb orb]. rewrite Hr.
  rewrite (exec_unit (setSimulationActivated false)).
  rewrite setSimulationActivated_false by assumption. reflexivity.
Qed.

(** A tick on a row of the dataset. *)
Lemma sendSimulatedData_row (s : State) :
  fst (simulationActivated s) = true -> socketConnected s = true ->
  rowInRange s = true ->
  exec sendSimulatedData s
  = set_timers (timers s ++ [(1000, SLOT_sendSimulatedData)])
      (set_m_row (m_row s + 1)
         (sent ("CMD,1026,SIMP,"
                +s first (nth (Z.to_nat (m_row s)) (m_csvData s) []) +s ";") s)).
Proof.
  intros Ha Hc Hr. rewrite simulationActivated_value in Ha. cbn [fst] in Ha.
  unfold rowInRange in Hr.
  unfold exec, sendSimulatedData, bind, Plugin_isConnected, gets.
  rewrite simulationActivated_value, Ha, Hc. cbn [negb orb]. rewrite Hr.
  cbn [QString.isEmpty String.append negb].
  rewrite exec_sendData_connected by (try exact Hc; reflexivity).
  reflexivity.
Qed.

(** At the end of the dataset, and on [setSimulationActivated(false)],
    simulation mode does not stay enabled. *)
Lemma deactivation_counterexample :
  let s := run [Occur Socket_connected; Invoke (Call_openCsv emptyCsv);
                Invoke (Call_setSimulationMode true);
                Invoke (Call_setSimulationActivated true)] init in
  flags s = (true, true) /\ socketConnected s = true /\ rowInRange s = false
  /\ flags (exec sendSimulatedData s) = (false, false)
  /\ flags (exec (setSimulationActivated false) s) = (false, false).
Proof. vm_compute. repeat split. Qed.

(** X3: when a tick of the send loop finds the cursor past the
    dataset while the feeder is ACTIVE and the transport connected, and
    likewise on [setSimulationActivated(false)] while connected with
    simulation mode enabled, the feeder goes to DISABLED: both the
    activated flag and the enabled flag are cleared, the command
    [CMD,1026,SIM,DISABLE;] is sent, and no further tick is scheduled; the
    tick then reports the end of the file in a message box. *)
Theorem deactivation_disables (s t : State) :
  fst (simulationActivated s) = true -> socketConnected s = true ->
  rowInRange s = false ->
  socketConnected t = true -> m_simulationEnabled t = true ->
  let disabled u :=
    [Emit simulationEnabledChanged; Emit simulationActivatedChanged;
     txLine "CMD,1026,SIM,DISABLE;";
     SocketWrite (sendData_apiFrame "CMD,1026,SIM,DISABLE;")] ++ u in
  let s' := exec sendSimulatedData s in
  let t' := exec (setSimulationActivated false) t in
  (flags s' = (false, false)
   /\ trace s'
      = trace s
        ++ disabled [ShowMessageBox "Pressure simulation finished"
                       "Reached end of CSV file"]
   /\ timers s' = timers s /\ m_row s' = m_row s)
  /\ (flags t' = (false, false)
      /\ trace t' = trace t ++ disabled []
      /\ timers t' = timers t).
Proof.
  intros Ha Hc Hr Hct Het. cbv zeta. split.
  - rewrite sendSimulatedData_finished by assumption.
    rewrite setSimulationMode_connected by assumption.
    cbn. rewrite <- !app_assoc. repeat split.
  - rewrite setSimulationActivated_false by assumption.
    rewrite setSimulationMode_connected by assumption.
    cbn. rewrite <- !app_assoc. repeat split.
Qed.

Lemma deactivation_disables_witness :
  let s := run [Occur Socket_connected; Invoke (Call_openCsv emptyCsv);
                Invoke (Call_setSimulationMode true);
                Invoke (Call_setSimulationActivated true)] init in
  fst (simulationActivated s) = true /\ socketConnected s = true
  /\ rowInRange s = false /\ m_simulationEnabled s = true
  /\ flags (exec sendSimulatedData s) = (false, false)
  /\ flags (exec (setSimulationActivated false) s) = (false, false).
Proof.
  cbv zeta.
  split; [reflexivity|]. split; [reflexivity|].
  split; [reflexivity|]. split; [reflexivity|].
  pose proof (deactivation_disables
    (run [Occur Socket_connected; Invoke (Call_openCsv emptyCsv);
          Invoke (Call_setSimulationMode true);
          Invoke (Call_setSimulationActivated true)] init)
    (run [Occur Socket_connected; Invoke (Call_openCsv emptyCsv);
          Invoke (Call_setSimulationMode true);
          Invoke (Call_setSimulationActivated true)] init)
    eq_refl eq_refl eq_refl eq_refl eq_refl) as H.
  cbv zeta in H. destruct H as [[H1 _] [H2 _]]. split; [exact H1|exact H2].
Defined.

(** ** The flags of the feeder *)

Create HintDb handlers discriminated.

(** Breaks a handler down to the primitives of the monad; [leaf] proves
    the side conditions of [modify] and [syscall], and the handlers it
    meets on the way are looked up in the hint database [handlers]. *)
Ltac preserves_with leaf :=
  repeat lazymatch goal with
  | |- preserves _ (bind _ _) => apply preserves_bind; [|intros ?]
  | |- preserves _ (ret _) => apply preserves_ret
  | |- preserves _ (gets _) => apply preserves_gets
  | |- preserves _ (modify _) => apply preserves_modify; leaf
  | |- preserves _ syscall => apply preserves_syscall; leaf
  | |- preserves _ (if ?b then _ else _) => destruct b
  | |- preserves _ (match ?x with _ => _ end) => destruct x
  | |- preserves _ _ => solve [eauto with handlers]
  end.

Ltac same_flags := intros ? H; exact H.

Lemma sendData_flags (fl : bool * bool) (data : QString.t) :
  preserves (fun s => flags s = fl) (sendData data).
Proof.
  unfold sendData, Plugin_write, Plugin_isConnected, printLn.
  preserves_with same_flags.
Qed.

#[local] Hint Resolve sendData_flags : handlers.

Lemma processFrame_flags (fl : bool * bool) (frame : QByteArray.t) :
  preserves (fun s => flags s = fl) (processFrame frame).
Proof.
  unfold processFrame, processFrame_log, createCsv, QFile_open, QFile_write,
    QFile_close, QFile_setFileName, printLn, showMessageBox.
  preserves_with same_flags.
Qed.

#[local] Hint Resolve processFrame_flags : handlers.

Lemma readFrames_flags (fl : bool * bool) (fuel : nat) (cursor : QByteArray.t) (n : Z) :
  preserves (fun s => flags s = fl) (readFrames fuel cursor n).
Proof.
  revert cursor n. induction fuel as [|fuel IH]; intros cursor n; cbn [readFrames].
  - apply preserves_ret.
  - cbv zeta. preserves_with same_flags.
Qed.

#[local] Hint Resolve readFrames_flags : handlers.

Lemma onDataReceived_flags (fl : bool * bool) (data : QByteArray.t) :
  preserves (fun s => flags s = fl) (onDataReceived data).
Proof. unfold onDataReceived. preserves_with same_flags. Qed.

Lemma updateContainerTime_flags (fl : bool * bool) :
  preserves (fun s => flags s = fl) updateContainerTime.
Proof.
  unfold updateContainerTime, Plugin_isConnected.
  preserves_with same_flags.
Qed.

Lemma setContainerTelemetryEnabled_flags (fl : bool * bool) (enabled : bool) :
  preserves (fun s => flags s = fl) (setContainerTelemetryEnabled enabled).
Proof.
  unfold setContainerTelemetryEnabled, Plugin_isConnected, emit.
  preserves_with same_flags.
Qed.

Lemma updateCurrentTime_flags (fl : bool * bool) :
  preserves (fun s => flags s = fl) updateCurrentTime.
Proof. unfold updateCurrentTime, emit. preserves_with same_flags. Qed.

Lemma activeOnlyEnabled_flags (s t : State) :
  flags t = flags s -> activeOnlyEnabled s -> activeOnlyEnabled t.
Proof.
  unfold flags, activeOnlyEnabled. intros E. injection E as -> ->. exact id.
Qed.

Lemma setSimulationMode_inv (enabled : bool) :
  preserves activeOnlyEnabled (setSimulationMode enabled).
Proof.
  intros s H. fold (exec (setSimulationMode enabled) s).
  destruct (socketConnected s) eqn:Hc.
  - rewrite setSimulationMode_connected by assumption. intros E. discriminate E.
  - rewrite setSimulationMode_not_connected by assumption. exact H.
Qed.

Lemma setSimulationActivated_else (activated : bool) (s : State) :
  socketConnected s = true -> m_simulationEnabled s = true ->
  activated && negb (QString.isEmpty (fst (csvFileName s))) = false ->
  exec (setSimulationActivated activated) s = exec (setSimulationMode false) s.
Proof.
  intros Hc He Hn. rewrite csvFileName_value in Hn. cbn [fst] in Hn.
  unfold exec, setSimulationActivated, bind, Plugin_isConnected,
    simulationEnabled, gets. rewrite Hc, He. cbn [andb].
  rewrite csvFileName_value, Hn. reflexivity.
Qed.

Lemma setSimulationActivated_inv (activated : bool) :
  preserves activeOnlyEnabled (setSimulationActivated activated).
Proof.
  intros s H. fold (exec (setSimulationActivated activated) s).
  destruct (socketConnected s) eqn:Hc;
    [destruct (m_simulationEnabled s) eqn:He|].
  - destruct (activated && negb (QString.isEmpty (fst (csvFileName s)))) eqn:Hn.
    + apply andb_true_iff in Hn. destruct Hn as [-> Hn].
      apply negb_true_iff in Hn.
      rewrite setSimulationActivated_true by assumption. intros _. exact He.
    + rewrite setSimulationActivated_else by assumption.
      apply setSimulationMode_inv, H.
  - rewrite setSimulationActivated_idle by (rewrite Hc, He; reflexivity). exact H.
  - rewrite setSimulationActivated_idle by (rewrite Hc; reflexivity). exact H.
Qed.

Lemma sendSimulatedData_inv : preserves activeOnlyEnabled sendSimulatedData.
Proof.
  intros s H. fold (exec sendSimulatedData s).
  destruct (negb (fst (simulationActivated s)) || negb (socketConnected s)) eqn:Hs.
  - rewrite sendSimulatedData_stopped by assumption. exact H.
  - apply orb_false_iff in Hs. destruct Hs as [Ha Hc].
    apply negb_false_iff in Ha, Hc.
    destruct (rowInRange s) eqn:Hr.
    + rewrite sendSimulatedData_row by assumption. exact H.
    + rewrite sendSimulatedData_finished by assumption.
      exact (setSimulationMode_inv false s H).
Qed.

#[local] Hint Resolve setSimulationActivated_inv : handlers.

Ltac same_inv := intros ? H; exact H.

Lemma openCsv_inv (dialog : CsvDialog) : preserves activeOnlyEnabled (openCsv dialog).
Proof.
  unfold openCsv, QFile_open, QFile_write, QFile_close, QFile_setFileName,
    simulationActivated, simulationEnabled, printLn, showMessageBox, emit.
  preserves_with same_inv.
Qed.

Lemma step_inv (a : Action) (s : State) :
  activeOnlyEnabled s -> activeOnlyEnabled (step a s).
Proof.
  intros H. destruct a as [c|e]; cbn [step].
  - destruct c; cbn [invoke].
    + exact (openCsv_inv dialog s H).
    + exact (activeOnlyEnabled_flags s _ (updateContainerTime_flags _ s eq_refl) H).
    + exact (setSimulationMode_inv enabled s H).
    + exact (setSimulationActivated_inv activated s H).
    + exact (activeOnlyEnabled_flags s _
               (setContainerTelemetryEnabled_flags _ enabled s eq_refl) H).
  - destruct e as [data| |n| | |now|outcomes]; cbn [handle].
    + exact (activeOnlyEnabled_flags s _ (onDataReceived_flags _ data s eq_refl) H).
    + exact (activeOnlyEnabled_flags s _ (updateCurrentTime_flags _ s eq_refl) H).
    + unfold exec, bind, gets, modify.
      destruct (nth_error (timers s) n) as [[d []]|]; [|exact H].
      cbn [runSlot]. apply sendSimulatedData_inv. exact H.
    + exact H.
    + exact H.
    + exact H.
    + exact H.
Qed.

Lemma reachable_run (acts : list Action) (s : State) :
  reachable s -> reachable (run acts s).
Proof.
  revert s. induction acts as [|a acts IH]; intros s H; [exact H|].
  cbn [run fold_left]. apply IH. constructor. exact H.
Qed.

(** X4: in every state the object can reach, the activated flag is set only
    together with the enabled flag; and whatever the flags,
    [simulationActivated()] answers true only when [simulationEnabled()]
    does. *)
Theorem activated_only_enabled (s : State) :
  reachable s ->
  (m_simulationActivated s = true -> m_simulationEnabled s = true)
  /\ (fst (simulationActivated s) = true -> fst (simulationEnabled s) = true).
Proof.
  intros H. split.
  - induction H as [now o|a s H IH]; [discriminate|].
    exact (step_inv a s IH).
  - rewrite simulationActivated_value. cbn [fst simulationEnabled gets].
    intros E. apply andb_true_iff in E. apply E.
Qed.

Lemma activated_only_enabled_witness :
  let s := run [Occur Socket_connected; Invoke (Call_openCsv pressureCsv);
                Invoke (Call_setSimulationMode true);
                Invoke (Call_setSimulationActivated true);
                Occur Socket_disconnected] init in
  reachable s /\ m_simulationActivated s = true /\ m_simulationEnabled s = true.
Proof.
  cbv zeta.
  assert (R : reachable
    (run [Occur Socket_connected; Invoke (Call_openCsv pressureCsv);
          Invoke (Call_setSimulationMode true);
          Invoke (Call_setSimulationActivated true);
          Occur Socket_disconnected] init))
    by (apply reachable_run; constructor).
  split; [exact R|]. split; [reflexivity|].
  exact (proj1 (activated_only_enabled _ R) eq_refl).
Defined.

(** ** The send loop and its timers *)

Lemma rowsSent_other (e : Effect) (rows : list Effect) (s : State) :
  isRowLine e = false -> rowsSent s = rows ->
  rowsSent (set_trace (trace s ++ [e]) s) = rows.
Proof.
  intros He Hr. unfold rowsSent in *. cbn [trace set_trace].
  rewrite filter_app. cbn [filter]. rewrite He, app_nil_r. exact Hr.
Qed.

Ltac same_idle :=
  intros ? [? ?]; cbv beta;
  first [ split; assumption
        | split; [assumption|];
          apply rowsSent_other; [first [reflexivity|assumption]|assumption] ].

Lemma sendData_idle (rows : list Effect) (data : QString.t) :
  isRowLine (txLine data) = false -> preserves (idle rows) (sendData data).
Proof.
  intros Hd. unfold sendData, Plugin_write, Plugin_isConnected, printLn.
  preserves_with same_idle.
Qed.

#[local] Hint Extern 1 (preserves (idle _) (sendData _)) =>
  apply sendData_idle; reflexivity : handlers.

Lemma processFrame_idle (rows : list Effect) (frame : QByteArray.t) :
  preserves (idle rows) (processFrame frame).
Proof.
  unfold processFrame, processFrame_log, createCsv, QFile_open, QFile_write,
    QFile_close, QFile_setFileName, printLn, showMessageBox.
  preserves_with same_idle.
Qed.

#[local] Hint Resolve processFrame_idle : handlers.

Lemma readFrames_idle (rows : list Effect) (fuel : nat) (cursor : QByteArray.t) (n : Z) :
  preserves (idle rows) (readFrames fuel cursor n).
Proof.
  revert cursor n. induction fuel as [|fuel IH]; intros cursor n; cbn [readFrames].
  - apply preserves_ret.
  - cbv zeta. preserves_with same_idle.
Qed.

#[local] Hint Resolve readFrames_idle : handlers.

Lemma onDataReceived_idle (rows : list Effect) (data : QByteArray.t) :
  preserves (idle rows) (onDataReceived data).
Proof. unfold onDataReceived. preserves_with same_idle. Qed.

Lemma updateContainerTime_idle (rows : list Effect) :
  preserves (idle rows) updateContainerTime.
Proof.
  unfold updateContainerTime, Plugin_isConnected. preserves_with same_idle.
Qed.

Lemma setContainerTelemetryEnabled_idle (rows : list Effect) (enabled : bool) :
  preserves (idle rows) (setContainerTelemetryEnabled enabled).
Proof.
  unfold setContainerTelemetryEnabled, Plugin_isConnected, emit.
  preserves_with same_idle.
Qed.

Lemma updateCurrentTime_idle (rows : list Effect) :
  preserves (idle rows) updateCurrentTime.
Proof. unfold updateCurrentTime, emit. preserves_with same_idle. Qed.

Lemma setSimulationMode_idle (rows : list Effect) (enabled : bool) :
  preserves (idle rows) (setSimulationMode enabled).
Proof.
  unfold setSimulationMode, Plugin_isConnected, simulationEnabled, emit.
  preserves_with same_idle.
Qed.

Lemma setSimulationActivated_idle_false (rows : list Effect) :
  preserves (idle rows) (setSimulationActivated false).
Proof.
  intros s H. fold (exec (setSimulationActivated false) s).
  destruct (socketConnected s) eqn:Hc;
    [destruct (m_simulationEnabled s) eqn:He|].
  - rewrite setSimulationActivated_false by assumption.
    apply setSimulationMode_idle, H.
  - rewrite setSimulationActivated_idle by (rewrite Hc, He; reflexivity). exact H.
  - rewrite setSimulationActivated_idle by (rewrite Hc; reflexivity). exact H.
Qed.

#[local] Hint Resolve setSimulationActivated_idle_false : handlers.

Lemma openCsv_idle (rows : list Effect) (dialog : CsvDialog) :
  preserves (idle rows) (openCsv dialog).
Proof.
  unfold openCsv, QFile_open, QFile_write, QFile_close, QFile_setFileName,
    simulationActivated, simulationEnabled, printLn, showMessageBox, emit.
  preserves_with same_idle.
Qed.

(** X5: a single-shot timer that expires while the feeder is not active or the
    transport is not connected is spent without any effect: no row is sent,
    the cursor stays, no new timer is scheduled. *)
Theorem tick_dies (n : nat) (msec : Z) (s : State) :
  nth_error (timers s) n = Some (msec, SLOT_sendSimulatedData) ->
  fst (simulationActivated s) = false \/ socketConnected s = false ->
  step (Occur (SingleShot_timeout n)) s = set_timers (drop_nth n (timers s)) s.
Proof.
  intros Hn Hs. cbn [step handle]. unfold exec, bind, gets, modify.
  rewrite Hn. cbn [runSlot]. fold (exec sendSimulatedData (set_timers (drop_nth n (timers s)) s)).
  apply sendSimulatedData_stopped.
  rewrite simulationActivated_value in *. cbn [fst] in *.
  cbn [m_simulationEnabled m_simulationActivated socketConnected set_timers].
  destruct Hs as [-> | ->]; [reflexivity|apply orb_true_r].
Qed.

Lemma tick_dies_witness :
  let s := run [Occur Socket_connected; Invoke (Call_openCsv pressureCsv);
                Invoke (Call_setSimulationMode true);
                Invoke (Call_setSimulationActivated true);
                Occur Socket_disconnected] init in
  nth_error (timers s) 0 = Some (5000, SLOT_sendSimulatedData)
  /\ socketConnected s = false
  /\ step (Occur (SingleShot_timeout 0)) s = set_timers (drop_nth 0 (timers s)) s.
Proof.
  cbv zeta. split; [reflexivity|]. split; [reflexivity|].
  apply (tick_dies 0 5000); [reflexivity|right; reflexivity].
Defined.

Lemma ui_step_idle (rows : list Effect) (u : UiEvent) (s : State) :
  idle rows s ->
  match u with
  | Click activateSimMode => fst (simulationActivated s) = true
  | _ => True
  end ->
  idle rows (ui_step u s).
Proof.
  intros H Hu. destruct u as [b|e]; unfold ui_step; cbn [ui_action step].
  - destruct b as [dialog| | | |]; cbn [Button_onClicked invoke].
    + exact (openCsv_idle rows dialog s H).
    + exact (setSimulationMode_idle rows _ s H).
    + rewrite Hu. exact (setSimulationActivated_idle_false rows s H).
    + exact (setContainerTelemetryEnabled_idle rows _ s H).
    + exact (updateContainerTime_idle rows s H).
  - destruct e as [data| |n| | |now|outcomes]; cbn [handle].
    + exact (onDataReceived_idle rows data s H).
    + exact (updateCurrentTime_idle rows s H).
    + unfold exec, bind, gets, modify. destruct H as [Ht Hr]. rewrite Ht.
      destruct n; exact (conj Ht Hr).
    + exact H.
    + exact H.
    + exact H.
    + exact H.
Qed.

(** X6: once no single-shot timer is pending, none becomes pending and no
    simulated row is sent, whatever the operator clicks and whatever the
    transport, the clock and the timers do, as long as the operator does not
    click the activation button while the feeder is deactivated. *)
Theorem loop_stays_dead (rows : list Effect) (us : list UiEvent) (s : State) :
  timers s = [] -> rowsSent s = rows ->
  reactivated us s = false ->
  timers (ui_run us s) = [] /\ rowsSent (ui_run us s) = rows.
Proof.
  intros Ht Hr. assert (H : idle rows s) by (split; assumption). clear Ht Hr.
  revert s H. induction us as [|u us IH]; intros s H Hre; [exact H|].
  cbn [ui_run fold_left]. cbn [reactivated] in Hre.
  apply orb_false_iff in Hre. destruct Hre as [Hu Hre].
  apply IH; [|exact Hre]. apply ui_step_idle; [exact H|].
  destruct u as [[| | | |]|]; try exact I.
  apply negb_false_iff in Hu. exact Hu.
Qed.

Lemma loop_stays_dead_witness :
  let s := step (Occur (SingleShot_timeout 0))
             (run [Occur Socket_connected; Invoke (Call_openCsv pressureCsv);
                   Invoke (Call_setSimulationMode true);
                   Invoke (Call_setSimulationActivated true);
                   Occur Socket_disconnected] init) in
  let us := [Env Socket_connected; Env (SingleShot_timeout 0);
             Click telemetryEnabled; Click activateSimMode] in
  timers s = [] /\ reactivated us s = false
  /\ timers (ui_run us s) = [] /\ rowsSent (ui_run us s) = [].
Proof.
  cbv zeta. split; [reflexivity|]. split; [vm_compute; reflexivity|].
  apply loop_stays_dead; [reflexivity|reflexivity|vm_compute; reflexivity].
Defined.

(** ** The transport when it is down *)

Lemma socketWrites_other (e : Effect) (writes : list Effect) (s : State) :
  isSocketWrite e = false -> socketWrites s = writes ->
  socketWrites (set_trace (trace s ++ [e]) s) = writes.
Proof.
  intros He Hr. unfold socketWrites in *. cbn [trace set_trace].
  rewrite filter_app. cbn [filter]. rewrite He, app_nil_r. exact Hr.
Qed.

Ltac same_offline :=
  intros ? [? ?]; cbv beta;
  first [ split; assumption
        | split; [assumption|];
          apply socketWrites_other; [reflexivity|assumption] ].

Lemma sendData_offline (writes : list Effect) (data : QString.t) :
  preserves (offline writes) (sendData data).
Proof.
  intros s H. rewrite sendData_not_connected by apply H. exact H.
Qed.

#[local] Hint Resolve sendData_offline : handlers.

Lemma processFrame_offline (writes : list Effect) (frame : QByteArray.t) :
  preserves (offline writes) (processFrame frame).
Proof.
  unfold processFrame, processFrame_log, createCsv, QFile_open, QFile_write,
    QFile_close, QFile_setFileName, printLn, showMessageBox.
  preserves_with same_offline.
Qed.

#[local] Hint Resolve processFrame_offline : handlers.

Lemma readFrames_offline (writes : list Effect) (fuel : nat)
    (cursor : QByteArray.t) (n : Z) :
  preserves (offline writes) (readFrames fuel cursor n).
Proof.
  revert cursor n. induction fuel as [|fuel IH]; intros cursor n; cbn [readFrames].
  - apply preserves_ret.
  - cbv zeta. preserves_with same_offline.
Qed.

#[local] Hint Resolve readFrames_offline : handlers.

Lemma setSimulationMode_offline (writes : list Effect) (enabled : bool) :
  preserves (offline writes) (setSimulationMode enabled).
Proof.
  unfold setSimulationMode, Plugin_isConnected, simulationEnabled, emit.
  preserves_with same_offline.
Qed.

#[local] Hint Resolve setSimulationMode_offline : handlers.

Lemma setSimulationActivated_offline (writes : list Effect) (activated : bool) :
  preserves (offline writes) (setSimulationActivated activated).
Proof.
  unfold setSimulationActivated, Plugin_isConnected, simulationEnabled,
    csvFileName, simulationCsvLoaded, emit, printLn, singleShot.
  preserves_with same_offline.
Qed.

#[local] Hint Resolve setSimulationActivated_offline : handlers.

Lemma invoke_offline (writes : list Effect) (c : Call) :
  preserves (offline writes) (invoke c).
Proof.
  destruct c; cbn [invoke].
  - unfold openCsv, QFile_open, QFile_write, QFile_close, QFile_setFileName,
      simulationActivated, simulationEnabled, printLn, showMessageBox, emit.
    preserves_with same_offline.
  - unfold updateContainerTime, Plugin_isConnected. preserves_with same_offline.
  - apply setSimulationMode_offline.
  - apply setSimulationActivated_offline.
  - unfold setContainerTelemetryEnabled, Plugin_isConnected, emit.
    preserves_with same_offline.
Qed.

Lemma handle_offline (writes : list Effect) (e : Event) :
  e <> Socket_connected -> preserves (offline writes) (handle e).
Proof.
  intros He. destruct e as [data| |n| | |now|outcomes]; cbn [handle].
  - unfold onDataReceived. preserves_with same_offline.
  - unfold updateCurrentTime, emit. preserves_with same_offline.
  - unfold runSlot, sendSimulatedData, simulationActivated, simulationEnabled,
      Plugin_isConnected, showMessageBox, singleShot.
    preserves_with same_offline.
  - congruence.
  - intros s [_ Hw]. split; [reflexivity|exact Hw].
  - preserves_with same_offline.
  - preserves_with same_offline.
Qed.

(** X7: while the transport is down nothing reaches the socket: whatever slot
    is called and whatever happens, apart from the socket connecting, the
    frames handed to the socket stay the same and the transport stays
    down. *)
Theorem offline_writes_nothing (a : Action) (s : State) :
  socketConnected s = false -> a <> Occur Socket_connected ->
  socketConnected (step a s) = false /\ socketWrites (step a s) = socketWrites s.
Proof.
  intros Hc Ha. assert (H : offline (socketWrites s) s) by (split; [exact Hc|reflexivity]).
  destruct a as [c|e]; cbn [step].
  - exact (invoke_offline _ c s H).
  - apply (handle_offline _ e); [congruence|exact H].
Qed.

Lemma offline_writes_nothing_witness :
  let s := run [Occur Socket_connected; Invoke (Call_openCsv pressureCsv);
                Invoke (Call_setSimulationMode true);
                Invoke (Call_setSimulationActivated true);
                Occur Socket_disconnected] init in
  socketConnected s = false
  /\ socketWrites (step (Occur (SingleShot_timeout 0)) s) = socketWrites s.
Proof.
  cbv zeta. split; [reflexivity|].
  apply offline_writes_nothing; [reflexivity|discriminate].
Defined.

(** X8: what the slots do while the transport is down: nothing at all.  The
    command is not queued, no flag changes, no signal is emitted; and
    [sendData] refuses an empty command whatever the transport. *)
Theorem slots_need_connection (s : State) (data : QString.t) (on : bool) :
  socketConnected s = false ->
  sendData data s = (false, s)
  /\ exec updateContainerTime s = s
  /\ exec (setSimulationMode on) s = s
  /\ exec (setSimulationActivated on) s = s
  /\ exec (setContainerTelemetryEnabled on) s = s
  /\ (forall t, sendData "" t = (false, t)).
Proof.
  intros Hc. split; [apply sendData_not_connected, Hc|].
  split; [unfold exec, updateContainerTime, bind, Plugin_isConnected, gets;
          rewrite Hc; reflexivity|].
  split; [apply setSimulationMode_not_connected, Hc|].
  split; [apply setSimulationActivated_idle; rewrite Hc; reflexivity|].
  split; [unfold exec, setContainerTelemetryEnabled, bind, Plugin_isConnected, gets;
          rewrite Hc; reflexivity|].
  reflexivity.
Qed.

Lemma slots_need_connection_witness :
  socketConnected init = false
  /\ exec (setSimulationMode true) init = init.
Proof.
  split; [reflexivity|].
  apply (slots_need_connection init "CMD,1026,CX,ON;" true). reflexivity.
Defined.

(** ** Stream reassembler: what one pass takes *)

(** A pattern that does not occur before the end of [g], not even begun
    in [g] and completed by its own first bytes, is found right after
    [g]. *)
Lemma indexOf_first (g pat r : QByteArray.t) :
  pat <> [] ->
  QByteArray.contains (g ++ removelast pat) pat = false ->
  QByteArray.indexOf (g ++ pat ++ r) pat = QByteArray.size g.
Proof.
  intros Hpat Hno.
  assert (Hc : QByteArray.contains (g ++ pat ++ r) pat = true)
    by (apply contains_true_iff; exists g, r; reflexivity).
  destruct (indexOf_found _ _ Hc) as [g' [r' [Ha [Ei Hmin]]]].
  rewrite Ei. unfold QByteArray.size. f_equal.
  pose proof (Hmin g r eq_refl) as Hle.
  destruct (Nat.eq_dec (List.length g') (List.length g)) as [E|Hne]; [exact E|].
  exfalso. rewrite contains_false_iff in Hno.
  assert (Hlen : (List.length (g' ++ pat) <= List.length (g ++ removelast pat))%nat).
  { rewrite !length_app.
    rewrite (app_removelast_last x00 Hpat) at 1. rewrite length_app. cbn. lia. }
  assert (E1 : firstn (List.length (g' ++ pat)) (g ++ pat ++ r) = g' ++ pat).
  { rewrite Ha, app_assoc. rewrite firstn_app, Nat.sub_diag, firstn_all.
    cbn [firstn]. apply app_nil_r. }
  assert (E2 : firstn (List.length (g' ++ pat)) (g ++ pat ++ r)
               = firstn (List.length (g' ++ pat)) (g ++ removelast pat)).
  { replace (g ++ pat ++ r) with ((g ++ removelast pat) ++ ([last pat x00] ++ r)).
    - rewrite firstn_app.
      replace (List.length (g' ++ pat) - List.length (g ++ removelast pat))%nat
        with 0%nat by lia.
      cbn [firstn]. apply app_nil_r.
    - rewrite <- app_assoc. f_equal. rewrite app_assoc. f_equal.
      symmetry. apply app_removelast_last. exact Hpat. }
  apply (Hno g' (skipn (List.length (g' ++ pat)) (g ++ removelast pat))).
  rewrite E2 in E1. rewrite app_assoc.
  remember (List.length (g' ++ pat)) as k. rewrite <- E1.
  symmetry. apply firstn_skipn.
Qed.

Lemma scanFrames_none (fuel : nat) (cursor : QByteArray.t) (n : Z) :
  QByteArray.contains cursor start && QByteArray.contains cursor finish = false ->
  scanFrames fuel cursor n = ([], n).
Proof.
  intros H. destruct fuel as [|fuel]; [reflexivity|].
  cbn [scanFrames]. rewrite H. reflexivity.
Qed.

(** One pass over [g0 /* f */ r], where [g0] holds no start sequence and
    [f] no finish sequence: the frame is [f], and the cursor goes on from
    the finish sequence, which it still holds, while [bytes] counts the
    finish sequence as taken. *)
Lemma scanFrames_pass (fuel : nat) (g0 f r : QByteArray.t) (n : Z) :
  QByteArray.contains (g0 ++ [x2f]) start = false ->
  QByteArray.contains (f ++ [x2a]) finish = false ->
  scanFrames (S fuel) (g0 ++ start ++ f ++ finish ++ r) n
  = (f :: fst (scanFrames fuel (finish ++ r)
                 (n + (QByteArray.size g0 + 2) + (QByteArray.size f + 2))),
     snd (scanFrames fuel (finish ++ r)
            (n + (QByteArray.size g0 + 2) + (QByteArray.size f + 2)))).
Proof.
  intros Hg Hf. cbn [scanFrames].
  assert (Hs : QByteArray.contains (g0 ++ start ++ f ++ finish ++ r) start = true)
    by (apply contains_true_iff; exists g0, (f ++ finish ++ r); reflexivity).
  assert (Hfi : QByteArray.contains (g0 ++ start ++ f ++ finish ++ r) finish = true).
  { apply contains_true_iff. exists (g0 ++ start ++ f), r.
    rewrite <- !app_assoc. reflexivity. }
  rewrite Hs, Hfi. cbn [andb]. cbv zeta.
  rewrite (indexOf_first g0 start (f ++ finish ++ r)) by (try discriminate; exact Hg).
  rewrite mid_after.
  rewrite (indexOf_first f finish r) by (try discriminate; exact Hf).
  pose proof (size_nonneg f) as Hsf. pose proof (size_nonneg (finish ++ r)) as Hsr.
  rewrite left_before by (rewrite size_app; lia).
  rewrite mid_from by (rewrite size_app; lia).
  rewrite firstn_size, skipn_size, size_start, size_finish.
  destruct (scanFrames fuel (finish ++ r) _) as [frames n']. reflexivity.
Qed.

(** A receive event that finds no start sequence or no finish sequence in
    the accumulated bytes takes nothing: they all stay buffered, up to the
    ceiling. *)
Lemma reassemble_keeps (buffer data : QByteArray.t) :
  QByteArray.contains (buffer ++ data) start
  && QByteArray.contains (buffer ++ data) finish = false ->
  QByteArray.size (buffer ++ data) <= 102400 ->
  reassemble buffer data = ([], buffer ++ data).
Proof.
  intros Hno Hsize. unfold reassemble, unconsumed, QByteArray.append.
  rewrite scanFrames_none by exact Hno. cbn [fst snd].
  change (QByteArray.remove (buffer ++ data) 0 0) with (buffer ++ data).
  change (1024 * 10 * 10) with 102400.
  destruct (102400 <? QByteArray.size (buffer ++ data)) eqn:E; [lia|reflexivity].
Qed.

(** One frame in one receive event, in general: from an empty buffer, the
    bytes [g0 /* f */ g1] with no start sequence in [g0], no finish
    sequence in [f] and no start sequence from the finish sequence on give
    the frame [f]; [g0] is dropped and [g1] stays buffered. *)
Lemma reassemble_one_frame (g0 f g1 : QByteArray.t) :
  QByteArray.contains (g0 ++ [x2f]) start = false ->
  QByteArray.contains (f ++ [x2a]) finish = false ->
  QByteArray.contains (finish ++ g1) start = false ->
  QByteArray.size g1 <= 102400 ->
  reassemble [] (g0 ++ start ++ f ++ finish ++ g1) = ([f], g1).
Proof.
  intros Hg Hf Hr Hsize. unfold reassemble, unconsumed, QByteArray.append.
  cbn [app]. rewrite scanFrames_pass by assumption.
  rewrite scanFrames_none by (rewrite Hr; reflexivity). cbn [fst snd].
  pose proof (size_nonneg g0). pose proof (size_nonneg f).
  rewrite remove_front by lia.
  replace (0 + (QByteArray.size g0 + 2) + (QByteArray.size f + 2))
    with (QByteArray.size (g0 ++ start ++ f ++ finish))
    by (rewrite !size_app, size_start, size_finish; lia).
  replace (g0 ++ start ++ f ++ finish ++ g1) with ((g0 ++ start ++ f ++ finish) ++ g1)
    by (rewrite <- !app_assoc; reflexivity).
  rewrite skipn_size. change (1024 * 10 * 10) with 102400.
  destruct (102400 <? QByteArray.size g1) eqn:E; [lia|reflexivity].
Qed.

Lemma reassemble_one_frame_witness :
  QByteArray.contains (bytes "noise" ++ [x2f]) start = false
  /\ reassemble [] (bytes "noise" ++ start ++ bytes "1026,7" ++ finish ++ bytes "/")
     = ([bytes "1026,7"], bytes "/").
Proof.
  split; [reflexivity|].
  apply reassemble_one_frame; first [reflexivity|vm_compute; discriminate].
Defined.

(** X9: two frames in one receive event: both are routed, in order, but the
    count of parsed bytes takes the first finish sequence twice, so the
    first two bytes behind the second frame are removed from the buffer
    with it. *)
Theorem reassemble_two_frames (f1 f2 g : QByteArray.t) :
  QByteArray.contains (f1 ++ [x2a]) finish = false ->
  QByteArray.contains (f2 ++ [x2a]) finish = false ->
  QByteArray.contains (finish ++ g) start = false ->
  QByteArray.size g <= 102400 ->
  reassemble [] (start ++ f1 ++ finish ++ start ++ f2 ++ finish ++ g)
  = ([f1; f2], skipn 2 g).
Proof.
  intros Hf1 Hf2 Hr Hsize. unfold reassemble, unconsumed, QByteArray.append.
  cbn [app].
  set (all := start ++ f1 ++ finish ++ start ++ f2 ++ finish ++ g).
  assert (Hlen : (2 <= List.length all)%nat) by (subst all; cbn; lia).
  destruct (List.length all) as [|[|fuel]] eqn:E; [lia|lia|]. subst all.
  pose proof (scanFrames_pass (S (S fuel)) [] f1 (start ++ f2 ++ finish ++ g) 0
                eq_refl Hf1) as P1.
  cbn [app] in P1. rewrite P1. clear P1.
  rewrite (scanFrames_pass _ finish f2) by (try reflexivity; assumption).
  rewrite scanFrames_none by (rewrite Hr; reflexivity). cbn [fst snd].
  pose proof (size_nonneg f1). pose proof (size_nonneg f2).
  rewrite size_finish. change (QByteArray.size []) with 0.
  rewrite remove_front by lia.
  replace (Z.to_nat (0 + (0 + 2) + (QByteArray.size f1 + 2)
                     + (2 + 2) + (QByteArray.size f2 + 2)))
    with (2 + List.length (start ++ f1 ++ finish ++ start ++ f2 ++ finish))%nat.
  - rewrite <- skipn_skipn.
    replace (start ++ f1 ++ finish ++ start ++ f2 ++ finish ++ g)
      with ((start ++ f1 ++ finish ++ start ++ f2 ++ finish) ++ g)
      by (rewrite <- !app_assoc; reflexivity).
    rewrite skipn_app, skipn_all, Nat.sub_diag. cbn [app]. rewrite skipn_O.
    change (1024 * 10 * 10) with 102400.
    assert (QByteArray.size (skipn 2 g) <= QByteArray.size g).
    { unfold QByteArray.size. rewrite length_skipn. lia. }
    destruct (102400 <? QByteArray.size (skipn 2 g)) eqn:E'; [lia|reflexivity].
  - rewrite !length_app. unfold QByteArray.size.
    change (List.length start) with 2%nat. change (List.length finish) with 2%nat. lia.
Qed.

Lemma reassemble_two_frames_witness :
  QByteArray.contains (bytes "6026,1" ++ [x2a]) finish = false
  /\ reassemble []
       (start ++ bytes "6026,1" ++ finish ++ start ++ bytes "6026,2" ++ finish
        ++ bytes "1026,3")
     = ([bytes "6026,1"; bytes "6026,2"], bytes "26,3").
Proof.
  split; [reflexivity|].
  apply (reassemble_two_frames (bytes "6026,1") (bytes "6026,2") (bytes "1026,3"));
    first [reflexivity|vm_compute; discriminate].
Defined.

(** X10: a frame and the beginning of the next one in one receive event: the
    frame is routed, then the loop runs once more on the finish sequence it
    kept, finds no frame, and counts the start sequence of the unfinished
    frame and three bytes more as parsed; the unfinished frame loses its
    start sequence and its first three bytes. *)
Theorem reassemble_frame_and_partial (f p : QByteArray.t) :
  QByteArray.contains (f ++ [x2a]) finish = false ->
  QByteArray.contains p finish = false ->
  QByteArray.size p <= 102400 ->
  reassemble [] (start ++ f ++ finish ++ start ++ p) = ([f; []], skipn 3 p).
Proof.
  intros Hf Hp Hsize. unfold reassemble, unconsumed, QByteArray.append.
  cbn [app].
  set (all := start ++ f ++ finish ++ start ++ p).
  assert (Hlen : (2 <= List.length all)%nat) by (subst all; cbn; lia).
  destruct (List.length all) as [|[|fuel]] eqn:E; [lia|lia|]. subst all.
  pose proof (scanFrames_pass (S (S fuel)) [] f (start ++ p) 0 eq_refl Hf) as P1.
  cbn [app] in P1. rewrite P1. clear P1.
  cbn [scanFrames].
  assert (Hs : QByteArray.contains (finish ++ start ++ p) start = true)
    by (apply contains_true_iff; exists finish, p; reflexivity).
  assert (Hfi : QByteArray.contains (finish ++ start ++ p) finish = true)
    by (apply contains_true_iff; exists [], (start ++ p); reflexivity).
  rewrite Hs, Hfi. cbn [andb]. cbv zeta.
  rewrite (indexOf_first finish start p) by (try discriminate; reflexivity).
  rewrite mid_after, (indexOf_missing _ _ Hp), left_none, mid_whole.
  rewrite Hp, andb_false_r. cbn [fst snd].
  pose proof (size_nonneg f).
  rewrite size_start, size_finish. change (QByteArray.size []) with 0.
  rewrite remove_front by lia.
  replace (Z.to_nat (0 + (0 + 2) + (QByteArray.size f + 2)
                     + (2 + 2) + (-1 + 2)))
    with (3 + List.length (start ++ f ++ finish ++ start))%nat.
  - rewrite <- skipn_skipn.
    replace (start ++ f ++ finish ++ start ++ p)
      with ((start ++ f ++ finish ++ start) ++ p)
      by (rewrite <- !app_assoc; reflexivity).
    rewrite skipn_app, skipn_all, Nat.sub_diag. cbn [app]. rewrite skipn_O.
    change (1024 * 10 * 10) with 102400.
    assert (QByteArray.size (skipn 3 p) <= QByteArray.size p).
    { unfold QByteArray.size. rewrite length_skipn. lia. }
    destruct (102400 <? QByteArray.size (skipn 3 p)) eqn:E'; [lia|reflexivity].
  - rewrite !length_app. unfold QByteArray.size.
    change (List.length start) with 2%nat. change (List.length finish) with 2%nat. lia.
Qed.

Lemma reassemble_frame_and_partial_witness :
  QByteArray.contains (bytes "6026,1" ++ [x2a]) finish = false
  /\ reassemble [] (start ++ bytes "6026,1" ++ finish ++ start ++ bytes "6026,2,par")
     = ([bytes "6026,1"; []], bytes "6,2,par").
Proof.
  split; [reflexivity|].
  apply (reassemble_frame_and_partial (bytes "6026,1") (bytes "6026,2,par"));
    first [reflexivity|vm_compute; discriminate].
Defined.

(** ** Stream reassembler: several receive events *)

Lemma set_m_dataBuffer_twice (a b : QByteArray.t) (s : State) :
  set_m_dataBuffer a (set_m_dataBuffer b s) = set_m_dataBuffer a s.
Proof. reflexivity. Qed.

Lemma deliver_cons (data : QByteArray.t) (chunks : list QByteArray.t)
    (buffer : QByteArray.t) :
  deliver (data :: chunks) buffer
  = (fst (reassemble buffer data)
     ++ fst (deliver chunks (snd (reassemble buffer data))),
     snd (deliver chunks (snd (reassemble buffer data)))).
Proof.
  cbn [deliver]. destruct (reassemble buffer data) as [frames b].
  cbn [fst snd]. destruct (deliver chunks b). reflexivity.
Qed.

(** Receive events in a row route the frames of [deliver], in order, and
    leave its buffer; the router never touches the buffer, nor the
    reassembler the logs. *)
Lemma run_receive (chunks : list QByteArray.t) (s : State) :
  run (receive chunks) s
  = set_m_dataBuffer (snd (deliver chunks (m_dataBuffer s)))
      (processFrames (fst (deliver chunks (m_dataBuffer s))) s).
Proof.
  revert s. induction chunks as [|data chunks IH]; intros s.
  - cbn. symmetry. apply set_m_dataBuffer_same.
  - cbn [receive map run fold_left step handle].
    fold (receive chunks). fold (run (receive chunks)).
    rewrite IH, onDataReceived_reassemble, deliver_cons.
    cbn [fst snd m_dataBuffer set_m_dataBuffer].
    rewrite processFrames_rebuffered, set_m_dataBuffer_twice, processFrames_app.
    reflexivity.
Qed.


Lemma pair_free_prefix (a b : QByteArray.t) :
  QByteArray.contains (a ++ b) start && QByteArray.contains (a ++ b) finish = false ->
  QByteArray.contains a start && QByteArray.contains a finish = false.
Proof.
  rewrite !andb_false_iff. intros [H|H]; [left|right];
    exact (contains_false_app_l _ _ _ H).
Qed.

(** Chunks that together hold no start sequence or no finish sequence are
    only accumulated. *)
Lemma deliver_keeps (chunks : list QByteArray.t) (buffer : QByteArray.t) :
  QByteArray.contains (buffer ++ List.concat chunks) start
  && QByteArray.contains (buffer ++ List.concat chunks) finish = false ->
  QByteArray.size (buffer ++ List.concat chunks) <= 102400 ->
  deliver chunks buffer = ([], buffer ++ List.concat chunks).
Proof.
  revert buffer. induction chunks as [|data chunks IH]; intros buffer Hno Hsize.
  - cbn. rewrite app_nil_r. reflexivity.
  - cbn [List.concat] in *. rewrite app_assoc in Hno, Hsize.
    rewrite deliver_cons, reassemble_keeps.
    + cbn [fst snd]. rewrite IH by assumption. rewrite <- app_assoc. reflexivity.
    + exact (pair_free_prefix _ _ Hno).
    + rewrite size_app in Hsize. pose proof (size_nonneg (List.concat chunks)). lia.
Qed.



Lemma reassemble_concat (buffer data : QByteArray.t) :
  reassemble buffer data = reassemble [] (buffer ++ data).
Proof. reflexivity. Qed.

(** The chunks of a stream that holds one frame, with the buffer [P] that
    the chunks before them left: nothing was taken yet. *)
Lemma deliver_one_frame (g0 f g1 : QByteArray.t) (chunks : list QByteArray.t)
    (P : QByteArray.t) :
  QByteArray.contains (g0 ++ [x2f]) start = false ->
  QByteArray.contains (g0 ++ start ++ f ++ [x2a]) finish = false ->
  QByteArray.contains (finish ++ g1) start = false ->
  QByteArray.size (g0 ++ start ++ f ++ finish ++ g1) <= 102400 ->
  P ++ List.concat chunks = g0 ++ start ++ f ++ finish ++ g1 ->
  (List.length P < List.length (g0 ++ start ++ f ++ finish))%nat ->
  deliver chunks P = ([f], g1).
Proof.
  intros Hg Hstale Hr Hsize.
  assert (Hf : QByteArray.contains (f ++ [x2a]) finish = false).
  { apply (contains_false_app_r (g0 ++ start)). rewrite <- app_assoc. exact Hstale. }
  assert (Hg1 : QByteArray.size g1 <= 102400).
  { rewrite !size_app in Hsize.
    pose proof (size_nonneg g0). pose proof (size_nonneg start).
    pose proof (size_nonneg f). pose proof (size_nonneg finish). lia. }
  assert (Hg1s : QByteArray.contains g1 start = false)
    by exact (contains_false_app_r finish g1 start Hr).
  revert P. induction chunks as [|data chunks IH]; intros P HP Hlen.
  - cbn [List.concat] in HP. rewrite app_nil_r in HP. subst P.
    rewrite !length_app in Hlen. lia.
  - cbn [List.concat] in HP. rewrite app_assoc in HP.
    rewrite deliver_cons, reassemble_concat.
    replace (g0 ++ start ++ f ++ finish ++ g1)
      with ((g0 ++ start ++ f ++ finish) ++ g1) in HP
      by (rewrite <- !app_assoc; reflexivity).
    destruct (app_eq_app _ _ _ _ HP) as [l [[E1 E2]|[E1 E2]]].
    + (* the finish sequence is complete *)
      rewrite E1. rewrite <- !app_assoc.
      assert (Hrl : QByteArray.contains (finish ++ l) start = false).
      { apply (contains_false_app_l _ (List.concat chunks)).
        rewrite <- app_assoc, <- E2. exact Hr. }
      assert (Hsl : QByteArray.size l <= 102400).
      { rewrite E2, size_app in Hg1. pose proof (size_nonneg (List.concat chunks)). lia. }
      rewrite reassemble_one_frame by assumption. cbn [fst snd].
      rewrite deliver_keeps; rewrite <- E2.
      * reflexivity.
      * rewrite Hg1s. reflexivity.
      * exact Hg1.
    + (* the finish sequence is not complete yet *)
      destruct l as [|x l].
      * (* the chunk ends right behind the finish sequence *)
        rewrite app_nil_r in E1. cbn [app] in E2. rewrite <- E1.
        replace (g0 ++ start ++ f ++ finish) with (g0 ++ start ++ f ++ finish ++ [])
          by (rewrite app_nil_r; reflexivity).
        rewrite reassemble_one_frame;
          [|assumption|assumption|exact (contains_false_app_l _ _ _ Hr)|cbn; lia].
        cbn [fst snd]. rewrite deliver_keeps; cbn [app]; rewrite E2.
        -- reflexivity.
        -- rewrite Hg1s. reflexivity.
        -- exact Hg1.
      * assert (Hno : QByteArray.contains (P ++ data) finish = false).
        { apply (contains_false_app_l _ (removelast (x :: l))).
          replace ((P ++ data) ++ removelast (x :: l))
            with (g0 ++ start ++ f ++ [x2a]); [exact Hstale|].
          assert (E3 : removelast ((P ++ data) ++ x :: l)
                       = removelast (g0 ++ start ++ f ++ finish)) by (rewrite E1; reflexivity).
          rewrite removelast_app in E3 by discriminate.
          rewrite E3.
          replace (g0 ++ start ++ f ++ finish) with ((g0 ++ start ++ f ++ [x2a]) ++ [x2f])
            by (rewrite <- !app_assoc; reflexivity).
          symmetry. apply removelast_last. }
        rewrite reassemble_keeps.
        -- cbn [fst snd app]. rewrite (IH (P ++ data)); [reflexivity| |].
           ++ rewrite E2, app_assoc, <- E1, <- !app_assoc. reflexivity.
           ++ rewrite E1, !length_app. cbn [List.length]. lia.
        -- cbn [app]. rewrite Hno. apply andb_false_r.
        -- cbn [app]. pose proof (f_equal (@List.length byte) E1) as L.
           unfold QByteArray.size in *. rewrite !length_app in Hsize.
           repeat rewrite length_app in L. rewrite length_app.
           cbn [List.length] in L. lia.
Qed.

(** X12: a stream that holds one frame, cut into chunks in any way: the frame
    is routed once, when the chunk with the end of its finish sequence
    arrives, and the frames routed, the logs, the console and the bytes
    left are those of one receive event with the whole stream.  The stream
    is [g0 /* f */ g1] with no start sequence in [g0], no finish sequence up
    to the end of [f], no start sequence from the finish sequence on, and at
    most 102,400 bytes. *)
Theorem one_frame_any_chunks (g0 f g1 : QByteArray.t) (chunks : list QByteArray.t)
    (s : State) :
  List.concat chunks = g0 ++ start ++ f ++ finish ++ g1 ->
  QByteArray.contains (g0 ++ [x2f]) start = false ->
  QByteArray.contains (g0 ++ start ++ f ++ [x2a]) finish = false ->
  QByteArray.contains (finish ++ g1) start = false ->
  QByteArray.size (List.concat chunks) <= 102400 ->
  m_dataBuffer s = [] ->
  deliver chunks [] = ([f], g1)
  /\ deliver [List.concat chunks] [] = ([f], g1)
  /\ run (receive chunks) s = run (receive [List.concat chunks]) s.
Proof.
  intros Hc Hg Hstale Hr Hsize Hbuf. rewrite Hc in Hsize.
  assert (E1 : deliver chunks [] = ([f], g1)).
  { apply (deliver_one_frame g0 f g1); try assumption.
    rewrite !length_app. cbn. lia. }
  assert (E2 : deliver [List.concat chunks] [] = ([f], g1)).
  { apply (deliver_one_frame g0 f g1); try assumption.
    - cbn [List.concat app]. rewrite app_nil_r. exact Hc.
    - rewrite !length_app. cbn. lia. }
  split; [exact E1|]. split; [exact E2|].
  rewrite !run_receive, Hbuf, E1, E2. reflexivity.
Qed.

Lemma one_frame_any_chunks_witness :
  let chunks := [bytes "noise/"; bytes "*6026,A"; bytes ",B*"; bytes "/more";
                 bytes "trailing"] in
  List.concat chunks
  = bytes "noise" ++ start ++ bytes "6026,A,B" ++ finish ++ bytes "moretrailing"
  /\ deliver chunks [] = ([bytes "6026,A,B"], bytes "moretrailing")
  /\ run (receive chunks) init = run (receive [List.concat chunks]) init.
Proof.
  cbv zeta. split; [reflexivity|].
  pose proof (one_frame_any_chunks (bytes "noise") (bytes "6026,A,B")
    (bytes "moretrailing")
    [bytes "noise/"; bytes "*6026,A"; bytes ",B*"; bytes "/more"; bytes "trailing"]
    init eq_refl eq_refl eq_refl eq_refl) as H.
  destruct H as [H1 [_ H3]]; [vm_compute; discriminate|reflexivity|].
  split; [exact H1|exact H3].
Defined.

(** ** The encoders, read back *)

(** X13: the payload of a frame of [ControlPanel::sendData] is the transmit
    request 10 00, address 00 13 A2 00 41 B1 8C 8D, FF FE, 00, 00 and the
    command, with the address byte 13 at index 3 written as the pair 7D 33
    (the values that the comments of the source give for XCTU).  The length
    field counts the bytes of that request and the checksum closes its byte
    sum to 0xFF: both are taken before the pair is put in, and the zero byte
    that the pair displaces adds nothing to the sum.  The command holds at
    most 65,521 bytes, so that the count fits the field. *)
Theorem sendData_escaped_address (data : QString.t) :
  QByteArray.size (QByteArray.toUtf8 data) <= 65521 ->
  let frame := ControlPanel.sendData_apiFrame data in
  let request :=
    [x10; x00] ++ [x00; x13; xa2; x00; x41; xb1; x8c; x8d] ++ [xff; xfe]
    ++ [x00] ++ [x00] ++ QByteArray.toUtf8 data in
  XBee.payload frame = firstn 3 request ++ [x7d; x33] ++ skipn 4 request
  /\ XBee.length_field frame = QByteArray.size request
  /\ (XBee.sum_bytes request + XBee.checksum frame) mod 256 = 0xFF.
Proof.
  intros Hsize. cbv zeta.
  pose proof (size_nonneg (QByteArray.toUtf8 data)) as Hnn.
  split; [|split].
  - rewrite ControlPanel_payload. reflexivity.
  - rewrite ControlPanel_length_field, !size_header_app.
    change (QByteArray.size XBee.plainHeader) with 15.
    change (QByteArray.size [x10; x00]) with 2.
    change (QByteArray.size [x00; x13; xa2; x00; x41; xb1; x8c; x8d]) with 8.
    change (QByteArray.size [xff; xfe]) with 2.
    change (QByteArray.size [x00]) with 1.
    rewrite Z.mod_small by lia. lia.
  - rewrite ControlPanel_checksum, !sum_bytes_app.
    set (n := XBee.sum_bytes (QByteArray.toUtf8 data)).
    change (XBee.sum_bytes XBee.plainHeader) with 1229.
    change (XBee.sum_bytes [x10; x00]) with 16.
    change (XBee.sum_bytes [x00; x13; xa2; x00; x41; xb1; x8c; x8d]) with 704.
    change (XBee.sum_bytes [xff; xfe]) with 509.
    change (XBee.sum_bytes [x00]) with 0.
    pose proof (Z.div_mod (1229 + n) 256 ltac:(lia)) as E.
    pose proof (Z.mod_pos_bound (1229 + n) 256 ltac:(lia)) as B.
    replace (16 + (704 + (509 + (0 + (0 + n)))) + (0xFF - (1229 + n) mod 256))
      with (255 + ((1229 + n) / 256) * 256) by lia.
    rewrite Z_mod_plus_full. reflexivity.
Qed.

Lemma sendData_escaped_address_witness :
  let frame := ControlPanel.sendData_apiFrame "CMD,1026,CX,ON;" in
  XBee.payload frame
  = [x10; x00; x00; x7d; x33; xa2; x00; x41; xb1; x8c; x8d; xff; xfe; x00; x00]
    ++ bytes "CMD,1026,CX,ON;"
  /\ XBee.length_field frame = 29.
Proof.
  pose proof (sendData_escaped_address "CMD,1026,CX,ON;") as H.
  cbv zeta in H. destruct H as [H0 [H1 _]]; [vm_compute; discriminate|].
  cbv zeta. split; [exact H0|exact H1].
Defined.

(** X14: the command can be read back from the frame of either encoder:
    the payload behind its 15 header bytes decodes to the command, the
    frame holds 19 bytes more than the command, and two commands that give
    the same frame are the same command. *)
Theorem sendData_round_trip (data other : QString.t) :
  QByteArray.fromUtf8
    (skipn 15 (XBee.payload (ControlPanel.sendData_apiFrame data))) = data
  /\ QByteArray.fromUtf8
       (skipn 15 (XBee.payload (Communicator.sendData_apiFrame data))) = data
  /\ QByteArray.size (ControlPanel.sendData_apiFrame data)
     = QByteArray.size (QByteArray.toUtf8 data) + 19
  /\ (ControlPanel.sendData_apiFrame data = ControlPanel.sendData_apiFrame other
      -> data = other).
Proof.
  assert (R : forall d, QByteArray.fromUtf8
    (skipn 15 (XBee.payload (ControlPanel.sendData_apiFrame d))) = d).
  { intros d. rewrite ControlPanel_payload. cbn [XBee.sentHeader app skipn].
    apply string_of_list_byte_of_string. }
  split; [apply R|]. split; [|split].
  - rewrite Communicator_payload. cbn [XBee.sentHeader app skipn].
    apply string_of_list_byte_of_string.
  - rewrite ControlPanel_apiFrame_eq. unfold QByteArray.size.
    rewrite !length_app. cbn [List.length XBee.sentHeader]. lia.
  - intros E. rewrite <- (R data), <- (R other), E. reflexivity.
Qed.

(** ** The session logs *)

(** What one frame does to the logs while no system call fails. *)
Lemma processFrame_logged (frame : QByteArray.t) (s : State) :
  noFailure s ->
  let s' := exec (processFrame frame) s in
  let line := frame ++ QByteArray.toUtf8 QString.newline in
  noFailure s'
  /\ (if QByteArray.startsWith frame (QByteArray.toUtf8 "6026") then
        isOpen (m_payloadCsv s') = true
        /\ device (m_payloadCsv s')
           = (if isOpen (m_payloadCsv s) then device (m_payloadCsv s) else [])
             ++ line
        /\ m_containerCsv s' = m_containerCsv s
      else if QByteArray.startsWith frame (QByteArray.toUtf8 "1026") then
        isOpen (m_containerCsv s') = true
        /\ device (m_containerCsv s')
           = (if isOpen (m_containerCsv s) then device (m_containerCsv s) else [])
             ++ line
        /\ m_payloadCsv s' = m_payloadCsv s
      else m_payloadCsv s' = m_payloadCsv s
           /\ m_containerCsv s' = m_containerCsv s).
Proof.
  intros Hio. unfold noFailure in *.
  pose proof (noFailure_hd _ Hio) as E1.
  pose proof (noFailure_tl _ Hio) as T1.
  pose proof (noFailure_hd _ T1) as E2.
  pose proof (noFailure_tl _ T1) as T2.
  pose proof (noFailure_hd _ T2) as E3.
  pose proof (noFailure_tl _ T2) as T3.
  cbv zeta. open_processFrame.
  destruct frame as [|b frame]; [cbn; split; [exact Hio|split; reflexivity]|].
  cbn [QByteArray.isEmpty].
  destruct (QByteArray.startsWith (b :: frame) (QByteArray.toUtf8 "6026")) eqn:T6.
  - destruct (isOpen (m_payloadCsv s)) eqn:E.
    + run_with E E1. rewrite E2. cbn. rewrite <- app_assoc.
      split; [exact T2|repeat split].
    + run_with E E1. run_with E2 E3. split; [exact T3|repeat split].
  - destruct (QByteArray.startsWith (b :: frame) (QByteArray.toUtf8 "1026")) eqn:T1q.
    + destruct (isOpen (m_containerCsv s)) eqn:E.
      * run_with E E1. rewrite E2. cbn. rewrite <- app_assoc.
        split; [exact T2|repeat split].
      * run_with E E1. run_with E2 E3. split; [exact T3|repeat split].
    + cbn. split; [exact Hio|split; reflexivity].
Qed.

Lemma tags_apart (frame : QByteArray.t) :
  QByteArray.startsWith frame (QByteArray.toUtf8 "6026") = true ->
  QByteArray.startsWith frame (QByteArray.toUtf8 "1026") = false.
Proof.
  destruct frame as [|b frame]; [discriminate|].
  cbn [QByteArray.toUtf8 list_byte_of_string QByteArray.startsWith].
  destruct b; cbn; try discriminate. reflexivity.
Qed.

Lemma processFrames_logged (frames : list QByteArray.t) (s : State) :
  noFailure s ->
  let s' := processFrames frames s in
  noFailure s'
  /\ logged (m_payloadCsv s') = logged (m_payloadCsv s) ++ logLines "6026" frames
  /\ logged (m_containerCsv s')
     = logged (m_containerCsv s) ++ logLines "1026" frames.
Proof.
  revert s. induction frames as [|frame frames IH]; intros s Hio; cbv zeta.
  - cbn. rewrite !app_nil_r. split; [exact Hio|split; reflexivity].
  - change (processFrames (frame :: frames) s)
      with (processFrames frames (exec (processFrame frame) s)).
    destruct (processFrame_logged frame s Hio) as [Hio' H].
    destruct (IH _ Hio') as [H0 [H1 H2]].
    split; [exact H0|]. rewrite H1, H2. unfold logLines. cbn [filter].
    destruct (QByteArray.startsWith frame (QByteArray.toUtf8 "6026")) eqn:T6.
    + rewrite (tags_apart _ T6). destruct H as [Ho [Hd Hc]].
      cbn [map List.concat]. rewrite Hc. unfold logged at 1 3. rewrite Ho, Hd.
      rewrite <- !app_assoc. split; reflexivity.
    + destruct (QByteArray.startsWith frame (QByteArray.toUtf8 "1026")) eqn:T1.
      * destruct H as [Ho [Hd Hc]].
        cbn [map List.concat]. rewrite Hc. unfold logged. rewrite Ho, Hd.
        rewrite <- !app_assoc. split; reflexivity.
      * destruct H as [Hp Hc]. rewrite Hp, Hc. split; reflexivity.
Qed.

(** X15: while no system call fails, what a session writes to its two logs
    is the frames of the stream, as the reassembler cuts them out of the
    chunks received, in their order of arrival and each followed by a
    newline: the frames that begin with 6026 in the payload log, those that
    begin with 1026 in the container log, the others in neither. *)
Theorem session_logs (chunks : list QByteArray.t) (s : State) :
  noFailure s ->
  let s' := run (receive chunks) s in
  let frames := fst (deliver chunks (m_dataBuffer s)) in
  logged (m_payloadCsv s') = logged (m_payloadCsv s) ++ logLines "6026" frames
  /\ logged (m_containerCsv s')
     = logged (m_containerCsv s) ++ logLines "1026" frames
  /\ noFailure s'.
Proof.
  intros Hio. cbv zeta. rewrite run_receive.
  destruct (processFrames_logged (fst (deliver chunks (m_dataBuffer s))) s Hio)
    as [H0 [H1 H2]].
  split; [exact H1|]. split; [exact H2|exact H0].
Qed.

Lemma session_logs_witness :
  let s' := run (receive [bytes "/*6026,1*/"; bytes "/*10"; bytes "26,2*//*6026,3*/"])
              init in
  noFailure init
  /\ logged (m_payloadCsv s')
     = bytes "6026,1" ++ [x0a] ++ bytes "6026,3" ++ [x0a]
  /\ logged (m_containerCsv s') = bytes "1026,2" ++ [x0a].
Proof.
  cbv zeta. split; [constructor|].
  pose proof (session_logs
    [bytes "/*6026,1*/"; bytes "/*10"; bytes "26,2*//*6026,3*/"] init
    (Forall_nil _)) as H.
  cbv zeta in H. destruct H as [H1 [H2 _]].
  split; [rewrite H1|rewrite H2]; reflexivity.
Defined.

Ltac same_field := intros ? H; exact H.

Ltac open_router :=
  unfold processFrame, processFrame_log, createCsv,
    QFile_open, QFile_write, QFile_close, QFile_setFileName,
    printLn, showMessageBox.

Lemma processFrame_payloadCsv (v : QFile) (frame : QByteArray.t) :
  QByteArray.startsWith frame (QByteArray.toUtf8 "6026") = false ->
  preserves (fun s => m_payloadCsv s = v) (processFrame frame).
Proof.
  intros T6. open_router. rewrite T6. preserves_with same_field.
Qed.

Lemma processFrame_containerCsv (v : QFile) (frame : QByteArray.t) :
  QByteArray.startsWith frame (QByteArray.toUtf8 "6026") = true
  \/ QByteArray.startsWith frame (QByteArray.toUtf8 "1026") = false ->
  preserves (fun s => m_containerCsv s = v) (processFrame frame).
Proof.
  intros [T|T]; open_router; rewrite T.
  - preserves_with same_field.
  - destruct (QByteArray.startsWith frame (QByteArray.toUtf8 "6026"));
      preserves_with same_field.
Qed.

Lemma processFrame_feeder {A : Type} (f : State -> A) (v : A) (frame : QByteArray.t) :
  (forall q s, f (set_m_payloadCsv q s) = f s) ->
  (forall q s, f (set_m_containerCsv q s) = f s) ->
  (forall l s, f (set_trace l s) = f s) ->
  (forall l s, f (set_io l s) = f s) ->
  preserves (fun s => f s = v) (processFrame frame).
Proof.
  intros Hp Hc Ht Hi. open_router.
  preserves_with ltac:(intros ? H; cbv beta;
    first [rewrite Hp|rewrite Hc|rewrite Ht|rewrite Hi]; exact H).
Qed.

(** X16: whatever the system calls return, a frame leaves the log of the
    other tag as it is, a frame without a known tag leaves both, and no
    frame changes the flags of the feeder, the pending timers, the
    simulation file and its rows, or the receive buffer. *)
Theorem processFrame_other_log (frame : QByteArray.t) (s : State) :
  let s' := exec (processFrame frame) s in
  (QByteArray.startsWith frame (QByteArray.toUtf8 "6026") = true
   \/ m_payloadCsv s' = m_payloadCsv s)
  /\ (QByteArray.startsWith frame (QByteArray.toUtf8 "6026") = false
      /\ QByteArray.startsWith frame (QByteArray.toUtf8 "1026") = true
      \/ m_containerCsv s' = m_containerCsv s)
  /\ flags s' = flags s /\ timers s' = timers s
  /\ m_file s' = m_file s /\ m_csvData s' = m_csvData s /\ m_row s' = m_row s
  /\ m_dataBuffer s' = m_dataBuffer s.
Proof.
  cbv zeta. split; [|split].
  - destruct (QByteArray.startsWith frame (QByteArray.toUtf8 "6026")) eqn:T6;
      [left; reflexivity|right].
    exact (processFrame_payloadCsv _ frame T6 s eq_refl).
  - destruct (QByteArray.startsWith frame (QByteArray.toUtf8 "6026")) eqn:T6.
    + right. exact (processFrame_containerCsv _ frame (or_introl T6) s eq_refl).
    + destruct (QByteArray.startsWith frame (QByteArray.toUtf8 "1026")) eqn:T1.
      * left. split; reflexivity.
      * right. exact (processFrame_containerCsv _ frame (or_intror T1) s eq_refl).
  - repeat split.
    + exact (processFrame_feeder flags _ frame
               (fun _ _ => eq_refl) (fun _ _ => eq_refl)
               (fun _ _ => eq_refl) (fun _ _ => eq_refl) s eq_refl).
    + exact (processFrame_feeder timers _ frame
               (fun _ _ => eq_refl) (fun _ _ => eq_refl)
               (fun _ _ => eq_refl) (fun _ _ => eq_refl) s eq_refl).
    + exact (processFrame_feeder m_file _ frame
               (fun _ _ => eq_refl) (fun _ _ => eq_refl)
               (fun _ _ => eq_refl) (fun _ _ => eq_refl) s eq_refl).
    + exact (processFrame_feeder m_csvData _ frame
               (fun _ _ => eq_refl) (fun _ _ => eq_refl)
               (fun _ _ => eq_refl) (fun _ _ => eq_refl) s eq_refl).
    + exact (processFrame_feeder m_row _ frame
               (fun _ _ => eq_refl) (fun _ _ => eq_refl)
               (fun _ _ => eq_refl) (fun _ _ => eq_refl) s eq_refl).
    + exact (processFrame_feeder m_dataBuffer _ frame
               (fun _ _ => eq_refl) (fun _ _ => eq_refl)
               (fun _ _ => eq_refl) (fun _ _ => eq_refl) s eq_refl).
Qed.

(** ** What the frames are made of *)

(** The cut of the loop at the finish sequence: the frame is what stands in
    front of the cursor that is kept, and it holds no finish sequence. *)
Lemma cut_at_finish (c : QByteArray.t) :
  let fIndex := QByteArray.indexOf c finish in
  (exists tail, c = QByteArray.left c fIndex ++ tail)
  /\ (exists p, c = p ++ QByteArray.mid c fIndex (-1))
  /\ QByteArray.contains (QByteArray.left c fIndex) finish = false.
Proof.
  cbv zeta. destruct (QByteArray.contains c finish) eqn:Hc.
  - destruct (indexOf_found c finish Hc) as [g [r [Ha [Ei Hmin]]]].
    rewrite Ei. pose proof (size_nonneg g) as Hg.
    assert (Hle : 0 <= QByteArray.size g <= QByteArray.size c)
      by (rewrite Ha, size_app; pose proof (size_nonneg (finish ++ r)); lia).
    rewrite left_before, mid_from by exact Hle.
    assert (Ef : firstn (Z.to_nat (QByteArray.size g)) c = g).
    { rewrite Ha. unfold QByteArray.size. rewrite Nat2Z.id.
      rewrite firstn_app, Nat.sub_diag, firstn_all. cbn [firstn].
      apply app_nil_r. }
    assert (Es : skipn (Z.to_nat (QByteArray.size g)) c = finish ++ r)
      by (rewrite Ha; apply skipn_size).
    rewrite Ef, Es. split; [exists (finish ++ r); exact Ha|].
    split; [exists g; exact Ha|].
    apply contains_false_iff. intros g' r' E.
    assert (Ha' : c = g' ++ finish ++ (r' ++ finish ++ r))
      by (rewrite Ha, E, <- !app_assoc; reflexivity).
    pose proof (Hmin _ _ Ha') as L.
    rewrite E, !length_app in L. change (List.length finish) with 2%nat in L. lia.
  - rewrite (indexOf_missing _ _ Hc), left_none, mid_whole.
    split; [exists c; reflexivity|]. split; [exists []; reflexivity|reflexivity].
Qed.

Lemma scanFrames_pieces (fuel : nat) (cursor : QByteArray.t) (n : Z)
    (f : QByteArray.t) :
  In f (fst (scanFrames fuel cursor n)) ->
  (exists g r, cursor = g ++ f ++ r) /\ QByteArray.contains f finish = false.
Proof.
  revert cursor n. induction fuel as [|fuel IH]; intros cursor n; [intros []|].
  cbn [scanFrames].
  destruct (QByteArray.contains cursor start) eqn:Hs; [|intros []].
  destruct (QByteArray.contains cursor finish) eqn:Hf; [|intros []].
  cbn [andb]. cbv zeta.
  destruct (indexOf_found cursor start Hs) as [g [r0 [Ha [Ei _]]]].
  subst cursor. rewrite Ei, mid_after.
  destruct (cut_at_finish r0) as [[tail Et] [[p Ep] Hclean]].
  match goal with |- context [scanFrames fuel ?c ?b] =>
    destruct (scanFrames fuel c b) as [frames bytes'] eqn:E;
    pose proof (IH c b) as IH'; rewrite E in IH'
  end.
  cbn [fst]. intros [Hin|Hin].
  - subst f. split; [|exact Hclean].
    exists (g ++ start), tail. rewrite <- app_assoc, <- Et. reflexivity.
  - destruct (IH' Hin) as [[g' [r' E']] Hc']. split; [|exact Hc'].
    exists (g ++ start ++ p ++ g'), r'.
    rewrite Ep at 1. rewrite E', <- !app_assoc. reflexivity.
Qed.

(** The buffer kept by a receive event is the end of what it had. *)
Lemma reassemble_suffix (buffer data : QByteArray.t) :
  exists p, buffer ++ data = p ++ snd (reassemble buffer data).
Proof.
  unfold reassemble, unconsumed, QByteArray.append. cbn [snd].
  set (all := buffer ++ data).
  pose proof (scanFrames_bytes (S (List.length all)) all 0) as Hb.
  rewrite remove_front by exact Hb.
  destruct (1024 * 10 * 10 <? _).
  - exists all. symmetry. apply app_nil_r.
  - exists (firstn (Z.to_nat (snd (scanFrames (S (List.length all)) all 0))) all).
    symmetry. apply firstn_skipn.
Qed.

(** X17: every frame that the reassembler hands to the router, over any
    number of receive events, is a run of consecutive bytes of the stream
    received (with what the buffer held before), and holds no finish
    sequence. *)
Theorem frames_are_pieces (chunks : list QByteArray.t) (buffer f : QByteArray.t) :
  In f (fst (deliver chunks buffer)) ->
  (exists g r, buffer ++ List.concat chunks = g ++ f ++ r)
  /\ QByteArray.contains f finish = false.
Proof.
  revert buffer. induction chunks as [|data chunks IH]; intros buffer; [intros []|].
  rewrite deliver_cons. cbn [fst List.concat]. rewrite in_app_iff.
  intros [Hin|Hin].
  - unfold reassemble in Hin. cbn [fst] in Hin.
    destruct (scanFrames_pieces _ _ _ _ Hin) as [[g [r E]] Hc].
    split; [|exact Hc]. exists g, (r ++ List.concat chunks).
    unfold QByteArray.append in E.
    rewrite app_assoc, E, <- !app_assoc. reflexivity.
  - destruct (IH _ Hin) as [[g [r E]] Hc]. split; [|exact Hc].
    destruct (reassemble_suffix buffer data) as [p Ep].
    exists (p ++ g), r.
    rewrite app_assoc, Ep, <- app_assoc, E, <- !app_assoc. reflexivity.
Qed.

Lemma frames_are_pieces_witness :
  In (bytes "1026,2") (fst (deliver [bytes "x/*6026,1*/"; bytes "/*1026"; bytes ",2*/"] []))
  /\ QByteArray.contains (bytes "1026,2") finish = false.
Proof.
  assert (H : In (bytes "1026,2")
                (fst (deliver [bytes "x/*6026,1*/"; bytes "/*1026"; bytes ",2*/"] [])))
    by (vm_compute; right; left; reflexivity).
  split; [exact H|].
  exact (proj2 (frames_are_pieces _ _ _ H)).
Defined.

(** ** The send loop *)

Lemma tick_row (msec : Z) (s : State) :
  timers s = [(msec, SLOT_sendSimulatedData)] ->
  fst (simulationActivated s) = true -> socketConnected s = true ->
  rowInRange s = true ->
  let s' := step (Occur (SingleShot_timeout 0)) s in
  trace s' = trace s ++ rowEffects (nth (Z.to_nat (m_row s)) (m_csvData s) [])
  /\ timers s' = [(1000, SLOT_sendSimulatedData)]
  /\ m_row s' = m_row s + 1 /\ m_csvData s' = m_csvData s
  /\ flags s' = flags s /\ socketConnected s' = true.
Proof.
  intros Ht Ha Hc Hr. cbv zeta.
  unfold step, handle, exec, bind, gets, modify. cbn [fst snd].
  rewrite Ht. cbn [nth_error drop_nth runSlot].
  change (snd (sendSimulatedData (set_timers [] s)))
    with (exec sendSimulatedData (set_timers [] s)).
  rewrite sendSimulatedData_row by assumption.
  cbn. rewrite <- app_assoc. repeat split. exact Hc.
Qed.

Lemma skipn_nth {A : Type} (k : nat) (l : list A) (d : A) :
  (k < List.length l)%nat -> skipn k l = nth k l d :: skipn (S k) l.
Proof.
  revert l. induction k as [|k IH]; intros [|x l] H; cbn in *; try lia.
  - reflexivity.
  - apply IH. lia.
Qed.

Lemma run_ticks (n : nat) : forall (msec : Z) (s : State),
  timers s = [(msec, SLOT_sendSimulatedData)] ->
  flags s = (true, true) -> socketConnected s = true ->
  0 <= m_row s -> m_row s + Z.of_nat n = Z.of_nat (List.length (m_csvData s)) ->
  let s' := run (ticks n) s in
  trace s'
  = trace s ++ flat_map rowEffects (skipn (Z.to_nat (m_row s)) (m_csvData s))
  /\ m_row s' = Z.of_nat (List.length (m_csvData s))
  /\ m_csvData s' = m_csvData s
  /\ flags s' = (true, true) /\ socketConnected s' = true
  /\ exists msec', timers s' = [(msec', SLOT_sendSimulatedData)].
Proof.
  induction n as [|n IH]; intros msec s Ht Hf Hc H0 Hn; cbv zeta.
  - cbn [ticks repeat run fold_left].
    replace (Z.to_nat (m_row s)) with (List.length (m_csvData s)) by lia.
    rewrite skipn_all. cbn [flat_map]. rewrite app_nil_r.
    split; [reflexivity|]. split; [lia|]. split; [reflexivity|].
    split; [exact Hf|]. split; [exact Hc|]. exists msec. exact Ht.
  - change (run (ticks (S n)) s)
      with (run (ticks n) (step (Occur (SingleShot_timeout 0)) s)).
    assert (Hr : rowInRange s = true).
    { unfold rowInRange. apply andb_true_iff. split; [apply Z.ltb_lt|apply Z.leb_le]; lia. }
    assert (Ha : fst (simulationActivated s) = true).
    { rewrite simulationActivated_value. cbn [fst].
      unfold flags in Hf. injection Hf as -> ->. reflexivity. }
    destruct (tick_row msec s Ht Ha Hc Hr) as [T1 [T2 [T3 [T4 [T5 T6]]]]].
    destruct (IH 1000 (step (Occur (SingleShot_timeout 0)) s)) as [R1 [R2 [R3 R4]]].
    + exact T2.
    + rewrite T5. exact Hf.
    + exact T6.
    + lia.
    + rewrite T3, T4. lia.
    + rewrite R1, R2, R3, T1, T3, T4. split; [|split; [reflexivity|split; [reflexivity|exact R4]]].
      rewrite (skipn_nth (Z.to_nat (m_row s)) (m_csvData s) []) by lia.
      cbn [flat_map]. rewrite <- app_assoc.
      replace (Z.to_nat (m_row s + 1)) with (S (Z.to_nat (m_row s))) by lia.
      reflexivity.
Qed.

(** X18: the send loop, from a pending tick to the end of the dataset.
    With the feeder ACTIVE, the transport connected and one tick pending,
    as many ticks as there are rows from the cursor on send the first field
    of each of those rows, in order, as [CMD,1026,SIMP,<field>;], and
    nothing else; the cursor then stands behind the last row and a tick is
    pending.  The next tick sends [CMD,1026,SIM,DISABLE;], clears both
    flags, reports the end of the file and leaves no tick pending. *)
Theorem playback (msec : Z) (s : State) :
  timers s = [(msec, SLOT_sendSimulatedData)] ->
  flags s = (true, true) -> socketConnected s = true ->
  0 <= m_row s <= Z.of_nat (List.length (m_csvData s)) ->
  let rows := skipn (Z.to_nat (m_row s)) (m_csvData s) in
  let s1 := run (ticks (List.length rows)) s in
  let s2 := step (Occur (SingleShot_timeout 0)) s1 in
  (trace s1 = trace s ++ flat_map rowEffects rows
   /\ m_row s1 = Z.of_nat (List.length (m_csvData s))
   /\ flags s1 = (true, true))
  /\ (trace s2
      = trace s1
        ++ [Emit simulationEnabledChanged; Emit simulationActivatedChanged;
            txLine "CMD,1026,SIM,DISABLE;";
            SocketWrite (sendData_apiFrame "CMD,1026,SIM,DISABLE;");
            ShowMessageBox "Pressure simulation finished" "Reached end of CSV file"]
      /\ flags s2 = (false, false)
      /\ timers s2 = []).
Proof.
  intros Ht Hf Hc Hr. cbv zeta.
  destruct (run_ticks (List.length (skipn (Z.to_nat (m_row s)) (m_csvData s)))
              msec s Ht Hf Hc) as [R1 [R2 [R3 [R4 [R5 [msec' R6]]]]]];
    [lia|rewrite length_skipn; lia|].
  split; [split; [exact R1|split; [exact R2|exact R4]]|].
  set (s1 := run (ticks (List.length (skipn (Z.to_nat (m_row s)) (m_csvData s)))) s) in *.
  unfold step, handle, exec, bind, gets, modify. cbn [fst snd].
  rewrite R6. cbn [nth_error drop_nth runSlot].
  change (snd (sendSimulatedData (set_timers [] s1)))
    with (exec sendSimulatedData (set_timers [] s1)).
  assert (Ha : fst (simulationActivated (set_timers [] s1)) = true).
  { rewrite simulationActivated_value. cbn [fst]. unfold flags in R4.
    cbn [m_simulationEnabled m_simulationActivated set_timers].
    injection R4 as -> ->. reflexivity. }
  assert (Hout : rowInRange (set_timers [] s1) = false).
  { unfold rowInRange. cbn [m_row m_csvData set_timers]. rewrite R2, R3.
    rewrite Z.ltb_irrefl. reflexivity. }
  rewrite sendSimulatedData_finished by assumption.
  rewrite setSimulationMode_connected by exact R5.
  cbn. rewrite <- !app_assoc. repeat split.
Qed.

Lemma playback_witness :
  let s := run [Occur Socket_connected; Invoke (Call_openCsv pressureCsv);
                Invoke (Call_setSimulationMode true);
                Invoke (Call_setSimulationActivated true)] init in
  timers s = [(5000, SLOT_sendSimulatedData)] /\ flags s = (true, true)
  /\ m_row s = 1
  /\ trace (run (ticks 1) s) = trace s ++ rowEffects ["101300"]
  /\ flags (step (Occur (SingleShot_timeout 0)) (run (ticks 1) s)) = (false, false).
Proof.
  cbv zeta.
  split; [reflexivity|]. split; [reflexivity|]. split; [reflexivity|].
  pose proof (playback 5000
    (run [Occur Socket_connected; Invoke (Call_openCsv pressureCsv);
          Invoke (Call_setSimulationMode true);
          Invoke (Call_setSimulationActivated true)] init)
    eq_refl eq_refl eq_refl) as H.
  cbv zeta in H. destruct H as [[H1 _] [_ [H2 _]]]; [vm_compute; split; discriminate|].
  split; [exact H1|exact H2].
Defined.

(** ** The cursor of the dataset *)

Ltac row_leaf := intros ? H; cbn [m_row set_m_row]; first [exact H|lia].

Lemma sendData_row (data : QString.t) :
  preserves (fun s => 0 <= m_row s) (sendData data).
Proof.
  unfold sendData, Plugin_write, Plugin_isConnected, printLn.
  preserves_with row_leaf.
Qed.

#[local] Hint Resolve sendData_row : handlers.

Lemma processFrame_row (frame : QByteArray.t) :
  preserves (fun s => 0 <= m_row s) (processFrame frame).
Proof. open_router. preserves_with row_leaf. Qed.

#[local] Hint Resolve processFrame_row : handlers.

Lemma readFrames_row (fuel : nat) (cursor : QByteArray.t) (n : Z) :
  preserves (fun s => 0 <= m_row s) (readFrames fuel cursor n).
Proof.
  revert cursor n. induction fuel as [|fuel IH]; intros cursor n; cbn [readFrames].
  - apply preserves_ret.
  - cbv zeta. preserves_with row_leaf.
Qed.

#[local] Hint Resolve readFrames_row : handlers.

Lemma setSimulationMode_row (enabled : bool) :
  preserves (fun s => 0 <= m_row s) (setSimulationMode enabled).
Proof.
  unfold setSimulationMode, Plugin_isConnected, simulationEnabled, emit.
  preserves_with row_leaf.
Qed.

#[local] Hint Resolve setSimulationMode_row : handlers.

Lemma setSimulationActivated_row (activated : bool) :
  preserves (fun s => 0 <= m_row s) (setSimulationActivated activated).
Proof.
  unfold setSimulationActivated, Plugin_isConnected, simulationEnabled,
    csvFileName, simulationCsvLoaded, emit, printLn, singleShot.
  preserves_with row_leaf.
Qed.

#[local] Hint Resolve setSimulationActivated_row : handlers.

Lemma step_row (a : Action) : preserves (fun s => 0 <= m_row s) (fun s => (tt, step a s)).
Proof.
  destruct a as [c|e]; unfold step, exec.
  - intros s H. cbn [snd]. revert s H.
    change (preserves (fun s => 0 <= m_row s) (invoke c)).
    destruct c; cbn [invoke];
      unfold openCsv, updateContainerTime, setContainerTelemetryEnabled,
        QFile_open, QFile_write, QFile_close, QFile_setFileName,
        simulationActivated, simulationEnabled, Plugin_isConnected,
        printLn, showMessageBox, emit;
      preserves_with row_leaf.
  - intros s H. cbn [snd]. revert s H.
    change (preserves (fun s => 0 <= m_row s) (handle e)).
    destruct e; cbn [handle];
      unfold onDataReceived, updateCurrentTime, runSlot, sendSimulatedData,
        simulationActivated, simulationEnabled, Plugin_isConnected,
        showMessageBox, singleShot, emit;
      preserves_with row_leaf.
Qed.

(** X19: in every state the object can reach, the cursor of the dataset
    is not negative: it starts at 0, [openCsv] puts it on row 1 and a tick
    moves it one row on.  So the test [m_row >= 0] of [sendSimulatedData]
    never fails, and a tick sends a row exactly when the cursor is below
    the number of rows. *)
Theorem row_never_negative (s : State) :
  reachable s ->
  0 <= m_row s
  /\ rowInRange s = (m_row s <? Z.of_nat (List.length (m_csvData s))).
Proof.
  intros H.
  assert (H0 : 0 <= m_row s).
  { induction H as [now o|a s H IH]; [cbn; lia|]. exact (step_row a s IH). }
  split; [exact H0|]. unfold rowInRange.
  apply Z.leb_le in H0. rewrite H0. apply andb_true_r.
Qed.

Lemma row_never_negative_witness :
  let s := run [Occur Socket_connected; Invoke (Call_openCsv emptyCsv)] init in
  reachable s /\ 0 <= m_row s /\ rowInRange s = false.
Proof.
  cbv zeta.
  assert (R : reachable
    (run [Occur Socket_connected; Invoke (Call_openCsv emptyCsv)] init))
    by (apply reachable_run; constructor).
  split; [exact R|]. split; [exact (proj1 (row_never_negative _ R))|reflexivity].
Defined.

(** X20: the only message box that a tick of the send loop can show is the
    one that reports the end of the file: the command of a row is never
    empty, so the box for an invalid column count is never shown, whatever
    the row holds. *)
Theorem sendSimulatedData_boxes (s : State) (title text : QString.t) :
  In (ShowMessageBox title text) (trace (exec sendSimulatedData s)) ->
  In (ShowMessageBox title text) (trace s)
  \/ (title = "Pressure simulation finished" /\ text = "Reached end of CSV file").
Proof.
  destruct (negb (fst (simulationActivated s)) || negb (socketConnected s)) eqn:Hs.
  - rewrite sendSimulatedData_stopped by assumption. intros H. left. exact H.
  - apply orb_false_iff in Hs. destruct Hs as [Ha Hc].
    apply negb_false_iff in Ha, Hc.
    destruct (rowInRange s) eqn:Hr.
    + rewrite sendSimulatedData_row by assumption.
      cbn [trace set_timers set_m_row sent set_io set_trace].
      rewrite !in_app_iff. cbn [In].
      intros [[H|[H|[]]]|[H|[]]]; try discriminate H. left. exact H.
    + rewrite sendSimulatedData_finished by assumption.
      rewrite setSimulationMode_connected by assumption.
      cbn [trace set_timers set_m_row sent set_io set_trace].
      rewrite !in_app_iff. cbn [In].
      intros [[[[[H|[H|[]]]|[H|[]]]|[H|[]]]|[H|[]]]|[H|[]]]; try discriminate H.
      * left. exact H.
      * right. injection H as <- <-. split; reflexivity.
Qed.

Lemma sendSimulatedData_boxes_witness :
  let s := run [Occur Socket_connected; Invoke (Call_openCsv emptyCsv);
                Invoke (Call_setSimulationMode true);
                Invoke (Call_setSimulationActivated true)] init in
  let title := "Pressure simulation finished" in
  let text := "Reached end of CSV file" in
  In (ShowMessageBox title text) (trace (exec sendSimulatedData s))
  /\ (In (ShowMessageBox title text) (trace s)
      \/ (title = "Pressure simulation finished" /\ text = "Reached end of CSV file")).
Proof.
  cbv zeta.
  assert (H : In (ShowMessageBox "Pressure simulation finished" "Reached end of CSV file")
    (trace (exec sendSimulatedData
      (run [Occur Socket_connected; Invoke (Call_openCsv emptyCsv);
            Invoke (Call_setSimulationMode true);
            Invoke (Call_setSimulationActivated true)] init)))).
  { vm_compute. tauto. }
  split; [exact H|exact (sendSimulatedData_boxes _ _ _ H)].
Defined.


(** ** Loading a simulation file *)

Ltac open_openCsv :=
  unfold openCsv, QFile_open, QFile_write, QFile_close, QFile_setFileName,
    simulationActivated, simulationEnabled, printLn, showMessageBox, emit,
    syscall, bind, ret, gets, modify.

(** X21: a simulation file that loads while no system call fails.  The
    file is open under the selected name; the temporary file holds the
    filtered text and the dataset is what the reader makes of it; the
    cursor stands on row 1, not on row 0.  A
    feeder that was ACTIVE on a connected transport is DISABLED with
    [CMD,1026,SIM,DISABLE;]; without a connection it stays ACTIVE on the new
    dataset. *)
Theorem openCsv_loaded (dialog : CsvDialog) (s : State) :
  QString.isEmpty (selected dialog) = false ->
  noFailure s ->
  let s' := exec (openCsv dialog) s in
  let csv := QByteArray.toUtf8 (openCsv_filter (lines dialog) "") in
  let stopped := fst (simulationActivated s) && socketConnected s in
  (isOpen (m_file s') = true /\ fileName (m_file s') = selected dialog)
  /\ (m_tempFile s'
      = mkQFile true (tempPath (os s) +s "/CC2022_temp.csv")
          (errorString (m_tempFile s)) csv)
  /\ (m_row s' = 1 /\ m_csvData s' = readToList dialog csv)
  /\ flags s' = (if stopped then (false, false) else flags s)
  /\ trace s'
     = trace s
       ++ (if stopped then
             [Emit simulationEnabledChanged; Emit simulationActivatedChanged;
              txLine "CMD,1026,SIM,DISABLE;";
              SocketWrite (sendData_apiFrame "CMD,1026,SIM,DISABLE;")]
           else [])
       ++ [PrintLn ("[INFO]" +s QString.tab +s "Loaded simulation CSV file from "
                    +s selected dialog);
           PrintLn ("[INFO]" +s QString.tab +s "Processed simulation CSV saved at "
                    +s tempPath (os s) +s "/CC2022_temp.csv");
           Emit csvFileNameChanged].
Proof.
  intros Hsel Hio. unfold noFailure in Hio.
  pose proof (noFailure_hd _ Hio) as E1.
  pose proof (noFailure_tl _ Hio) as T1.
  pose proof (noFailure_hd _ T1) as E2.
  pose proof (noFailure_tl _ T1) as T2.
  pose proof (noFailure_hd _ T2) as E3.
  pose proof (noFailure_tl _ T2) as T3.
  pose proof (noFailure_hd _ T3) as E4.
  pose proof (noFailure_tl _ T3) as T4.
  pose proof (noFailure_hd _ T4) as E5.
  cbv zeta. rewrite simulationActivated_value. cbn [fst].
  unfold exec, flags. open_openCsv. rewrite Hsel.
  destruct (m_simulationEnabled s && m_simulationActivated s) eqn:Hact.
  - apply andb_true_iff in Hact. destruct Hact as [He Ha].
    destruct (socketConnected s) eqn:Hc.
    + destruct (isOpen (m_file s)) eqn:Ef; destruct (isOpen (m_tempFile s)) eqn:Et;
        repeat (progress (cbn; rewrite ?E1, ?E2, ?E3, ?E4, ?E5, ?He, ?Ha, ?Ef, ?Et));
        rewrite (exec_unit (setSimulationActivated false));
        rewrite setSimulationActivated_false by (cbn; assumption);
        rewrite setSimulationMode_connected by (cbn; assumption);
        repeat (progress (cbn; rewrite ?E1, ?E2, ?E3, ?E4, ?E5, ?He, ?Ha, ?Ef, ?Et));
        rewrite <- ?app_assoc; repeat split.
    + destruct (isOpen (m_file s)) eqn:Ef; destruct (isOpen (m_tempFile s)) eqn:Et;
        repeat (progress (cbn; rewrite ?E1, ?E2, ?E3, ?E4, ?E5, ?He, ?Ha, ?Ef, ?Et));
        rewrite (exec_unit (setSimulationActivated false));
        rewrite setSimulationActivated_idle by (cbn; rewrite Hc; reflexivity);
        repeat (progress (cbn; rewrite ?E1, ?E2, ?E3, ?E4, ?E5, ?He, ?Ha, ?Ef, ?Et));
        rewrite <- ?app_assoc; repeat split.
  - rewrite andb_false_l.
    destruct (isOpen (m_file s)) eqn:Ef; destruct (isOpen (m_tempFile s)) eqn:Et;
      repeat (progress (cbn; rewrite ?E1, ?E2, ?E3, ?E4, ?E5, ?Hact, ?Ef, ?Et));
      rewrite <- ?app_assoc; repeat split.
Qed.

Lemma openCsv_loaded_witness :
  let s' := exec (openCsv pressureCsv) init in
  noFailure init
  /\ m_row s' = 1
  /\ m_csvData s' = [["101325"]; ["101300"]]
  /\ device (m_tempFile s') = bytes "101325" ++ [x0a] ++ bytes "101300" ++ [x0a].
Proof.
  cbv zeta. split; [constructor|].
  pose proof (openCsv_loaded pressureCsv init eq_refl (Forall_nil _)) as H.
  cbv zeta in H. destruct H as [_ [H1 [[H2 H3] _]]].
  split; [exact H2|]. split; [exact H3|]. rewrite H1. reflexivity.
Defined.

(** X22: a simulation file that does not load.  Without a selection
    [openCsv] does nothing at all.  When the selected file cannot be opened,
    the error is shown in a message box and the file that was loaded before
    is closed: [simulationCsvLoaded()] is false and [csvFileName()] gives
    the placeholder text, while the dataset, the cursor, the flags of the
    feeder and the pending ticks stay as they were. *)
Theorem openCsv_not_loaded (dialog : CsvDialog) (e : QString.t) (s : State) :
  QString.isEmpty (selected dialog) = false ->
  hd None (io s) = Some e ->
  let s' := exec (openCsv dialog) s in
  let none := mkCsvDialog "" (lines dialog) (readToList dialog) in
  exec (openCsv none) s = s
  /\ m_file s' = mkQFile false (selected dialog) e (device (m_file s))
  /\ fst (simulationCsvLoaded s') = false
  /\ fst (csvFileName s') = "No CSV file selected"
  /\ trace s' = trace s ++ [ShowMessageBox "File open error" e; Emit csvFileNameChanged]
  /\ (m_csvData s' = m_csvData s /\ m_row s' = m_row s)
  /\ (flags s' = flags s /\ timers s' = timers s)
  /\ m_tempFile s' = m_tempFile s.
Proof.
  intros Hsel E1. cbv zeta. split; [reflexivity|].
  unfold exec, flags, csvFileName, simulationCsvLoaded. open_openCsv. rewrite Hsel.
  destruct (isOpen (m_file s)) eqn:Ef;
    repeat (progress (cbn; rewrite ?E1, ?Ef));
    rewrite <- ?app_assoc; repeat split.
Qed.

Lemma openCsv_not_loaded_witness :
  let s := run [Invoke (Call_openCsv pressureCsv);
                Occur (FileSystem [Some "No such file or directory"])] init in
  let s' := exec (openCsv emptyCsv) s in
  fst (simulationCsvLoaded s) = true
  /\ fst (simulationCsvLoaded s') = false
  /\ m_csvData s' = [["101325"]; ["101300"]].
Proof.
  cbv zeta. split; [reflexivity|].
  pose proof (openCsv_not_loaded emptyCsv "No such file or directory"
    (run [Invoke (Call_openCsv pressureCsv);
          Occur (FileSystem [Some "No such file or directory"])] init)
    eq_refl eq_refl) as H.
  cbv zeta in H. destruct H as [_ [_ [H1 [_ [_ [[H2 _] _]]]]]].
  split; [exact H1|]. rewrite H2. reflexivity.
Defined.

Lemma chars_app (a b : QString.t) :
  list_ascii_of_string (a +s b) = list_ascii_of_string a ++ list_ascii_of_string b.
Proof. induction a as [|x a IH]; cbn; [reflexivity|]. rewrite IH. reflexivity. Qed.

Lemma replace_chars (P : ascii -> Prop) (s : QString.t) (c : ascii) (after : QString.t) :
  Forall P (list_ascii_of_string after) ->
  Forall (fun x => x <> c -> P x) (list_ascii_of_string s) ->
  Forall P (list_ascii_of_string (QString.replace s c after)).
Proof.
  intros Hafter. induction s as [|x s IH]; cbn [QString.replace list_ascii_of_string];
    intros H; [constructor|].
  inversion H as [|? ? Hx Hs]; subst.
  destruct (Ascii.eqb x c) eqn:E.
  - rewrite chars_app. apply Forall_app. split; [exact Hafter|exact (IH Hs)].
  - cbn [list_ascii_of_string]. constructor; [|exact (IH Hs)].
    apply Hx. intros ->. rewrite Ascii.eqb_refl in E. discriminate E.
Qed.

Lemma openCsv_filter_chars (src : list QString.t) (csv : QString.t) :
  let clean x := x <> " "%char /\ x <> "$"%char in
  Forall clean (list_ascii_of_string csv) ->
  Forall clean (list_ascii_of_string (openCsv_filter src csv)).
Proof.
  cbv zeta. revert csv. induction src as [|line src IH]; intros csv H;
    cbn [openCsv_filter]; [exact H|].
  cbv zeta.
  destruct (QString.startsWith (QString.replace line " " "") "#"
            || QString.isEmpty (QString.replace line " " "")).
  - exact (IH csv H).
  - apply IH. rewrite !chars_app. rewrite !Forall_app.
    split; [split; [exact H|]|repeat constructor; discriminate].
    apply replace_chars.
    + repeat constructor; discriminate.
    + apply Forall_impl with (P := fun x => x <> " "%char).
      * intros x Hx Hd. split; assumption.
      * apply replace_chars; [constructor|].
        apply Forall_forall. intros x _ Hx. exact Hx.
Qed.

Lemma openCsv_filter_blank (src : list QString.t) (csv : QString.t) :
  forallb (fun line =>
    QString.startsWith (QString.replace line " " "") "#"
    || QString.isEmpty (QString.replace line " " "")) src = true ->
  openCsv_filter src csv = csv.
Proof.
  induction src as [|line src IH]; intros H; [reflexivity|].
  cbn [forallb] in H. apply andb_true_iff in H. destruct H as [H1 H2].
  cbn [openCsv_filter]. cbv zeta. rewrite H1. exact (IH H2).
Qed.

(** X23: the text that [openCsv] makes of the lines of the selected file
    holds no space and no dollar sign, whatever the lines are: the spaces
    are taken out of every line and each dollar sign of a line that is kept
    becomes 1026.  A file of blank lines and comment lines gives the empty
    text. *)
Theorem openCsv_filter_clean (src : list QString.t) :
  Forall (fun x => x <> " "%char /\ x <> "$"%char)
    (list_ascii_of_string (openCsv_filter src ""))
  /\ (forallb (fun line =>
        QString.startsWith (QString.replace line " " "") "#"
        || QString.isEmpty (QString.replace line " " "")) src = true
      -> openCsv_filter src "" = "").
Proof.
  split; [apply openCsv_filter_chars; constructor|apply openCsv_filter_blank].
Qed.

Lemma openCsv_filter_clean_witness :
  openCsv_filter ["# pressure"; "   "; " # Pa"] "" = ""
  /\ openCsv_filter ["# pressure"; "CMD, $, SIMP, 101325"] ""
     = "CMD,1026,SIMP,101325" +s QString.newline.
Proof.
  split; [|reflexivity].
  apply (proj2 (openCsv_filter_clean ["# pressure"; "   "; " # Pa"])). reflexivity.
Defined.

(** ** What goes out on the socket *)

Ltac commands_leaf :=
  intros ? H;
  first
    [ exact H
    | apply Forall_app; split; [exact H|];
      constructor; [first [exact I|eexists; reflexivity]|constructor] ].

Lemma sendData_commands (body : QString.t) :
  preserves commandsOnly (sendData ("CMD,1026," +s body +s ";")).
Proof.
  unfold sendData, Plugin_write, Plugin_isConnected, printLn.
  preserves_with commands_leaf.
Qed.

Lemma processFrame_commands (frame : QByteArray.t) :
  preserves commandsOnly (processFrame frame).
Proof. open_router. preserves_with commands_leaf. Qed.

#[local] Hint Resolve processFrame_commands : handlers.

Lemma readFrames_commands (fuel : nat) (cursor : QByteArray.t) (n : Z) :
  preserves commandsOnly (readFrames fuel cursor n).
Proof.
  revert cursor n. induction fuel as [|fuel IH]; intros cursor n; cbn [readFrames].
  - apply preserves_ret.
  - cbv zeta. preserves_with commands_leaf.
Qed.

#[local] Hint Resolve readFrames_commands : handlers.

Lemma setSimulationMode_commands (enabled : bool) :
  preserves commandsOnly (setSimulationMode enabled).
Proof.
  unfold setSimulationMode, Plugin_isConnected, simulationEnabled, emit.
  preserves_with commands_leaf.
  match goal with |- preserves _ (sendData (_ +s (if ?b then _ else _) +s _)) =>
    destruct b end.
  - exact (sendData_commands "SIM,ENABLE").
  - exact (sendData_commands "SIM,DISABLE").
Qed.

#[local] Hint Resolve setSimulationMode_commands : handlers.

Lemma setSimulationActivated_commands (activated : bool) :
  preserves commandsOnly (setSimulationActivated activated).
Proof.
  unfold setSimulationActivated, Plugin_isConnected, simulationEnabled,
    csvFileName, simulationCsvLoaded, emit, printLn, singleShot.
  preserves_with commands_leaf;
    try exact (sendData_commands "SIM,ACTIVATE");
    preserves_with commands_leaf.
Qed.

#[local] Hint Resolve setSimulationActivated_commands : handlers.

Lemma step_commands (a : Action) (s : State) :
  commandsOnly s -> commandsOnly (step a s).
Proof.
  revert s. change (preserves commandsOnly (fun s => (tt, step a s))).
  destruct a as [c|e]; unfold step, exec.
  - intros s H. cbn [snd]. revert s H.
    change (preserves commandsOnly (invoke c)).
    destruct c; cbn [invoke];
      unfold openCsv, updateContainerTime, setContainerTelemetryEnabled,
        QFile_open, QFile_write, QFile_close, QFile_setFileName,
        simulationActivated, simulationEnabled, Plugin_isConnected,
        printLn, showMessageBox, emit;
      preserves_with commands_leaf.
    + exact (sendData_commands ("ST," +s _)).
    + destruct enabled.
      * exact (sendData_commands "CX,ON").
      * exact (sendData_commands "CX,OFF").
  - intros s H. cbn [snd]. revert s H.
    change (preserves commandsOnly (handle e)).
    destruct e; cbn [handle];
      unfold onDataReceived, updateCurrentTime, runSlot, sendSimulatedData,
        simulationActivated, simulationEnabled, Plugin_isConnected,
        showMessageBox, singleShot, emit;
      preserves_with commands_leaf.
    exact (sendData_commands ("SIMP," +s _)).
Qed.

(** X24: in every state the object can reach, each frame that was handed
    to the socket is the frame that [sendData] builds for a command of the
    form [CMD,1026,<body>;]: nothing else is ever written, whatever the
    slots are called with, whatever is received and whatever the simulation
    file holds. *)
Theorem commands_only (s : State) (apiFrame : QByteArray.t) :
  reachable s ->
  In (SocketWrite apiFrame) (trace s) ->
  exists body, apiFrame = sendData_apiFrame ("CMD,1026," +s body +s ";").
Proof.
  intros R.
  assert (H : commandsOnly s).
  { induction R as [now o|a s R IH]; [constructor|]. exact (step_commands a s IH). }
  unfold commandsOnly in H. rewrite Forall_forall in H.
  intros Hin. exact (H _ Hin).
Qed.

Lemma commands_only_witness :
  let s := run [Occur Socket_connected; Invoke (Call_setContainerTelemetryEnabled true)]
             init in
  reachable s
  /\ In (SocketWrite (sendData_apiFrame "CMD,1026,CX,ON;")) (trace s)
  /\ exists body,
       sendData_apiFrame "CMD,1026,CX,ON;"
       = sendData_apiFrame ("CMD,1026," +s body +s ";").
Proof.
  cbv zeta.
  assert (R : reachable
    (run [Occur Socket_connected; Invoke (Call_setContainerTelemetryEnabled true)] init))
    by (apply reachable_run; constructor).
  assert (H : In (SocketWrite (sendData_apiFrame "CMD,1026,CX,ON;"))
    (trace (run [Occur Socket_connected;
                 Invoke (Call_setContainerTelemetryEnabled true)] init)))
    by (cbn; right; right; left; reflexivity).
  split; [exact R|]. split; [exact H|].
  exact (commands_only _ _ R H).
Defined.

(** ** The older encoder and its socket *)

Lemma chop_rest (a : QByteArray.t) (n : Z) :
  QByteArray.chop a (QByteArray.size a - n) = firstn (Z.to_nat n) a.
Proof.
  unfold QByteArray.chop. pose proof (size_nonneg a) as Hs.
  destruct (QByteArray.size a - n <=? 0) eqn:E1.
  - symmetry. apply firstn_all2. unfold QByteArray.size in *. lia.
  - destruct (QByteArray.size a <=? QByteArray.size a - n) eqn:E2.
    + replace (Z.to_nat n) with 0%nat by lia. reflexivity.
    + f_equal. lia.
Qed.

(** X25: what [Communicator::sendData] reports of a write.  For a command
    that is not empty on a connected socket that accepts [n] bytes of the
    frame ([n] is -1 when the write fails), the [rx] signal shows the first
    [n] bytes of the frame: nothing for [n <= 0], the whole frame when [n]
    is its length; and the result is true exactly when [n] is the length
    of the frame. *)
Theorem Communicator_sendData_accepted (data : QString.t) (c : Communicator.State)
    (n : Z) (rest : list Z) :
  QString.isEmpty data = false ->
  Communicator.socketConnected c = true ->
  Communicator.accepts c = n :: rest ->
  let apiFrame := Communicator.sendData_apiFrame data in
  Communicator.sendData data c
  = (n =? QByteArray.size apiFrame,
     Communicator.mkState true rest
       (Communicator.trace c
        ++ [Communicator.SocketWrite apiFrame;
            Communicator.Rx (firstn (Z.to_nat n) apiFrame)])).
Proof.
  intros Hdata Hconn Hacc. cbv zeta. unfold Communicator.sendData.
  unfold Communicator.connectedToSerialStudio. rewrite Hdata, Hconn, Hacc.
  cbn [negb tl]. rewrite chop_rest. reflexivity.
Qed.

Lemma Communicator_sendData_accepted_witness :
  let c := Communicator.mkState true [-1] [] in
  Communicator.sendData "CMD,1026,CX,ON;" c
  = (false,
     Communicator.mkState true []
       [Communicator.SocketWrite (Communicator.sendData_apiFrame "CMD,1026,CX,ON;");
        Communicator.Rx []]).
Proof.
  cbv zeta.
  rewrite (Communicator_sendData_accepted "CMD,1026,CX,ON;"
             (Communicator.mkState true [-1] []) (-1) [] eq_refl eq_refl eq_refl).
  reflexivity.
Defined.
